(** * wg-manager: the profile engine of [wg_manager/core.py]

    A shallow embedding of [WireGuardManager] (src/wg-manager/wg_manager/core.py):
    the command runner, the retry policy, the status parser, the profile
    registry and the activation orchestrator, together with the properties
    of them that the specification states.

    Modelling conventions.
    - Python [str] is [str]: a sequence of code points.  The literals of
      this file are read as UTF-8.  [str.lower], [str.strip] and [str.split]
      follow the Unicode Character Database as CPython carries it (version
      14.0.0, of CPython 3.11): the lower-case mappings with the rule of the
      final sigma, and the whitespace of [str.isspace].
    - Python [float] is IEEE 754 binary64 with round to nearest, ties to
      even; a finite value is kept as the exact rational it denotes, and
      [float(str)] is the correctly rounded value of the decimal text.  The
      text is read as CPython reads it: Unicode decimal digits count as
      digits, Unicode whitespace as blanks, and only the blanks of the C
      locale (tab, line feed, vertical tab, form feed, carriage return,
      space) are skipped at both ends.
    - The external world (process spawning, the file system, the search
      path) is an abstract [Platform]; every computation returns, next to
      its result and the final state, the interactions it had with the world,
      so that "was invoked exactly n times" and "without any command
      invocation" are statements about that list.
    - The logger, the [Timer] context manager and the re-entrant lock have no
      influence on any returned value and are left out.
    - Of the window (src/wg-manager/wg_manager/ui.py) and of the log export
      (src/wg-manager/wg_manager/logger.py) the parts that compute are
      modelled: the formatter of the status text, the filter of repeated
      clicks, and the choice of the last lines of the log.  The clock is an
      input; widgets, threads and files are left out. *)

From Stdlib Require Import Bool List ZArith NArith QArith Qround Lia.
From Stdlib Require Ascii String.
From Stdlib Require Import DecimalString DecimalPos.
From Stdlib.Strings Require Byte.
Import ListNotations.

(** ** Text *)

(** A code point. *)
Definition char : Type := N.

(** A Python [str]. *)
Inductive str : Type :=
| EmptyString
| String (c : char) (r : str).

(** The reading and the printing of literals: UTF-8. *)
Module Utf8.

Local Open Scope N_scope.

(** The payload of a continuation byte. *)
Definition continuation (b : N) : option N :=
  if (128 <=? b) && (b <? 192) then Some (b - 128) else None.

Fixpoint decode (fuel : nat) (l : list N) : option str :=
  match fuel with
  | O => match l with [] => Some EmptyString | _ => None end
  | S k =>
      match l with
      | [] => Some EmptyString
      | b0 :: r =>
          if b0 <? 128 then option_map (String b0) (decode k r)
          else if b0 <? 192 then None
          else if b0 <? 224 then
            match r with
            | b1 :: r' =>
                match continuation b1 with
                | Some c1 => option_map (String ((b0 - 192) * 64 + c1)) (decode k r')
                | None => None
                end
            | _ => None
            end
          else if b0 <? 240 then
            match r with
            | b1 :: b2 :: r' =>
                match continuation b1, continuation b2 with
                | Some c1, Some c2 =>
                    option_map (String (((b0 - 224) * 64 + c1) * 64 + c2)) (decode k r')
                | _, _ => None
                end
            | _ => None
            end
          else if b0 <? 248 then
            match r with
            | b1 :: b2 :: b3 :: r' =>
                match continuation b1, continuation b2, continuation b3 with
                | Some c1, Some c2, Some c3 =>
                    option_map (String ((((b0 - 240) * 64 + c1) * 64 + c2) * 64 + c3))
                               (decode k r')
                | _, _, _ => None
                end
            | _ => None
            end
          else None
      end
  end.

Definition byte_of (n : N) : Byte.byte :=
  match Byte.of_N n with Some b => b | None => Byte.x00 end.

Definition encode_char (c : N) : list Byte.byte :=
  if c <? 128 then [byte_of c]
  else if c <? 2048 then [byte_of (192 + c / 64); byte_of (128 + c mod 64)]
  else if c <? 65536 then
    [byte_of (224 + c / 4096); byte_of (128 + (c / 64) mod 64); byte_of (128 + c mod 64)]
  else [byte_of (240 + c / 262144); byte_of (128 + (c / 4096) mod 64);
        byte_of (128 + (c / 64) mod 64); byte_of (128 + c mod 64)].

Fixpoint encode (s : str) : list Byte.byte :=
  match s with
  | EmptyString => []
  | String c r => (encode_char c ++ encode r)%list
  end.

Definition parse (l : list Byte.byte) : option str :=
  decode (List.length l) (map Byte.to_N l).

Definition print (s : str) : option (list Byte.byte) := Some (encode s).

Definition parse_char (l : list Byte.byte) : option N :=
  match parse l with
  | Some (String c EmptyString) => Some c
  | _ => None
  end.

Definition print_char (c : N) : option (list Byte.byte) := Some (encode_char c).

End Utf8.

Declare Scope str_scope.
Delimit Scope str_scope with str.
Bind Scope str_scope with str.
String Notation str Utf8.parse Utf8.print : str_scope.

Declare Scope char_scope.
Delimit Scope char_scope with char.
Bind Scope char_scope with char.
String Notation N Utf8.parse_char Utf8.print_char : char_scope.

Local Open Scope str_scope.
Local Open Scope Z_scope.

(** Line feed and tab. *)
Definition LF : char := 10%N.
Definition TAB : char := 9%N.

Module Char.

Definition eqb (a b : char) : bool := N.eqb a b.

Definition dec (a b : char) : {a = b} + {a <> b} := N.eq_dec a b.

(** [a <= c <= b] *)
Definition between (a c b : char) : bool := (N.leb a c && N.leb c b)%bool.

End Char.

Module Str.

(** [a + b] *)
Fixpoint append (a b : str) : str :=
  match a with
  | EmptyString => b
  | String c r => String c (append r b)
  end.

(** [len(s)] *)
Fixpoint length (s : str) : nat :=
  match s with
  | EmptyString => O
  | String _ r => S (length r)
  end.

(** [a == b] *)
Fixpoint eqb (a b : str) : bool :=
  match a, b with
  | EmptyString, EmptyString => true
  | String c1 r1, String c2 r2 => (Char.eqb c1 c2 && eqb r1 r2)%bool
  | _, _ => false
  end.

(** [s.startswith(p)] *)
Fixpoint prefix (p s : str) : bool :=
  match p with
  | EmptyString => true
  | String a p' =>
      match s with
      | EmptyString => false
      | String b s' => if Char.dec a b then prefix p' s' else false
      end
  end.

(** The text of an ASCII string of the Standard Library. *)
Fixpoint of_ascii (s : String.string) : str :=
  match s with
  | String.EmptyString => EmptyString
  | String.String c r => String (Ascii.N_of_ascii c) (of_ascii r)
  end.

End Str.

Infix "++" := Str.append (right associativity, at level 60) : str_scope.

(** ** The Unicode Character Database, as far as the program consults it

    The tables are those of CPython 3.11 (Unicode 14.0.0). *)

Module Unicode.

Local Open Scope N_scope.

(** The characters of [str.isspace]: what [strip] and [split] take for
    whitespace. *)
Definition whitespace : list char :=
  [
   9; 10; 11; 12; 13; 28; 29; 30; 31; 32; 133; 160; 5760; 8192; 8193; 8194;
   8195; 8196; 8197; 8198; 8199; 8200; 8201; 8202; 8232; 8233; 8239; 8287;
   12288
  ].

(** The digits zero of the decimal digits: each starts a run of ten, zero
    to nine. *)
Definition decimal_zeros : list char :=
  [
   48; 1632; 1776; 1984; 2406; 2534; 2662; 2790; 2918; 3046; 3174; 3302;
   3430; 3558; 3664; 3792; 3872; 4160; 4240; 6112; 6160; 6470; 6608; 6784;
   6800; 6992; 7088; 7232; 7248; 42528; 43216; 43264; 43472; 43504; 43600;
   44016; 65296; 66720; 68912; 69734; 69872; 69942; 70096; 70384; 70736;
   70864; 71248; 71360; 71472; 71904; 72016; 72784; 73040; 73120; 92768;
   92864; 93008; 120782; 120792; 120802; 120812; 120822; 123200; 123632;
   125264; 130032
  ].

(** The lower-case mappings of the characters that are not ASCII and have
    one character for their lower case: each entry [(first, last, step,
    image)] maps [first], [first + step], ... up to [last] to [image],
    [image + step], ... *)
Definition lower_runs : list (char * char * char * char) :=
  [
   (192, 214, 1, 224); (216, 222, 1, 248); (256, 302, 2, 257);
   (306, 310, 2, 307); (313, 327, 2, 314); (330, 374, 2, 331);
   (376, 376, 1, 255); (377, 381, 2, 378); (385, 385, 1, 595);
   (386, 388, 2, 387); (390, 390, 1, 596); (391, 391, 1, 392);
   (393, 394, 1, 598); (395, 395, 1, 396); (398, 398, 1, 477);
   (399, 399, 1, 601); (400, 400, 1, 603); (401, 401, 1, 402);
   (403, 403, 1, 608); (404, 404, 1, 611); (406, 406, 1, 617);
   (407, 407, 1, 616); (408, 408, 1, 409); (412, 412, 1, 623);
   (413, 413, 1, 626); (415, 415, 1, 629); (416, 420, 2, 417);
   (422, 422, 1, 640); (423, 423, 1, 424); (425, 425, 1, 643);
   (428, 428, 1, 429); (430, 430, 1, 648); (431, 431, 1, 432);
   (433, 434, 1, 650); (435, 437, 2, 436); (439, 439, 1, 658);
   (440, 440, 1, 441); (444, 444, 1, 445); (452, 452, 1, 454);
   (453, 453, 1, 454); (455, 455, 1, 457); (456, 456, 1, 457);
   (458, 458, 1, 460); (459, 475, 2, 460); (478, 494, 2, 479);
   (497, 497, 1, 499); (498, 500, 2, 499); (502, 502, 1, 405);
   (503, 503, 1, 447); (504, 542, 2, 505); (544, 544, 1, 414);
   (546, 562, 2, 547); (570, 570, 1, 11365); (571, 571, 1, 572);
   (573, 573, 1, 410); (574, 574, 1, 11366); (577, 577, 1, 578);
   (579, 579, 1, 384); (580, 580, 1, 649); (581, 581, 1, 652);
   (582, 590, 2, 583); (880, 882, 2, 881); (886, 886, 1, 887);
   (895, 895, 1, 1011); (902, 902, 1, 940); (904, 906, 1, 941);
   (908, 908, 1, 972); (910, 911, 1, 973); (913, 929, 1, 945);
   (931, 939, 1, 963); (975, 975, 1, 983); (984, 1006, 2, 985);
   (1012, 1012, 1, 952); (1015, 1015, 1, 1016); (1017, 1017, 1, 1010);
   (1018, 1018, 1, 1019); (1021, 1023, 1, 891); (1024, 1039, 1, 1104);
   (1040, 1071, 1, 1072); (1120, 1152, 2, 1121); (1162, 1214, 2, 1163);
   (1216, 1216, 1, 1231); (1217, 1229, 2, 1218); (1232, 1326, 2, 1233);
   (1329, 1366, 1, 1377); (4256, 4293, 1, 11520); (4295, 4295, 1, 11559);
   (4301, 4301, 1, 11565); (5024, 5103, 1, 43888); (5104, 5109, 1, 5112);
   (7312, 7354, 1, 4304); (7357, 7359, 1, 4349); (7680, 7828, 2, 7681);
   (7838, 7838, 1, 223); (7840, 7934, 2, 7841); (7944, 7951, 1, 7936);
   (7960, 7965, 1, 7952); (7976, 7983, 1, 7968); (7992, 7999, 1, 7984);
   (8008, 8013, 1, 8000); (8025, 8031, 2, 8017); (8040, 8047, 1, 8032);
   (8072, 8079, 1, 8064); (8088, 8095, 1, 8080); (8104, 8111, 1, 8096);
   (8120, 8121, 1, 8112); (8122, 8123, 1, 8048); (8124, 8124, 1, 8115);
   (8136, 8139, 1, 8050); (8140, 8140, 1, 8131); (8152, 8153, 1, 8144);
   (8154, 8155, 1, 8054); (8168, 8169, 1, 8160); (8170, 8171, 1, 8058);
   (8172, 8172, 1, 8165); (8184, 8185, 1, 8056); (8186, 8187, 1, 8060);
   (8188, 8188, 1, 8179); (8486, 8486, 1, 969); (8490, 8490, 1, 107);
   (8491, 8491, 1, 229); (8498, 8498, 1, 8526); (8544, 8559, 1, 8560);
   (8579, 8579, 1, 8580); (9398, 9423, 1, 9424); (11264, 11311, 1, 11312);
   (11360, 11360, 1, 11361); (11362, 11362, 1, 619); (11363, 11363, 1, 7549);
   (11364, 11364, 1, 637); (11367, 11371, 2, 11368); (11373, 11373, 1, 593);
   (11374, 11374, 1, 625); (11375, 11375, 1, 592); (11376, 11376, 1, 594);
   (11378, 11378, 1, 11379); (11381, 11381, 1, 11382);
   (11390, 11391, 1, 575); (11392, 11490, 2, 11393);
   (11499, 11501, 2, 11500); (11506, 11506, 1, 11507);
   (42560, 42604, 2, 42561); (42624, 42650, 2, 42625);
   (42786, 42798, 2, 42787); (42802, 42862, 2, 42803);
   (42873, 42875, 2, 42874); (42877, 42877, 1, 7545);
   (42878, 42886, 2, 42879); (42891, 42891, 1, 42892);
   (42893, 42893, 1, 613); (42896, 42898, 2, 42897);
   (42902, 42920, 2, 42903); (42922, 42922, 1, 614); (42923, 42923, 1, 604);
   (42924, 42924, 1, 609); (42925, 42925, 1, 620); (42926, 42926, 1, 618);
   (42928, 42928, 1, 670); (42929, 42929, 1, 647); (42930, 42930, 1, 669);
   (42931, 42931, 1, 43859); (42932, 42946, 2, 42933);
   (42948, 42948, 1, 42900); (42949, 42949, 1, 642); (42950, 42950, 1, 7566);
   (42951, 42953, 2, 42952); (42960, 42960, 1, 42961);
   (42966, 42968, 2, 42967); (42997, 42997, 1, 42998);
   (65313, 65338, 1, 65345); (66560, 66599, 1, 66600);
   (66736, 66771, 1, 66776); (66928, 66964, 2, 66967);
   (66929, 66938, 1, 66968); (66940, 66954, 1, 66979);
   (66956, 66962, 1, 66995); (66964, 66965, 1, 67003);
   (68736, 68786, 1, 68800); (71840, 71871, 1, 71872);
   (93760, 93791, 1, 93792); (125184, 125217, 1, 125218)
  ].

(** The cased characters (the property Cased), in ranges. *)
Definition cased_ranges : list (char * char) :=
  [
   (65, 90); (97, 122); (170, 170); (181, 181); (186, 186); (192, 214);
   (216, 246); (248, 442); (444, 447); (452, 659); (661, 696); (704, 705);
   (736, 740); (837, 837); (880, 883); (886, 887); (890, 893); (895, 895);
   (902, 902); (904, 906); (908, 908); (910, 929); (931, 1013); (1015, 1153);
   (1162, 1327); (1329, 1366); (1376, 1416); (4256, 4293); (4295, 4295);
   (4301, 4301); (4304, 4346); (4349, 4351); (5024, 5109); (5112, 5117);
   (7296, 7304); (7312, 7354); (7357, 7359); (7424, 7615); (7680, 7957);
   (7960, 7965); (7968, 8005); (8008, 8013); (8016, 8023); (8025, 8025);
   (8027, 8027); (8029, 8029); (8031, 8061); (8064, 8116); (8118, 8124);
   (8126, 8126); (8130, 8132); (8134, 8140); (8144, 8147); (8150, 8155);
   (8160, 8172); (8178, 8180); (8182, 8188); (8305, 8305); (8319, 8319);
   (8336, 8348); (8450, 8450); (8455, 8455); (8458, 8467); (8469, 8469);
   (8473, 8477); (8484, 8484); (8486, 8486); (8488, 8488); (8490, 8493);
   (8495, 8500); (8505, 8505); (8508, 8511); (8517, 8521); (8526, 8526);
   (8544, 8575); (8579, 8580); (9398, 9449); (11264, 11492); (11499, 11502);
   (11506, 11507); (11520, 11557); (11559, 11559); (11565, 11565);
   (42560, 42605); (42624, 42653); (42786, 42887); (42891, 42894);
   (42896, 42954); (42960, 42961); (42963, 42963); (42965, 42969);
   (42997, 42998); (43000, 43002); (43824, 43866); (43868, 43880);
   (43888, 43967); (64256, 64262); (64275, 64279); (65313, 65338);
   (65345, 65370); (66560, 66639); (66736, 66771); (66776, 66811);
   (66928, 66938); (66940, 66954); (66956, 66962); (66964, 66965);
   (66967, 66977); (66979, 66993); (66995, 67001); (67003, 67004);
   (67456, 67456); (67459, 67461); (67463, 67504); (67506, 67514);
   (68736, 68786); (68800, 68850); (71840, 71903); (93760, 93823);
   (119808, 119892); (119894, 119964); (119966, 119967); (119970, 119970);
   (119973, 119974); (119977, 119980); (119982, 119993); (119995, 119995);
   (119997, 120003); (120005, 120069); (120071, 120074); (120077, 120084);
   (120086, 120092); (120094, 120121); (120123, 120126); (120128, 120132);
   (120134, 120134); (120138, 120144); (120146, 120485); (120488, 120512);
   (120514, 120538); (120540, 120570); (120572, 120596); (120598, 120628);
   (120630, 120654); (120656, 120686); (120688, 120712); (120714, 120744);
   (120746, 120770); (120772, 120779); (122624, 122633); (122635, 122654);
   (125184, 125251); (127280, 127305); (127312, 127337); (127344, 127369)
  ].

(** The case-ignorable characters (the property Case_Ignorable), in
    ranges. *)
Definition case_ignorable_ranges : list (char * char) :=
  [
   (39, 39); (46, 46); (58, 58); (94, 94); (96, 96); (168, 168); (173, 173);
   (175, 175); (180, 180); (183, 184); (688, 879); (884, 885); (890, 890);
   (900, 901); (903, 903); (1155, 1161); (1369, 1369); (1375, 1375);
   (1425, 1469); (1471, 1471); (1473, 1474); (1476, 1477); (1479, 1479);
   (1524, 1524); (1536, 1541); (1552, 1562); (1564, 1564); (1600, 1600);
   (1611, 1631); (1648, 1648); (1750, 1757); (1759, 1768); (1770, 1773);
   (1807, 1807); (1809, 1809); (1840, 1866); (1958, 1968); (2027, 2037);
   (2042, 2042); (2045, 2045); (2070, 2093); (2137, 2139); (2184, 2184);
   (2192, 2193); (2200, 2207); (2249, 2306); (2362, 2362); (2364, 2364);
   (2369, 2376); (2381, 2381); (2385, 2391); (2402, 2403); (2417, 2417);
   (2433, 2433); (2492, 2492); (2497, 2500); (2509, 2509); (2530, 2531);
   (2558, 2558); (2561, 2562); (2620, 2620); (2625, 2626); (2631, 2632);
   (2635, 2637); (2641, 2641); (2672, 2673); (2677, 2677); (2689, 2690);
   (2748, 2748); (2753, 2757); (2759, 2760); (2765, 2765); (2786, 2787);
   (2810, 2815); (2817, 2817); (2876, 2876); (2879, 2879); (2881, 2884);
   (2893, 2893); (2901, 2902); (2914, 2915); (2946, 2946); (3008, 3008);
   (3021, 3021); (3072, 3072); (3076, 3076); (3132, 3132); (3134, 3136);
   (3142, 3144); (3146, 3149); (3157, 3158); (3170, 3171); (3201, 3201);
   (3260, 3260); (3263, 3263); (3270, 3270); (3276, 3277); (3298, 3299);
   (3328, 3329); (3387, 3388); (3393, 3396); (3405, 3405); (3426, 3427);
   (3457, 3457); (3530, 3530); (3538, 3540); (3542, 3542); (3633, 3633);
   (3636, 3642); (3654, 3662); (3761, 3761); (3764, 3772); (3782, 3782);
   (3784, 3789); (3864, 3865); (3893, 3893); (3895, 3895); (3897, 3897);
   (3953, 3966); (3968, 3972); (3974, 3975); (3981, 3991); (3993, 4028);
   (4038, 4038); (4141, 4144); (4146, 4151); (4153, 4154); (4157, 4158);
   (4184, 4185); (4190, 4192); (4209, 4212); (4226, 4226); (4229, 4230);
   (4237, 4237); (4253, 4253); (4348, 4348); (4957, 4959); (5906, 5908);
   (5938, 5939); (5970, 5971); (6002, 6003); (6068, 6069); (6071, 6077);
   (6086, 6086); (6089, 6099); (6103, 6103); (6109, 6109); (6155, 6159);
   (6211, 6211); (6277, 6278); (6313, 6313); (6432, 6434); (6439, 6440);
   (6450, 6450); (6457, 6459); (6679, 6680); (6683, 6683); (6742, 6742);
   (6744, 6750); (6752, 6752); (6754, 6754); (6757, 6764); (6771, 6780);
   (6783, 6783); (6823, 6823); (6832, 6862); (6912, 6915); (6964, 6964);
   (6966, 6970); (6972, 6972); (6978, 6978); (7019, 7027); (7040, 7041);
   (7074, 7077); (7080, 7081); (7083, 7085); (7142, 7142); (7144, 7145);
   (7149, 7149); (7151, 7153); (7212, 7219); (7222, 7223); (7288, 7293);
   (7376, 7378); (7380, 7392); (7394, 7400); (7405, 7405); (7412, 7412);
   (7416, 7417); (7468, 7530); (7544, 7544); (7579, 7679); (8125, 8125);
   (8127, 8129); (8141, 8143); (8157, 8159); (8173, 8175); (8189, 8190);
   (8203, 8207); (8216, 8217); (8228, 8228); (8231, 8231); (8234, 8238);
   (8288, 8292); (8294, 8303); (8305, 8305); (8319, 8319); (8336, 8348);
   (8400, 8432); (11388, 11389); (11503, 11505); (11631, 11631);
   (11647, 11647); (11744, 11775); (11823, 11823); (12293, 12293);
   (12330, 12333); (12337, 12341); (12347, 12347); (12441, 12446);
   (12540, 12542); (40981, 40981); (42232, 42237); (42508, 42508);
   (42607, 42610); (42612, 42621); (42623, 42623); (42652, 42655);
   (42736, 42737); (42752, 42785); (42864, 42864); (42888, 42890);
   (42994, 42996); (43000, 43001); (43010, 43010); (43014, 43014);
   (43019, 43019); (43045, 43046); (43052, 43052); (43204, 43205);
   (43232, 43249); (43263, 43263); (43302, 43309); (43335, 43345);
   (43392, 43394); (43443, 43443); (43446, 43449); (43452, 43453);
   (43471, 43471); (43493, 43494); (43561, 43566); (43569, 43570);
   (43573, 43574); (43587, 43587); (43596, 43596); (43632, 43632);
   (43644, 43644); (43696, 43696); (43698, 43700); (43703, 43704);
   (43710, 43711); (43713, 43713); (43741, 43741); (43756, 43757);
   (43763, 43764); (43766, 43766); (43867, 43871); (43881, 43883);
   (44005, 44005); (44008, 44008); (44013, 44013); (64286, 64286);
   (64434, 64450); (65024, 65039); (65043, 65043); (65056, 65071);
   (65106, 65106); (65109, 65109); (65279, 65279); (65287, 65287);
   (65294, 65294); (65306, 65306); (65342, 65342); (65344, 65344);
   (65392, 65392); (65438, 65439); (65507, 65507); (65529, 65531);
   (66045, 66045); (66272, 66272); (66422, 66426); (67456, 67461);
   (67463, 67504); (67506, 67514); (68097, 68099); (68101, 68102);
   (68108, 68111); (68152, 68154); (68159, 68159); (68325, 68326);
   (68900, 68903); (69291, 69292); (69446, 69456); (69506, 69509);
   (69633, 69633); (69688, 69702); (69744, 69744); (69747, 69748);
   (69759, 69761); (69811, 69814); (69817, 69818); (69821, 69821);
   (69826, 69826); (69837, 69837); (69888, 69890); (69927, 69931);
   (69933, 69940); (70003, 70003); (70016, 70017); (70070, 70078);
   (70089, 70092); (70095, 70095); (70191, 70193); (70196, 70196);
   (70198, 70199); (70206, 70206); (70367, 70367); (70371, 70378);
   (70400, 70401); (70459, 70460); (70464, 70464); (70502, 70508);
   (70512, 70516); (70712, 70719); (70722, 70724); (70726, 70726);
   (70750, 70750); (70835, 70840); (70842, 70842); (70847, 70848);
   (70850, 70851); (71090, 71093); (71100, 71101); (71103, 71104);
   (71132, 71133); (71219, 71226); (71229, 71229); (71231, 71232);
   (71339, 71339); (71341, 71341); (71344, 71349); (71351, 71351);
   (71453, 71455); (71458, 71461); (71463, 71467); (71727, 71735);
   (71737, 71738); (71995, 71996); (71998, 71998); (72003, 72003);
   (72148, 72151); (72154, 72155); (72160, 72160); (72193, 72202);
   (72243, 72248); (72251, 72254); (72263, 72263); (72273, 72278);
   (72281, 72283); (72330, 72342); (72344, 72345); (72752, 72758);
   (72760, 72765); (72767, 72767); (72850, 72871); (72874, 72880);
   (72882, 72883); (72885, 72886); (73009, 73014); (73018, 73018);
   (73020, 73021); (73023, 73029); (73031, 73031); (73104, 73105);
   (73109, 73109); (73111, 73111); (73459, 73460); (78896, 78904);
   (92912, 92916); (92976, 92982); (92992, 92995); (94031, 94031);
   (94095, 94111); (94176, 94177); (94179, 94180); (110576, 110579);
   (110581, 110587); (110589, 110590); (113821, 113822); (113824, 113827);
   (118528, 118573); (118576, 118598); (119143, 119145); (119155, 119170);
   (119173, 119179); (119210, 119213); (119362, 119364); (121344, 121398);
   (121403, 121452); (121461, 121461); (121476, 121476); (121499, 121503);
   (121505, 121519); (122880, 122886); (122888, 122904); (122907, 122913);
   (122915, 122916); (122918, 122922); (123184, 123197); (123566, 123566);
   (123628, 123631); (125136, 125142); (125252, 125259); (127995, 127999);
   (917505, 917505); (917536, 917631); (917760, 917999)
  ].

(** Whether [c] lies in one of the ranges [(first, last)]. *)
Fixpoint in_ranges (c : char) (ranges : list (char * char)) : bool :=
  match ranges with
  | [] => false
  | (first, last) :: rest => ((first <=? c) && (c <=? last)) || in_ranges c rest
  end.

(** [str.isspace] of one character *)
Definition is_space (c : char) : bool := existsb (N.eqb c) whitespace.

(** The two properties that decide the form of a sigma. *)
Definition is_cased (c : char) : bool := in_ranges c cased_ranges.

Definition is_case_ignorable (c : char) : bool := in_ranges c case_ignorable_ranges.

(** The value of a decimal digit. *)
Fixpoint decimal_from (zeros : list char) (c : char) : option N :=
  match zeros with
  | [] => None
  | zero :: rest =>
      if (zero <=? c) && (c <? zero + 10) then Some (c - zero)
      else decimal_from rest c
  end.

Definition to_decimal (c : char) : option N := decimal_from decimal_zeros c.

(** The lower case of a character that is not ASCII, where it is one
    character. *)
Fixpoint lower_from_runs (runs : list (char * char * char * char)) (c : char)
  : option char :=
  match runs with
  | [] => None
  | (first, last, step, image) :: rest =>
      if (first <=? c) && (c <=? last) && ((c - first) mod step =? 0)
      then Some (image + (c - first))
      else lower_from_runs rest c
  end.

(** The capital sigma and its two lower-case forms. *)
Definition capital_sigma : char := 931.
Definition small_sigma : char := 963.
Definition final_small_sigma : char := 962.

(** The capital I with a dot above, the one character whose lower case is
    two characters: i and the combining dot above. *)
Definition capital_i_dot : char := 304.
Definition combining_dot : char := 775.

(** The lower case of one character, without regard to its place. *)
Definition to_lower_full (c : char) : str :=
  if c <? 128 then String (if Char.between 65 c 90 then c + 32 else c) EmptyString
  else if c =? capital_i_dot then String 105 (String combining_dot EmptyString)
  else match lower_from_runs lower_runs c with
       | Some l => String l EmptyString
       | None => String c EmptyString
       end.

End Unicode.

(** ** Python string operations *)

Module PyStr.

(** Whether the first character of [s] that is not case-ignorable is
    cased. *)
Fixpoint cased_next (s : str) : bool :=
  match s with
  | EmptyString => false
  | String c r => if Unicode.is_case_ignorable c then cased_next r else Unicode.is_cased c
  end.

(** The place of a final sigma: a cased letter before, none after, the
    case-ignorable characters set aside.  [before] is what stands before,
    the nearest character first. *)
Definition final_sigma (before after : str) : bool :=
  (cased_next before && negb (cased_next after))%bool.

(** The lower case of the character [c] between [before] and [after]. *)
Definition lower_at (before : str) (c : char) (after : str) : str :=
  if Char.eqb c Unicode.capital_sigma
  then String (if final_sigma before after
               then Unicode.final_small_sigma else Unicode.small_sigma) EmptyString
  else Unicode.to_lower_full c.

Fixpoint lower_from (before s : str) : str :=
  match s with
  | EmptyString => EmptyString
  | String c r => lower_at before c r ++ lower_from (String c before) r
  end.

(** [s.lower()] *)
Definition lower (s : str) : str := lower_from "" s.

(** [c.isspace()] *)
Definition is_space (c : char) : bool := Unicode.is_space c.

Definition is_empty (s : str) : bool :=
  match s with EmptyString => true | String _ _ => false end.

(** [s.lstrip()] *)
Fixpoint lstrip (s : str) : str :=
  match s with
  | EmptyString => EmptyString
  | String c r => if is_space c then lstrip r else s
  end.

(** [s.rstrip()] *)
Fixpoint rstrip (s : str) : str :=
  match s with
  | EmptyString => EmptyString
  | String c r =>
      let r' := rstrip r in
      if (is_space c && is_empty r')%bool then EmptyString else String c r'
  end.

(** [s.strip()] *)
Definition strip (s : str) : str := rstrip (lstrip s).

(** [pat in s] *)
Fixpoint contains (pat s : str) : bool :=
  if Str.prefix pat s then true
  else match s with
       | EmptyString => false
       | String _ r => contains pat r
       end.

(** [s.split(sep)] for a one-character separator: never the empty list. *)
Fixpoint split (sep : char) (s : str) : list str :=
  match s with
  | EmptyString => [EmptyString]
  | String c r =>
      if Char.eqb c sep then EmptyString :: split sep r
      else match split sep r with
           | h :: t => String c h :: t
           | [] => [String c EmptyString]
           end
  end.

(** [s.split()]: the maximal runs of non-whitespace characters. *)
Fixpoint split_ws_aux (cur : option str) (s : str) : list str :=
  match s with
  | EmptyString => match cur with Some w => [w] | None => [] end
  | String c r =>
      if is_space c then
        match cur with
        | Some w => w :: split_ws_aux None r
        | None => split_ws_aux None r
        end
      else
        match cur with
        | Some w => split_ws_aux (Some (w ++ String c EmptyString)) r
        | None => split_ws_aux (Some (String c EmptyString)) r
        end
  end.

Definition split_ws (s : str) : list str := split_ws_aux None s.

(** [s.replace(pat, '')] for a non-empty [pat]: the occurrences are found
    from left to right and do not overlap; [skip] counts the characters of
    the occurrence being dropped. *)
Fixpoint remove_from (pat : str) (skip : nat) (s : str) : str :=
  match s with
  | EmptyString => EmptyString
  | String c r =>
      match skip with
      | S k => remove_from pat k r
      | O =>
          if Str.prefix pat s
          then remove_from pat (Nat.pred (Str.length pat)) r
          else String c (remove_from pat O r)
      end
  end.

Definition remove (pat s : str) : str := remove_from pat O s.

(** [sep.join(l)] *)
Fixpoint join (sep : str) (l : list str) : str :=
  match l with
  | [] => EmptyString
  | [x] => x
  | x :: r => x ++ sep ++ join sep r
  end.

(** [x in l] for a list of strings. *)
Definition mem (x : str) (l : list str) : bool :=
  existsb (Str.eqb x) l.

(** [str(n)] for an integer. *)
Definition of_Z (n : Z) : str := Str.of_ascii (NilZero.string_of_int (Z.to_int n)).

End PyStr.

(** ** Python floats

    A [float] is an IEEE 754 binary64 value.  A finite one is kept as the
    rational it denotes; every operation computes the exact rational result
    and rounds it to the nearest binary64 value, ties to even, which is what
    the hardware and the correctly rounded decimal conversion of [float(str)]
    do.  The sign of zero is not kept: nothing below can observe it. *)

Module PyFloat.

Inductive pyfloat : Type :=
| Finite (q : Q)
| Inf (negative : bool)
| NaN.

(** [floor (log2 (n / d))] for [0 < d <= n]; below zero for [0 < n < d]. *)
Definition ilog2_ratio (n d : Z) : Z :=
  let l := Z.log2 n - Z.log2 d in
  if d * 2 ^ l <=? n then l else l - 1.

(** The integer nearest to [n / d], ties to even, for [0 <= n] and [0 < d]. *)
Definition round_half_even (n d : Z) : Z :=
  let m := n / d in
  let r := n mod d in
  if 2 * r <? d then m
  else if 2 * r =? d then (if Z.even m then m else m + 1)
  else m + 1.

(** Every finite binary64 value is a multiple of [2 ^ -1074], the smallest
    subnormal.  In that unit, the binary64 neighbour of a positive [n / d]
    is [m * 2 ^ s], where the shift [s] leaves 53 bits to [m] and is never
    negative. *)
Definition round_pos (n d : Z) : Z * Z :=
  let n' := n * 2 ^ 1074 in
  let s := Z.max (ilog2_ratio n' d - 52) 0 in
  (round_half_even n' (d * 2 ^ s), s).

(** The rational [m * 2 ^ s * 2 ^ -1074], in lowest terms. *)
Definition dyadic (m s : Z) : Q := Qred (m * 2 ^ s # Z.to_pos (2 ^ 1074)).

(** Rounding of an exact result; from [2 ^ 1024] on it becomes an
    infinity. *)
Definition of_Q (q : Q) : pyfloat :=
  let n := Z.abs (Qnum q) in
  if n =? 0 then Finite 0
  else
    let (m, s) := round_pos n (Zpos (Qden q)) in
    if 2 ^ 2098 <=? m * 2 ^ s then Inf (Qnum q <? 0)
    else Finite (dyadic (if Qnum q <? 0 then - m else m) s).

(** [float(n)] for an integer literal of the source. *)
Definition of_Z (n : Z) : pyfloat := of_Q (inject_Z n).

(** [a * b] *)
Definition mul (a b : pyfloat) : pyfloat :=
  match a, b with
  | NaN, _ | _, NaN => NaN
  | Inf s, Inf t => Inf (xorb s t)
  | Inf s, Finite q | Finite q, Inf s =>
      if Qnum q =? 0 then NaN else Inf (xorb s (Qnum q <? 0))
  | Finite x, Finite y => of_Q (x * y)
  end.

(** [int(f)]: truncation toward zero; [None] when Python raises
    ([OverflowError] on an infinity, [ValueError] on a NaN). *)
Definition to_int (f : pyfloat) : option Z :=
  match f with
  | Finite q => Some (Z.quot (Qnum q) (Zpos (Qden q)))
  | Inf _ | NaN => None
  end.

(** What [float] makes of a character before it reads the text: an ASCII
    character is kept, any other whitespace becomes a space, any other
    decimal digit becomes its ASCII digit, and anything else a question
    mark, which no number holds. *)
Definition to_ascii (c : char) : char :=
  if (c <? 128)%N then c
  else if Unicode.is_space c then " "%char
  else match Unicode.to_decimal c with
       | Some d => (48 + d)%N
       | None => "?"%char
       end.

Fixpoint float_text (s : str) : str :=
  match s with
  | EmptyString => EmptyString
  | String c r => String (to_ascii c) (float_text r)
  end.

(** The blanks [float] skips at both ends of the text: tab, line feed,
    vertical tab, form feed, carriage return and space. *)
Definition is_blank (c : char) : bool :=
  (Char.between 9%N c 13%N || Char.eqb c 32%N)%bool.

Fixpoint skip_blanks (s : str) : str :=
  match s with
  | EmptyString => EmptyString
  | String c r => if is_blank c then skip_blanks r else s
  end.

Fixpoint drop_blanks (s : str) : str :=
  match s with
  | EmptyString => EmptyString
  | String c r =>
      let r' := drop_blanks r in
      if (is_blank c && PyStr.is_empty r')%bool then EmptyString else String c r'
  end.

(** The letters of [float] count in either case, and they are ASCII. *)
Definition ascii_lower_char (c : char) : char :=
  if Char.between 65%N c 90%N then (c + 32)%N else c.

Fixpoint ascii_lower (s : str) : str :=
  match s with
  | EmptyString => EmptyString
  | String c r => String (ascii_lower_char c) (ascii_lower r)
  end.

Definition is_digit (c : char) : bool := Char.between 48%N c 57%N.

Definition digit_val (c : char) : Z := Z.of_N c - 48.

(** The rest of a [digitpart]: digits, with single underscores allowed
    between two digits.  Returns the value and the number of digits. *)
Fixpoint digitpart_rest (s : str) (acc : Z) (cnt : nat) (after_us : bool)
  : option (Z * nat) :=
  match s with
  | EmptyString => if after_us then None else Some (acc, cnt)
  | String c r =>
      if is_digit c then digitpart_rest r (10 * acc + digit_val c) (S cnt) false
      else if (Char.eqb c "_" && negb after_us)%bool then digitpart_rest r acc cnt true
      else None
  end.

(** [digitpart ::= digit (["_"] digit)*] *)
Definition digitpart (s : str) : option (Z * nat) :=
  match s with
  | EmptyString => None
  | String c r => if is_digit c then digitpart_rest r (digit_val c) 1 false else None
  end.

(** A [digitpart] that may be missing. *)
Definition opt_digitpart (s : str) : option (Z * nat) :=
  match s with
  | EmptyString => Some (0, O)
  | _ => digitpart s
  end.

(** [number ::= [digitpart] "." digitpart | digitpart ["."]]: the digits
    as one integer, and how many of them follow the point. *)
Definition number (s : str) : option (Z * nat) :=
  match PyStr.split "." s with
  | [ip] => match digitpart ip with Some (i, _) => Some (i, O) | None => None end
  | [ip; fp] =>
      if (PyStr.is_empty ip && PyStr.is_empty fp)%bool then None
      else
        match opt_digitpart ip, opt_digitpart fp with
        | Some (i, _), Some (f, k) => Some (i * 10 ^ Z.of_nat k + f, k)
        | _, _ => None
        end
  | _ => None
  end.

(** An optional sign in front of [s]. *)
Definition signed (s : str) : bool * str :=
  match s with
  | String c r =>
      if Char.eqb c "+" then (false, r)
      else if Char.eqb c "-" then (true, r)
      else (false, s)
  | EmptyString => (false, s)
  end.

(** [exponent ::= ("e" | "E") [sign] digitpart], without its letter. *)
Definition exponent (s : str) : option Z :=
  let (neg, body) := signed s in
  match digitpart body with
  | Some (v, _) => Some (if neg then - v else v)
  | None => None
  end.

(** The value of [digits * 10 ^ e10], rounded. *)
Definition of_decimal (neg : bool) (digits e10 : Z) : pyfloat :=
  let n := if neg then - digits else digits in
  if 0 <=? e10 then of_Q (inject_Z (n * 10 ^ e10))
  else of_Q (n # Z.to_pos (10 ^ (- e10))).

(** [floatnumber ::= number [exponent]] on a lower-cased text. *)
Definition floatnumber (neg : bool) (s : str) : option pyfloat :=
  match PyStr.split "e" s with
  | [ms] =>
      match number ms with
      | Some (n, k) => Some (of_decimal neg n (- Z.of_nat k))
      | None => None
      end
  | [ms; es] =>
      match number ms, exponent es with
      | Some (n, k), Some e => Some (of_decimal neg n (e - Z.of_nat k))
      | _, _ => None
      end
  | _ => None
  end.

(** The text that [float] reads: made ASCII, without the blanks at its
    ends, letters in lower case. *)
Definition ascii_text (s : str) : str :=
  ascii_lower (drop_blanks (skip_blanks (float_text s))).

(** The value of such a text: an infinity, a NaN or a [floatnumber], after
    an optional sign. *)
Definition of_ascii_text (text : str) : option pyfloat :=
  let (neg, body) := signed text in
  if (Str.eqb body "inf" || Str.eqb body "infinity")%bool then Some (Inf neg)
  else if Str.eqb body "nan" then Some NaN
  else floatnumber neg body.

(** [float(s)]; [None] when Python raises [ValueError]. *)
Definition of_string (s : str) : option pyfloat := of_ascii_text (ascii_text s).

End PyFloat.
(** ** The byte-size parser *)

(** One branch of [_parse_transfer]:
    [int(float(value_str.replace(marker, '').strip()) * k1 * ... * kn)],
    the products taken from left to right; [None] when anything raises. *)
Definition scaled (value_str marker : str) (factors : list Z) : option Z :=
  match PyFloat.of_string (PyStr.strip (PyStr.remove marker value_str)) with
  | Some f =>
      PyFloat.to_int (fold_left (fun acc k => PyFloat.mul acc (PyFloat.of_Z k)) factors f)
  | None => None
  end.

(** [_parse_transfer]: the bare [except] turns every failure into 0. *)
Definition _parse_transfer (value_str : str) : Z :=
  let value_str := PyStr.lower value_str in
  let result :=
    if PyStr.contains "kib" value_str then scaled value_str "kib" [1024]
    else if PyStr.contains "mib" value_str then scaled value_str "mib" [1024; 1024]
    else if PyStr.contains "gib" value_str then scaled value_str "gib" [1024; 1024; 1024]
    else if PyStr.contains "kb" value_str then scaled value_str "kb" [1000]
    else if PyStr.contains "mb" value_str then scaled value_str "mb" [1000; 1000]
    else if PyStr.contains "gb" value_str then scaled value_str "gb" [1000; 1000; 1000]
    else match PyFloat.of_string value_str with
         | Some f => PyFloat.to_int f
         | None => None
         end in
  match result with
  | Some n => n
  | None => 0
  end.

(** ** The outside world *)

(** What [subprocess.run] can do: complete with an exit status and the two
    captured streams, run into the timeout, or raise something else. *)
Inductive ProcResult : Type :=
| Completed (returncode : Z) (stdout stderr : str)
| TimeoutExpired
| Raised (msg : str).

(** What [Path.exists] can do. *)
Inductive ExistsResult : Type :=
| ExistsOk (b : bool)
| ExistsPermissionError
| ExistsError (msg : str).

(** What [Path.read_text] can do. *)
Inductive ReadResult : Type :=
| ReadOk (content : str)
| ReadPermissionError
| ReadFileNotFound
| ReadError (msg : str).

(** The collaborators of the manager.  Spawning a process may change the
    world (an interface comes up or goes down); the file-system and
    search-path queries only observe it. *)
Class Platform (World : Type) : Type := {
  subprocess_run : list str -> Z -> World -> ProcResult * World;
  path_exists : str -> World -> ExistsResult;
  path_read_text : str -> World -> ReadResult;
  shutil_which : str -> World -> bool
}.

(** One entry of the interaction log. *)
Inductive Event : Type :=
| EvRun (argv : list str) (timeout : Z) (outcome : bool * str)
| EvSleep
| EvExists (path : str)
| EvReadText (path : str)
| EvWhich (cmd : str)
| EvAccess (path : str).

Definition is_run (e : Event) : bool :=
  match e with EvRun _ _ _ => true | _ => false end.

(** The commands spawned, in order, each with the elevation prefix. *)
Fixpoint runs (l : list Event) : list (list str) :=
  match l with
  | [] => []
  | EvRun argv _ _ :: r => argv :: runs r
  | _ :: r => runs r
  end.

(** The outcome of the last command spawned. *)
Fixpoint last_outcome (l : list Event) : option (bool * str) :=
  match l with
  | [] => None
  | EvRun _ _ o :: r =>
      match last_outcome r with Some o' => Some o' | None => Some o end
  | _ :: r => last_outcome r
  end.

(** ** Data model *)

Inductive ProfileStatus : Type := ACTIVE | INACTIVE | ERROR | UNKNOWN.

Definition ProfileStatus_eqb (a b : ProfileStatus) : bool :=
  match a, b with
  | ACTIVE, ACTIVE | INACTIVE, INACTIVE | ERROR, ERROR | UNKNOWN, UNKNOWN => true
  | _, _ => false
  end.

Record ProfileInfo : Type := mkProfileInfo {
  name : str;
  status : ProfileStatus;
  config_path : str;
  interface_name : str;
  public_key : str;
  endpoint : str;
  transfer_rx : Z;
  transfer_tx : Z;
  last_handshake : str
}.

(** [ProfileInfo(name=..., status=..., config_path=...)]: the other fields
    take their defaults. *)
Definition new_ProfileInfo (n : str) (s : ProfileStatus) (p : str) : ProfileInfo :=
  mkProfileInfo n s p "" "" "" 0 0 "".

Definition set_transfer_rx (v : Z) (i : ProfileInfo) : ProfileInfo :=
  mkProfileInfo (name i) (status i) (config_path i) (interface_name i)
    (public_key i) (endpoint i) v (transfer_tx i) (last_handshake i).

Definition set_transfer_tx (v : Z) (i : ProfileInfo) : ProfileInfo :=
  mkProfileInfo (name i) (status i) (config_path i) (interface_name i)
    (public_key i) (endpoint i) (transfer_rx i) v (last_handshake i).

(** A Python [dict] with str keys: assignment to an existing key keeps
    its position, a new key goes to the end. *)
Fixpoint dict_set {V : Type} (k : str) (v : V) (d : list (str * V)) : list (str * V) :=
  match d with
  | [] => [(k, v)]
  | (k', v') :: r => if Str.eqb k k' then (k, v) :: r else (k', v') :: dict_set k v r
  end.

Fixpoint dict_get {V : Type} (k : str) (d : list (str * V)) : option V :=
  match d with
  | [] => None
  | (k', v') :: r => if Str.eqb k k' then Some v' else dict_get k r
  end.

(** The attributes of a [WireGuardManager] instance. *)
Record Manager : Type := mkManager {
  _active_profile : option str;
  _profiles_cache : list (str * ProfileInfo);
  config_dir : str;
  profiles : list str;
  timeout_wg_quick : Z;
  timeout_wg_show : Z;
  max_retries : Z
}.

Definition default_profiles : list str := ["App"; "bomBox"; "usa"].

(** [WireGuardManager.__init__]: [configured] is the [profiles] list of the
    configuration file when the file exists, parses and holds one; an empty
    or missing list falls back to the defaults. *)
Definition new_manager (configured : option (list str)) : Manager :=
  let loaded := match configured with Some l => l | None => [] end in
  mkManager None [] "/etc/wireguard"
    (match loaded with [] => default_profiles | _ => loaded end)
    60 30 3.

Definition with_active (a : option str) (m : Manager) : Manager :=
  mkManager a (_profiles_cache m) (config_dir m) (profiles m)
    (timeout_wg_quick m) (timeout_wg_show m) (max_retries m).

Definition with_cache (c : list (str * ProfileInfo)) (m : Manager) : Manager :=
  mkManager (_active_profile m) c (config_dir m) (profiles m)
    (timeout_wg_quick m) (timeout_wg_show m) (max_retries m).

(** [dir / name]: an absolute right operand replaces the left one. *)
Definition path_join (dir file : str) : str :=
  match file with
  | String "/" _ => file
  | _ => dir ++ "/" ++ file
  end.

(** ** Messages of the source *)

Module Msg.
Definition timeout_marker : str := "Таймаут".
Definition timeout (t : Z) : str := "Таймаут (" ++ PyStr.of_Z t ++ " секунд)".
Definition not_exists (p : str) : str := "Профиль " ++ p ++ " не существует".
Definition invalid (p msg : str) : str := "Профиль " ++ p ++ " невалиден: " ++ msg.
Definition already_active (p : str) : str := "Профиль " ++ p ++ " уже активен".
Definition no_interface_section : str := "Отсутствует секция [Interface]".
Definition standard_profile : str := "Стандартный профиль, проверка не требуется".
Definition assumed_valid : str := "Проверка прав доступа не удалась, предполагаем валидность".
Definition read_error (e : str) : str := "Ошибка чтения файла: " ++ e.
Definition off_errors (e : str) : str := "Ошибки при отключении: " ++ e.
Definition all_off : str := "Все профили отключены".
Definition cmd_not_found (c : str) : str := "Команда " ++ c ++ " не найдена".
Definition no_config_dir (d : str) : str := "Директория конфигураций не существует: " ++ d.
Definition no_profile : str := "Не найден ни один профиль WireGuard".
Definition system_ready : str := "Система готова".
Definition status_error (o : str) : str := "Ошибка получения статуса: " ++ o.
End Msg.

(** ** The manager as a state transformer *)

(** The manager instance and the world it acts on. *)
Record Sys (World : Type) : Type := mkSys {
  mgr : Manager;
  world : World
}.

Arguments mkSys {World} _ _.
Arguments mgr {World} _.
Arguments world {World} _.

(** Computations of the manager: state passing over [Sys], together with
    the interactions the computation had with the world, in order. *)
Definition M (World A : Type) : Type := Sys World -> A * Sys World * list Event.

Definition ret {World A : Type} (a : A) : M World A := fun s => (a, s, []).

Definition bind {World A B : Type} (m : M World A) (f : A -> M World B) : M World B :=
  fun s =>
    let '(a, s1, l1) := m s in
    let '(b, s2, l2) := f a s1 in
    (b, s2, (l1 ++ l2)%list).

Declare Scope wg_scope.
Delimit Scope wg_scope with wg.
Notation "x <- m ;; k" := (bind m (fun x => k))
  (at level 61, m at next level, right associativity) : wg_scope.
Notation "' pat <- m ;; k" := (bind m (fun x => match x with pat => k end))
  (at level 61, pat pattern, m at next level, right associativity) : wg_scope.
Notation "m ;; k" := (bind m (fun _ => k))
  (at level 61, right associativity) : wg_scope.
Local Open Scope wg_scope.

Definition self {World : Type} : M World Manager := fun s => (mgr s, s, []).

Definition ask {World A : Type} (f : World -> A) : M World A :=
  fun s => (f (world s), s, []).

Definition log {World : Type} (e : Event) : M World unit :=
  fun s => (tt, s, [e]).

Definition set_active_profile {World : Type} (a : option str) : M World unit :=
  fun s => (tt, mkSys (with_active a (mgr s)) (world s), []).

Definition set_profiles_cache {World : Type} (c : list (str * ProfileInfo)) : M World unit :=
  fun s => (tt, mkSys (with_cache c (mgr s)) (world s), []).

(** The result, the final state and the interactions of a run. *)
Definition result_of {World A : Type} (r : A * Sys World * list Event) : A := fst (fst r).
Definition state_of {World A : Type} (r : A * Sys World * list Event) : Sys World := snd (fst r).
Definition trace_of {World A : Type} (r : A * Sys World * list Event) : list Event := snd r.

(** ** The methods of [WireGuardManager] *)

Section Core.

Context {World : Type} {platform : Platform World}.

(** What [_run_command] returns for each behaviour of [subprocess.run]. *)
Definition run_outcome (timeout : Z) (r : ProcResult) : bool * str :=
  match r with
  | Completed rc out err => if rc =? 0 then (true, out) else (false, err)
  | TimeoutExpired => (false, Msg.timeout timeout)
  | Raised msg => (false, msg)
  end.

(** [_run_command]: the command goes through [pkexec]. *)
Definition _run_command (command : list str) (timeout : Z) : M World (bool * str) :=
  fun s =>
    let full_command := "pkexec" :: command in
    let (r, w) := subprocess_run full_command timeout (world s) in
    let o := run_outcome timeout r in
    (o, mkSys (mgr s) w, [EvRun full_command timeout o]).

Definition sleep : M World unit := log EvSleep.

(** The test that ends the retry loop early.  The timeout marker is looked
    for in the output as it is, the three others in its lower-cased form. *)
Definition stops_retrying (output : str) : bool :=
  let output_lower := PyStr.lower output in
  (PyStr.contains Msg.timeout_marker output
   || PyStr.contains "Permission denied" output_lower
   || PyStr.contains "not found" output_lower
   || PyStr.contains "authentication canceled" output_lower)%bool.

(** The [for attempt in range(max_retries)] loop, with [remaining] attempts
    left; [attempt < max_retries - 1] is [remaining] being non-zero after
    this attempt. *)
Fixpoint retry_loop (command : list str) (timeout : Z)
         (remaining : nat) (last_error : str) : M World (bool * str) :=
  match remaining with
  | O => ret (false, last_error)
  | S k =>
      '(success, output) <- _run_command command timeout ;;
      if success then ret (true, output)
      else if stops_retrying output then ret (false, output)
      else (match k with O => ret tt | S _ => sleep end) ;;
           retry_loop command timeout k output
  end.

(** [_run_command_with_retry] *)
Definition _run_command_with_retry (command : list str) (timeout : Z)
           (max_retries_arg : option Z) : M World (bool * str) :=
  m <- self ;;
  let n := match max_retries_arg with Some n => n | None => max_retries m end in
  retry_loop command timeout (Z.to_nat n) "".

(** [check_profile_exists] *)
Definition check_profile_exists (profile_name : str) : M World bool :=
  m <- self ;;
  if PyStr.mem profile_name (profiles m) then ret true
  else
    let config_file := path_join (config_dir m) (profile_name ++ ".conf") in
    log (EvExists config_file) ;;
    r <- ask (path_exists config_file) ;;
    match r with
    | ExistsOk b => ret b
    | ExistsPermissionError => ret false
    | ExistsError _ => ret false
    end.

(** [validate_profile] *)
Definition validate_profile (profile_name : str) : M World (bool * str) :=
  ex <- check_profile_exists profile_name ;;
  if negb ex then ret (false, Msg.not_exists profile_name)
  else
    m <- self ;;
    let config_file := path_join (config_dir m) (profile_name ++ ".conf") in
    log (EvReadText config_file) ;;
    r <- ask (path_read_text config_file) ;;
    match r with
    | ReadOk content =>
        if negb (PyStr.contains "[Interface]" content)
        then ret (false, Msg.no_interface_section)
        else ret (true, "OK")
    | ReadPermissionError | ReadFileNotFound =>
        if PyStr.mem profile_name (profiles m)
        then ret (true, Msg.standard_profile)
        else ret (true, Msg.assumed_valid)
    | ReadError e => ret (false, Msg.read_error e)
    end.

(** The inner loop of [get_active_profile]: the first configured profile
    whose lower-cased name occurs in the lower-cased interface name. *)
Fixpoint match_profile (profs : list str) (interface : str) : option str :=
  match profs with
  | [] => None
  | profile :: rest =>
      if PyStr.contains (PyStr.lower profile) (PyStr.lower interface)
      then Some profile
      else match_profile rest interface
  end.

(** The outer loop of [get_active_profile] over the lines of the output. *)
Fixpoint scan_interfaces (profs : list str) (lines : list str) : option str :=
  match lines with
  | [] => None
  | line :: rest =>
      if PyStr.contains "interface:" (PyStr.lower line) then
        let interface := PyStr.strip (nth 1 (PyStr.split ":" line) "") in
        match match_profile profs interface with
        | Some profile => Some profile
        | None => scan_interfaces profs rest
        end
      else scan_interfaces profs rest
  end.

(** The lines of the output, and the parse of a successful [wg show]. *)
Definition output_lines (output : str) : list str :=
  PyStr.split LF (PyStr.strip output).

Definition parse_active (profs : list str) (output : str) : option str :=
  scan_interfaces profs (output_lines output).

(** [get_active_profile].  A failed query returns [None] and leaves the
    cached hint as it was; a successful one overwrites the hint. *)
Definition get_active_profile : M World (option str) :=
  m <- self ;;
  '(success, output) <- _run_command_with_retry ["wg"; "show"] (timeout_wg_show m) None ;;
  if negb success then ret None
  else
    let found := parse_active (profiles m) output in
    set_active_profile found ;;
    ret found.

Definition option_string_eqb (a : option str) (b : str) : bool :=
  match a with Some x => Str.eqb x b | None => false end.

(** [get_profile_status] *)
Definition get_profile_status (profile_name : str) : M World ProfileStatus :=
  active <- get_active_profile ;;
  if option_string_eqb active profile_name then ret ACTIVE
  else
    ex <- check_profile_exists profile_name ;;
    if negb ex then ret ERROR else ret INACTIVE.

(** [_activate_profile] and [_deactivate_profile] *)
Definition _activate_profile (profile_name : str) : M World (bool * str) :=
  m <- self ;;
  _run_command_with_retry ["wg-quick"; "up"; profile_name] (timeout_wg_quick m) None.

Definition _deactivate_profile (profile_name : str) : M World (bool * str) :=
  m <- self ;;
  _run_command_with_retry ["wg-quick"; "down"; profile_name] (timeout_wg_quick m) None.


(** The body of the [for i, line in enumerate(lines)] loop of
    [get_all_profiles_info]. *)
Definition apply_transfer_line (line : str) (info : ProfileInfo) : ProfileInfo :=
  if PyStr.contains "transfer:" (PyStr.lower line) then
    let parts := PyStr.split "," (PyStr.strip (nth 1 (PyStr.split ":" line) "")) in
    if (2 <=? List.length parts)%nat then
      let rx_part := PyStr.strip (nth 0 parts "") in
      let tx_part := PyStr.strip (nth 1 parts "") in
      let info :=
        if PyStr.contains "received" rx_part then
          let rx_value := nth 0 (PyStr.split_ws rx_part) "" in
          set_transfer_rx (_parse_transfer rx_value) info
        else info in
      if PyStr.contains "sent" tx_part then
        let tx_value := nth 0 (PyStr.split_ws tx_part) "" in
        set_transfer_tx (_parse_transfer tx_value) info
      else info
    else info
  else info.

Definition apply_transfer_lines (output : str) (info : ProfileInfo) : ProfileInfo :=
  fold_left (fun i line => apply_transfer_line line i) (output_lines output) info.

(** One round of the loop over [self.profiles] in [get_all_profiles_info]. *)
Definition profile_info (profile : str) : M World ProfileInfo :=
  m <- self ;;
  status <- get_profile_status profile ;;
  let config_path := path_join (config_dir m) (profile ++ ".conf") in
  let info := new_ProfileInfo profile status config_path in
  if ProfileStatus_eqb status ACTIVE then
    '(success, output) <- _run_command_with_retry ["wg"; "show"] (timeout_wg_show m) None ;;
    if success then ret (apply_transfer_lines output info) else ret info
  else ret info.

Fixpoint collect_infos (profs : list str) (result : list (str * ProfileInfo))
  : M World (list (str * ProfileInfo)) :=
  match profs with
  | [] => ret result
  | profile :: rest =>
      info <- profile_info profile ;;
      collect_infos rest (dict_set profile info result)
  end.

(** [get_all_profiles_info] *)
Definition get_all_profiles_info : M World (list (str * ProfileInfo)) :=
  m <- self ;;
  result <- collect_infos (profiles m) [] ;;
  set_profiles_cache result ;;
  ret result.

(** The first loop of [turn_off_all]: every profile of the list is
    attempted, and its outcome recorded, whatever the outcomes before it. *)
Fixpoint deactivate_each (profs : list str) : M World (list (str * bool * str)) :=
  match profs with
  | [] => ret []
  | profile :: rest =>
      '(success, message) <- _deactivate_profile profile ;;
      operations <- deactivate_each rest ;;
      ret ((profile, success, message) :: operations)
  end.

Definition failed_of (operations : list (str * bool * str)) : list (str * bool * str) :=
  filter (fun op => negb (snd (fst op))) operations.

Definition describe (op : str * bool * str) : str :=
  fst (fst op) ++ ": " ++ snd op.

(** [turn_off_all]: the list it walks is the literal of the source. *)
Definition turn_off_all : M World (bool * str) :=
  operations <- deactivate_each ["App"; "bomBox"; "usa"] ;;
  let failed := failed_of operations in
  match failed with
  | _ :: _ => ret (false, Msg.off_errors (PyStr.join ", " (map describe failed)))
  | [] =>
      set_active_profile None ;;
      ret (true, Msg.all_off)
  end.

(** The loop of [activate_profile] that decides what to bring down. *)
Fixpoint active_others (profile_name : str) (profs : list str) : M World (list str) :=
  match profs with
  | [] => ret []
  | profile :: rest =>
      if negb (Str.eqb profile profile_name) then
        current <- get_profile_status profile ;;
        others <- active_others profile_name rest ;;
        ret (if ProfileStatus_eqb current ACTIVE then profile :: others else others)
      else active_others profile_name rest
  end.

(** The loop of [activate_profile] that brings them down; a failure is
    logged and otherwise ignored. *)
Fixpoint deactivate_others (profs : list str) : M World unit :=
  match profs with
  | [] => ret tt
  | profile :: rest => _deactivate_profile profile ;; deactivate_others rest
  end.

(** [activate_profile] *)
Definition activate_profile (profile_name : str) : M World (bool * str) :=
  ex <- check_profile_exists profile_name ;;
  if negb ex then ret (false, Msg.not_exists profile_name)
  else
    '(valid, msg) <- validate_profile profile_name ;;
    if negb valid then ret (false, Msg.invalid profile_name msg)
    else
      current_status <- get_profile_status profile_name ;;
      if ProfileStatus_eqb current_status ACTIVE
      then ret (true, Msg.already_active profile_name)
      else
        m <- self ;;
        profiles_to_deactivate <- active_others profile_name (profiles m) ;;
        deactivate_others profiles_to_deactivate ;;
        '(success, message) <- _activate_profile profile_name ;;
        (if success then set_active_profile (Some profile_name) else ret tt) ;;
        ret (success, message).

(** [get_wg_show_output] *)
Definition get_wg_show_output : M World str :=
  m <- self ;;
  '(success, output) <- _run_command_with_retry ["wg"; "show"] (timeout_wg_show m) None ;;
  if success then ret (PyStr.strip output) else ret (Msg.status_error output).

(** The first loop of [check_system_ready]. *)
Fixpoint missing_commands (cmds : list str) : M World (list str) :=
  match cmds with
  | [] => ret []
  | cmd :: rest =>
      log (EvWhich cmd) ;;
      found <- ask (shutil_which cmd) ;;
      others <- missing_commands rest ;;
      ret (if found then others else Msg.cmd_not_found cmd :: others)
  end.

(** The check of the configuration directory; the outer [None] is an
    exception of [Path.exists], which [check_system_ready] does not catch. *)
Definition config_dir_checks : M World (option (list str)) :=
  m <- self ;;
  log (EvExists (config_dir m)) ;;
  r <- ask (path_exists (config_dir m)) ;;
  match r with
  | ExistsOk false => ret (Some [Msg.no_config_dir (config_dir m)])
  | ExistsOk true =>
      (* [os.access]: its answer only chooses what is logged *)
      log (EvAccess (config_dir m)) ;;
      ret (Some [])
  | ExistsPermissionError | ExistsError _ => ret None
  end.

(** [any(self.check_profile_exists(p) for p in self.profiles)]: the
    generator is consumed up to the first true value. *)
Fixpoint any_profile_exists (profs : list str) : M World bool :=
  match profs with
  | [] => ret false
  | p :: rest =>
      ex <- check_profile_exists p ;;
      if ex then ret true else any_profile_exists rest
  end.

(** The list [checks] of [check_system_ready] when it reaches its final
    test. *)
Definition system_checks : M World (option (list str)) :=
  m <- self ;;
  missing <- missing_commands ["wg"; "wg-quick"; "pkexec"] ;;
  dir <- config_dir_checks ;;
  match dir with
  | None => ret None
  | Some dir_checks =>
      profiles_exist <- any_profile_exists (profiles m) ;;
      ret (Some (missing ++ dir_checks
                   ++ (if negb profiles_exist then [Msg.no_profile] else []))%list)
  end.

(** [check_system_ready] *)
Definition check_system_ready : M World (option (bool * str)) :=
  checks <- system_checks ;;
  match checks with
  | None => ret None
  | Some [] => ret (Some (true, Msg.system_ready))
  | Some l => ret (Some (false, PyStr.join "; " l))
  end.

(** [refresh_cache] *)
Definition refresh_cache : M World unit :=
  c <- get_all_profiles_info ;;
  set_profiles_cache c.

End Core.

(** ** The wording of the specification

    Definitions that follow the sentences of the specification rather than
    the source, for comparison with the source. *)

Module Spec.

(** "a line containing an interface marker (case-insensitive)" *)
Definition has_interface_marker (line : str) : bool :=
  PyStr.contains "interface:" (PyStr.lower line).

(** What stands before the next colon, or the whole remainder. *)
Fixpoint upto_colon (s : str) : str :=
  match s with
  | EmptyString => EmptyString
  | String c r => if Char.eqb c ":" then EmptyString else String c (upto_colon r)
  end.

(** "the token after the first colon": what follows that colon, as far as
    the next colon or the end of the line. *)
Fixpoint after_first_colon (s : str) : str :=
  match s with
  | EmptyString => EmptyString
  | String c r => if Char.eqb c ":" then upto_colon r else after_first_colon r
  end.

(** "trims whitespace": the whitespace in front is dropped, and what is
    left is cut where nothing but whitespace follows. *)
Fixpoint all_space (s : str) : bool :=
  match s with
  | EmptyString => true
  | String c r => (Unicode.is_space c && all_space r)%bool
  end.

Fixpoint drop_space (s : str) : str :=
  match s with
  | EmptyString => EmptyString
  | String c r => if Unicode.is_space c then drop_space r else s
  end.

Fixpoint cut_space (s : str) : str :=
  match s with
  | EmptyString => EmptyString
  | String c r => if all_space s then EmptyString else String c (cut_space r)
  end.

Definition trim (s : str) : str := cut_space (drop_space s).

(** "extracts the token after the first colon, trims whitespace" *)
Definition interface_token (line : str) : str :=
  trim (after_first_colon line).

(** "the first configured profile name whose lowercase form is a
    substring of the lowercased interface token" *)
Definition first_matching (profs : list str) (token : str) : option str :=
  find (fun p => PyStr.contains (PyStr.lower p) (PyStr.lower token)) profs.

Definition candidates (profs : list str) (line : str) : list str :=
  match first_matching profs (interface_token line) with
  | Some p => [p]
  | None => []
  end.

(** "Scans the raw output line by line ... No match across all lines:
    none." *)
Definition derive_active (profs : list str) (output : str) : option str :=
  hd_error (flat_map (candidates profs)
              (filter has_interface_marker (PyStr.split LF output))).

End Spec.

(** ** Vocabulary of the statements *)

(** A str of whitespace only. *)
Fixpoint blank (s : str) : bool :=
  match s with
  | EmptyString => true
  | String c r => (PyStr.is_space c && blank r)%bool
  end.

(** The letters that start a unit marker of [_parse_transfer]. *)
Definition is_unit_letter (c : char) : bool :=
  (Char.eqb c "k" || Char.eqb c "m" || Char.eqb c "g")%bool.

(** A str without such a letter. *)
Fixpoint unitless (s : str) : bool :=
  match s with
  | EmptyString => true
  | String c r => (negb (is_unit_letter c) && unitless r)%bool
  end.

(** A str that does not start with whitespace. *)
Definition trimmed_left (s : str) : bool :=
  match s with
  | EmptyString => true
  | String c _ => negb (PyStr.is_space c)
  end.

(** A str without whitespace. *)
Fixpoint spaceless (s : str) : bool :=
  match s with
  | EmptyString => true
  | String c r => (negb (PyStr.is_space c) && spaceless r)%bool
  end.

(** [pre] put in front of the first line of a list of lines. *)
Definition prepend (pre : str) (lines : list str) : list str :=
  match lines with
  | [] => []
  | h :: t => (pre ++ h) :: t
  end.

(** A pattern that starts with a unit letter. *)
Definition starts_with_unit_letter (pat : str) : bool :=
  match pat with
  | EmptyString => false
  | String c _ => is_unit_letter c
  end.

(** The units of the byte-size parser, lower-cased, each with the factors
    the number is multiplied by, in order. *)
Definition unit_table : list (str * list Z) :=
  [("kib", [1024]); ("mib", [1024; 1024]); ("gib", [1024; 1024; 1024]);
   ("kb", [1000]); ("mb", [1000; 1000]); ("gb", [1000; 1000; 1000])].

(** The double-precision product [f * k1 * ... * kn], from left to right. *)
Definition times (f : PyFloat.pyfloat) (factors : list Z) : PyFloat.pyfloat :=
  fold_left (fun acc k => PyFloat.mul acc (PyFloat.of_Z k)) factors f.

(** [int(f)], and 0 where it raises. *)
Definition int_or_zero (f : PyFloat.pyfloat) : Z :=
  match PyFloat.to_int f with
  | Some n => n
  | None => 0
  end.

(** No unit marker occurs in [s]. *)
Definition no_unit_marker (s : str) : bool :=
  forallb (fun entry => negb (PyStr.contains (fst entry) s)) unit_table.

(** The finite binary64 values: a significand below [2 ^ 53] at a
    non-negative shift, in units of [2 ^ -1074]. *)
Definition binary64 (q : Q) : Prop :=
  exists m s,
    0 <= s /\ Z.abs m < 2 ^ 53 /\ Z.abs m * 2 ^ s < 2 ^ 2098 /\ q = PyFloat.dyadic m s.

(** Truncation of a rational toward zero. *)
Definition Qtrunc (q : Q) : Z := Z.quot (Qnum q) (Zpos (Qden q)).

(** What [int] makes of an exact product: beyond the binary64 range the
    product is an infinity, [int] raises, and the parser answers 0. *)
Definition within_range (n : Z) : Z := if 2 ^ 1024 <=? Z.abs n then 0 else n.

(** The interactions of a retry loop: spawns of the one command, and sleeps. *)
Definition retry_event (command : list str) (timeout : Z) (e : Event) : Prop :=
  e = EvSleep \/ exists o, e = EvRun ("pkexec" :: command) timeout o.

(** Every spawn recorded in [l] failed. *)
Definition all_failed (l : list Event) : Prop :=
  Forall (fun e => forall argv t o, e = EvRun argv t o -> fst o = false) l.

(** An output that carries one of the markers the loop recognises. *)
Definition has_stop_marker (output : str) : Prop :=
  PyStr.contains Msg.timeout_marker output = true
  \/ PyStr.contains "not found" (PyStr.lower output) = true
  \/ PyStr.contains "authentication canceled" (PyStr.lower output) = true.

(** ** A scripted world

    A world in the manner of the mocks of tests/test_core.py: the processes
    answer from a script, one entry per spawn, and from [otherwise] once the
    script is used up; the file system is a table from the paths that exist
    to what reading them gives. *)

Record Scripted : Type := mkScripted {
  script : list ProcResult;
  otherwise : ProcResult;
  files : list (str * ReadResult);
  search_path : list str
}.

#[export] Instance Scripted_platform : Platform Scripted := {
  subprocess_run _ _ w :=
    match script w with
    | r :: rest => (r, mkScripted rest (otherwise w) (files w) (search_path w))
    | [] => (otherwise w, w)
    end;
  path_exists p w :=
    ExistsOk (match dict_get p (files w) with Some _ => true | None => false end);
  path_read_text p w :=
    match dict_get p (files w) with Some r => r | None => ReadFileNotFound end;
  shutil_which c w := PyStr.mem c (search_path w)
}.

(** A process that exits with status 0 and prints [out]. *)
Definition succeeds (out : str) : ProcResult := Completed 0 out "".

(** A process that exits with status 1 and complains with [err]. *)
Definition fails (err : str) : ProcResult := Completed 1 "" err.

(** A fresh manager with the given configured profiles in a scripted world
    without files. *)
Definition scripted_sys (configured : option (list str))
           (answers : list ProcResult) (later : ProcResult) : Sys Scripted :=
  mkSys (new_manager configured) (mkScripted answers later [] []).

Definition with_files (fs : list (str * ReadResult)) (s : Sys Scripted) : Sys Scripted :=
  mkSys (mgr s)
    (mkScripted (script (world s)) (otherwise (world s)) fs (search_path (world s))).

Definition newline : str := String LF EmptyString.

(** ** Scenarios *)

(** The script of the retry test: two failures, then a success. *)
Definition flaky : Sys Scripted :=
  scripted_sys None [fails "e1"; fails "e2"; succeeds "out"] (succeeds "").

(** A tool that always reports a missing executable. *)
Definition missing_tool : Sys Scripted :=
  scripted_sys None [] (fails "pkexec: wg: command not found").

(** A world whose status query reports the interface [wg-bombox]. *)
Definition bombox_up : Sys Scripted :=
  scripted_sys None [] (succeeds ("interface: wg-bombox" ++ newline ++ "  public key: xxx")).

(** The default profiles, [App] up, and a configuration file for [App]
    that holds [content]. *)
Definition app_up (content : str) : Sys Scripted :=
  with_files [("/etc/wireguard/App.conf", ReadOk content)]
    (scripted_sys None [] (succeeds ("interface: App" ++ newline ++ "  public key: xxx"))).

(** A world whose status tool cannot be run at all. *)
Definition wg_missing : Sys Scripted :=
  scripted_sys None [] (fails "pkexec: wg: command not found").

(** A manager configured with the single profile [office], in a world where
    every command succeeds. *)
Definition office_only : Sys Scripted :=
  scripted_sys (Some ["office"]) [] (succeeds "").

(** The status dump of one active interface, after the example in the
    comment of [get_all_profiles_info]. *)
Definition wg_show_app : str :=
  "interface: App" ++ newline
  ++ "  public key: xxx" ++ newline
  ++ "  transfer: 1.23 MiB received, 456.78 KiB sent".

(** The two counters of profile [p] in the result of [get_all_profiles_info]. *)
Definition counters_of (p : str) (infos : list (str * ProfileInfo)) : option (Z * Z) :=
  match dict_get p infos with
  | Some i => Some (transfer_rx i, transfer_tx i)
  | None => None
  end.

(** ** Further vocabulary *)

(** The interactions of a call that made at least one attempt: a spawn,
    then a sleep and a spawn for every further attempt, and nothing after the
    last spawn. *)
Fixpoint attempts_shape (l : list Event) : bool :=
  match l with
  | [EvRun _ _ _] => true
  | EvRun _ _ _ :: EvSleep :: r => attempts_shape r
  | _ => false
  end.

(** Every spawn recorded in [l] failed with an output that does not end the
    retry loop. *)
Definition all_retryable (l : list Event) : Prop :=
  Forall (fun e => forall argv t o,
              e = EvRun argv t o -> fst o = false /\ stops_retrying (snd o) = false) l.

(** The three command lines the manager builds, with their elevation
    prefix. *)
Definition wg_show_cmd : list str := ["pkexec"; "wg"; "show"].
Definition down_cmd (p : str) : list str := ["pkexec"; "wg-quick"; "down"; p].
Definition up_cmd (p : str) : list str := ["pkexec"; "wg-quick"; "up"; p].

(** Two managers with the same configuration: they may differ in the cached
    hint and in the cached profile information only. *)
Definition same_config (m m' : Manager) : Prop :=
  profiles m = profiles m'
  /\ config_dir m = config_dir m'
  /\ timeout_wg_quick m = timeout_wg_quick m'
  /\ timeout_wg_show m = timeout_wg_show m'
  /\ max_retries m = max_retries m'.

(** A computation that, started from a manager configured like [c], keeps
    that configuration, spawns only commands in [Q], and returns a result in
    [R]. *)
Definition triple {World A : Type} (c : Manager) (Q : list str -> Prop)
           (m : M World A) (R : A -> Prop) : Prop :=
  forall s, same_config c (mgr s) ->
            same_config c (mgr (state_of (m s)))
            /\ Forall Q (runs (trace_of (m s)))
            /\ R (result_of (m s)).

(** What [activate_profile] may spawn before it brings the target up: the
    status query, and the bringing down of a configured profile other than
    the target. *)
Definition prelude_cmd (c : Manager) (target : str) (argv : list str) : Prop :=
  argv = wg_show_cmd
  \/ exists p, In p (profiles c) /\ p <> target /\ argv = down_cmd p.

(** A list of commands in two phases: first commands in [Q], then commands
    in [Q']. *)
Definition phased (Q Q' : list str -> Prop) (l : list (list str)) : Prop :=
  exists pre post, l = (pre ++ post)%list /\ Forall Q pre /\ Forall Q' post.

(** A run that spawns the status query only and keeps the configuration. *)
Definition only_queries {World A : Type} (s : Sys World)
           (r : A * Sys World * list Event) : Prop :=
  Forall (eq wg_show_cmd) (runs (trace_of r))
  /\ same_config (mgr s) (mgr (state_of r)).

(** A computation that spawns nothing and leaves manager and world as they
    were. *)
Definition observer {World A : Type} (m : M World A) : Prop :=
  forall s, state_of (m s) = s /\ runs (trace_of (m s)) = [].

(** What [get_all_profiles_info] may record under the key [p]. *)
Definition entry_of (c : Manager) (p : str) (info : ProfileInfo) : Prop :=
  name info = p
  /\ config_path info = path_join (config_dir c) (p ++ ".conf")
  /\ (status info = ACTIVE \/ status info = INACTIVE)
  /\ (status info = INACTIVE -> transfer_rx info = 0 /\ transfer_tx info = 0)
  /\ interface_name info = "" /\ public_key info = ""
  /\ endpoint info = "" /\ last_handshake info = "".

(** The problems [check_system_ready] reports when the configured list is
    not empty and the configuration directory can be examined. *)
Definition problems {World : Type} {platform : Platform World}
           (dir : str) (dir_exists : bool) (w : World) : list str :=
  (map Msg.cmd_not_found
       (filter (fun cmd => negb (shutil_which cmd w)) ["wg"; "wg-quick"; "pkexec"])
   ++ (if dir_exists then [] else [Msg.no_config_dir dir]))%list.

(** The last command spawned, with its timeout and its outcome. *)
Fixpoint last_run (l : list Event) : option Event :=
  match l with
  | [] => None
  | e :: r =>
      match last_run r with
      | Some e' => Some e'
      | None => if is_run e then Some e else None
      end
  end.

(** Two states that differ at most in the cached hint and in the cache of
    profile information. *)
Definition same_view {World : Type} (s s' : Sys World) : Prop :=
  same_config (mgr s) (mgr s') /\ world s = world s'.

(** Two runs with the same result and the same interactions, which end in
    states that again differ at most in the hint and the cache. *)
Definition agree {World A : Type} (r r' : A * Sys World * list Event) : Prop :=
  result_of r = result_of r' /\ trace_of r = trace_of r'
  /\ same_view (state_of r) (state_of r').

(** Computations that cannot tell such states apart. *)
Definition blind {World A : Type} (m m' : M World A) : Prop :=
  forall s s', same_view s s' -> agree (m s) (m' s').

(** A world on which the status query has no effect and which answers it
    with [r], at the timeout of the configuration [c]. *)
Definition quiet {World : Type} {platform : Platform World}
           (c : Manager) (r : ProcResult) (w : World) : Prop :=
  subprocess_run wg_show_cmd (timeout_wg_show c) w = (r, w).

(** The profile that the answer [r] to the status query makes active. *)
Definition seen_active (c : Manager) (r : ProcResult) : option str :=
  match r with
  | Completed rc out _ => if rc =? 0 then parse_active (profiles c) out else None
  | TimeoutExpired | Raised _ => None
  end.

(** Computations that keep the configuration [c] and the world [w], and
    whose result satisfies [R]. *)
Definition steady {World A : Type} (c : Manager) (w : World)
           (m : M World A) (R : A -> Prop) : Prop :=
  forall s, same_config c (mgr s) -> world s = w ->
            same_config c (mgr (state_of (m s)))
            /\ world (state_of (m s)) = w
            /\ R (result_of (m s)).

(** Consecutive members of a list are at least [delay] apart. *)
Fixpoint spaced (delay : Z) (l : list Z) : Prop :=
  match l with
  | x :: ((y :: _) as r) => delay <= y - x /\ spaced delay r
  | _ => True
  end.

(** [':' not in s] *)
Fixpoint colonless (s : str) : bool :=
  match s with
  | EmptyString => true
  | String c r => (negb (Char.eqb c ":") && colonless r)%bool
  end.

(** A text of decimal digits only. *)
Fixpoint all_digits (s : str) : bool :=
  match s with
  | EmptyString => true
  | String c r => (PyFloat.is_digit c && all_digits r)%bool
  end.

(** The number a sequence of decimal digits denotes after the digits that
    gave [acc]. *)
Fixpoint uint_value (d : Decimal.uint) (acc : Z) : Z :=
  match d with
  | Decimal.Nil => acc
  | Decimal.D0 l => uint_value l (10 * acc + 0)
  | Decimal.D1 l => uint_value l (10 * acc + 1)
  | Decimal.D2 l => uint_value l (10 * acc + 2)
  | Decimal.D3 l => uint_value l (10 * acc + 3)
  | Decimal.D4 l => uint_value l (10 * acc + 4)
  | Decimal.D5 l => uint_value l (10 * acc + 5)
  | Decimal.D6 l => uint_value l (10 * acc + 6)
  | Decimal.D7 l => uint_value l (10 * acc + 7)
  | Decimal.D8 l => uint_value l (10 * acc + 8)
  | Decimal.D9 l => uint_value l (10 * acc + 9)
  end.

(** ** The window of [wg_manager/ui.py] and the log export of
    [wg_manager/logger.py]: the parts that compute *)

Module Ui.

(** [s.split(sep, 1)] for a one-character separator. *)
Fixpoint split_once (sep : char) (s : str) : list str :=
  match s with
  | EmptyString => [EmptyString]
  | String c r =>
      if Char.eqb c sep then [EmptyString; r]
      else match split_once sep r with
           | h :: t => String c h :: t
           | [] => [String c EmptyString]
           end
  end.

(** What replaces a line that shows a preshared key. *)
Definition hidden_key : str := "  🔑 preshared key: (скрыто)".

(** The body of the loop of [_format_wg_show_output] on a line that is
    stripped on the right and not empty: what it appends to
    [formatted_lines].  The variable [current_section] of the source is
    assigned and never read. *)
Definition format_line (line : str) : list str :=
  let lowered := PyStr.lower line in
  if PyStr.contains "interface:" lowered then ["🔌 " ++ line]
  else if PyStr.contains "peer:" lowered then ["👤 " ++ line]
  else if PyStr.contains "endpoint:" lowered then
    if PyStr.contains ":" line then
      let parts := split_once ":" line in
      ["  🌐 " ++ PyStr.strip (nth 0 parts "") ++ ": " ++ PyStr.strip (nth 1 parts "")]
    else ["  " ++ line]
  else if PyStr.contains "allowed ips:" lowered then ["  📡 " ++ line]
  else if PyStr.contains "latest handshake:" lowered then
    if PyStr.contains ":" line then
      let parts := split_once ":" line in
      let time_str := PyStr.strip (nth 1 parts "") in
      ["  🤝 Последнее рукопожатие: " ++ time_str]
    else ["  " ++ line]
  else if PyStr.contains "transfer:" lowered then
    if PyStr.contains ":" line then
      let parts := split_once ":" line in
      let transfer_info := PyStr.strip (nth 1 parts "") in
      if (PyStr.contains "received" transfer_info
          && PyStr.contains "sent" transfer_info)%bool then
        "  📊 Передача данных:"
        :: (if PyStr.contains "," transfer_info then
              (* [received, sent = transfer_info.split(',', 1)]: two parts,
                 since the comma is there *)
              let pair := split_once "," transfer_info in
              ["    📥 " ++ PyStr.strip (nth 0 pair "");
               "    📤 " ++ PyStr.strip (nth 1 pair "")]
            else [])
      else ["  " ++ line]
    else ["  " ++ line]
  else if PyStr.contains "preshared key:" lowered then [hidden_key]
  else if Str.prefix "  " line then ["  " ++ line]
  else [line].

(** The loop of [_format_wg_show_output] over the lines. *)
Fixpoint format_lines (lines : list str) : list str :=
  match lines with
  | [] => []
  | line :: rest =>
      let line := PyStr.rstrip line in
      if PyStr.is_empty line then format_lines rest
      else (format_line line ++ format_lines rest)%list
  end.

(** [_format_wg_show_output] *)
Definition _format_wg_show_output (raw_output : str) : str :=
  if (PyStr.is_empty raw_output
      || PyStr.contains "Ошибка получения статуса" raw_output)%bool
  then raw_output
  else
    let lines := PyStr.split LF (PyStr.strip raw_output) in
    match format_lines lines with
    | [] => raw_output
    | formatted_lines => PyStr.join newline formatted_lines
    end.

(** [_debounce_click] at the clock reading [current_time], in
    milliseconds: the answer and the new [_last_click_time]. *)
Definition _debounce_click (_debounce_delay current_time _last_click_time : Z)
  : bool * Z :=
  if current_time - _last_click_time <? _debounce_delay
  then (false, _last_click_time)
  else (true, current_time).

(** The clicks that [_run_operation] lets through, out of clicks at the
    clock readings [clock]. *)
Fixpoint accepted (delay last : Z) (clock : list Z) : list Z :=
  match clock with
  | [] => []
  | t :: rest =>
      let (ok, last') := _debounce_click delay t last in
      if ok then t :: accepted delay last' rest else accepted delay last' rest
  end.

End Ui.

Module Logger.

(** [l[start:]]: a negative [start] counts from the end, and both ends
    are clipped. *)
Definition slice_from {A : Type} (start : Z) (l : list A) : list A :=
  let len := Z.of_nat (List.length l) in
  let i := if start <? 0 then Z.max (start + len) 0 else Z.min start len in
  skipn (Z.to_nat i) l.

(** [all_lines[-lines:] if len(all_lines) > lines else all_lines], of
    [export_logs] and of [_update_logs_text]. *)
Definition last_lines {A : Type} (lines : Z) (all_lines : list A) : list A :=
  if lines <? Z.of_nat (List.length all_lines)
  then slice_from (- lines) all_lines
  else all_lines.

End Logger.

(** ** Further scenarios *)

(** A world in which every command fails with a complaint of the kernel. *)
Definition refusing : Sys Scripted :=
  scripted_sys None [] (fails "RTNETLINK answers: Operation not permitted").

(** A world in which every command runs into its timeout. *)
Definition hanging : Sys Scripted :=
  scripted_sys None [] TimeoutExpired.

(** A machine on which [wg-quick] is not installed and the configuration
    directory does not exist. *)
Definition half_installed : Sys Scripted :=
  mkSys (new_manager None) (mkScripted [] (succeeds "") [] ["wg"; "pkexec"]).

(** [bombox_up] with a stale hint and a stale cache. *)
Definition stale : Sys Scripted :=
  mkSys (with_cache [("usa", new_ProfileInfo "usa" ACTIVE "/etc/wireguard/usa.conf")]
           (with_active (Some "usa") (mgr bombox_up)))
        (world bombox_up).

(** Two tunnels up at once, as [wg show] lists them. *)
Definition two_up : Sys Scripted :=
  scripted_sys None []
    (succeeds ("interface: usa" ++ newline ++ newline ++ "interface: App")).


(** ** Vocabulary of the facts about text *)

(** Every character of [s] passes the test [P]. *)
Fixpoint all_chars (P : char -> bool) (s : str) : bool :=
  match s with
  | EmptyString => true
  | String c r => (P c && all_chars P r)%bool
  end.

(** What a character may become in lower case: its own lower case or, for
    the capital sigma, the final small sigma. *)
Definition lower_piece (c : char) (p : str) : Prop :=
  p = Unicode.to_lower_full c
  \/ (c = Unicode.capital_sigma /\ p = String Unicode.final_small_sigma "").

(** [t] is [s] in lower case, whichever form each sigma takes. *)
Inductive lowered : str -> str -> Prop :=
| lowered_nil : lowered "" ""
| lowered_cons (c : char) (p s t : str) :
    lower_piece c p -> lowered s t -> lowered (String c s) (p ++ t).

(** A text without capital sigma, and one without small sigma. *)
Definition sigma_free (s : str) : bool :=
  all_chars (fun c => negb (Char.eqb c Unicode.capital_sigma)) s.

Definition sigmaless (s : str) : bool :=
  all_chars (fun c => (negb (Char.eqb c Unicode.small_sigma)
                       && negb (Char.eqb c Unicode.final_small_sigma))%bool) s.

(** The characters of the texts that [float] accepts, letters in lower
    case: the digits, the point, the underscore, the signs, the letter of
    the exponent, and the letters of inf, infinity and nan. *)
Definition is_float_char (c : char) : bool :=
  (PyFloat.is_digit c
   || existsb (Char.eqb c)
        ["."%char; "_"%char; "+"%char; "-"%char; "e"%char; "i"%char; "n"%char;
         "f"%char; "a"%char; "t"%char; "y"%char])%bool.

(** A character that [float] can read: a blank, or a character of its
    texts in either letter case, once the character is made ASCII. *)
Definition readable (c : char) : bool :=
  let a := PyFloat.to_ascii c in
  (PyFloat.is_blank a || is_float_char (PyFloat.ascii_lower_char a))%bool.

(** The first unit of the byte-size parser that occurs in [s], in the
    order of its tests, with its factors. *)
Definition first_unit (s : str) : option (str * list Z) :=
  find (fun entry => PyStr.contains (fst entry) s) unit_table.

(** The characters below 128. *)
Definition ascii_chars : list char := map N.of_nat (seq 0 128).

(** The checks of one run of the lower-case table against the other
    tables: the run lies above ASCII, its images lie above ASCII too but for
    the Kelvin sign, which becomes the letter k, and neither the run nor its
    images hold whitespace or a decimal digit. *)
Definition apart (lo hi : char) : bool :=
  (forallb (fun w => (w <? lo) || (hi <? w))%N Unicode.whitespace
   && forallb (fun z => (hi <? z) || (z + 9 <? lo))%N Unicode.decimal_zeros)%bool.

Definition run_checks (run : char * char * char * char) : bool :=
  let '(first, last, step, image) := run in
  let top := (image + (last - first))%N in
  ((128 <=? first)%N && (first <=? last)%N
   && ((128 <=? image)%N || ((first =? 8490)%N && (last =? 8490)%N && (image =? 107)%N))
   && apart first last
   && apart image top)%bool.
(** * Properties *)

(** ** Characters and strings *)

Arguments Unicode.is_space : simpl never.
Arguments Unicode.is_cased : simpl never.
Arguments Unicode.is_case_ignorable : simpl never.
Arguments Unicode.to_decimal : simpl never.
Arguments Unicode.to_lower_full : simpl never.
Arguments PyStr.is_space : simpl never.
Arguments PyStr.lower_at : simpl never.
Arguments PyFloat.to_ascii : simpl never.
Arguments PyFloat.is_blank : simpl never.
Arguments PyFloat.is_digit : simpl never.
Arguments PyFloat.ascii_lower_char : simpl never.
Arguments Char.eqb : simpl never.
Arguments Char.between : simpl never.

Lemma char_eqb_eq (a b : char) : Char.eqb a b = true <-> a = b.
Proof. apply N.eqb_eq. Qed.

Lemma char_eqb_neq (a b : char) : Char.eqb a b = false <-> a <> b.
Proof. apply N.eqb_neq. Qed.

Lemma char_eqb_refl (a : char) : Char.eqb a a = true.
Proof. apply N.eqb_refl. Qed.

Lemma str_eqb_eq (a b : str) : Str.eqb a b = true <-> a = b.
Proof.
  revert b. induction a as [|c a IH]; intros [|d b]; cbn; try (split; congruence).
  destruct (Char.eqb c d) eqn:E; cbn.
  - apply char_eqb_eq in E. subst d. specialize (IH b).
    split; intros H; [f_equal; apply IH; exact H|apply IH; congruence].
  - apply char_eqb_neq in E. split; congruence.
Qed.

Lemma str_eqb_refl (a : str) : Str.eqb a a = true.
Proof. apply str_eqb_eq. reflexivity. Qed.

Lemma str_eqb_neq (a b : str) : Str.eqb a b = false <-> a <> b.
Proof.
  split.
  - intros E H. apply str_eqb_eq in H. congruence.
  - intros H. destruct (Str.eqb a b) eqn:E; [|reflexivity].
    apply str_eqb_eq in E. contradiction.
Qed.

Lemma str_dec (a b : str) : {a = b} + {a <> b}.
Proof.
  destruct (Str.eqb a b) eqn:E.
  - left. apply str_eqb_eq. exact E.
  - right. apply str_eqb_neq. exact E.
Qed.

(** ** The tables of characters *)

Section CharFacts.

Local Open Scope N_scope.

Lemma between_spec (a c b : char) : Char.between a c b = true <-> a <= c /\ c <= b.
Proof.
  unfold Char.between. rewrite andb_true_iff, !N.leb_le. reflexivity.
Qed.

Lemma between_false (a c b : char) : Char.between a c b = false <-> c < a \/ b < c.
Proof.
  unfold Char.between. rewrite andb_false_iff, !N.leb_gt. reflexivity.
Qed.

(** A test that holds of the 128 ASCII characters holds below 128. *)
Lemma ascii_cases (P : char -> bool) :
  forallb P ascii_chars = true -> forall c, c < 128 -> P c = true.
Proof.
  intros H c Hc. rewrite forallb_forall in H. apply H.
  unfold ascii_chars. rewrite <- (N2Nat.id c). apply in_map. apply in_seq. lia.
Qed.

(** A test that holds of the whitespace table holds of every whitespace
    character. *)
Lemma space_cases (P : char -> bool) :
  forallb P Unicode.whitespace = true -> forall c, Unicode.is_space c = true -> P c = true.
Proof.
  intros H c Hc. rewrite forallb_forall in H. apply H.
  unfold Unicode.is_space in Hc. apply existsb_exists in Hc.
  destruct Hc as [w [Hin E]]. apply N.eqb_eq in E. subst w. exact Hin.
Qed.

Lemma in_ranges_spec (c : char) (ranges : list (char * char)) :
  Unicode.in_ranges c ranges = true ->
  exists first last, In (first, last) ranges /\ first <= c /\ c <= last.
Proof.
  induction ranges as [|[first last] rest IH]; cbn [Unicode.in_ranges]; [discriminate|].
  intros H. apply orb_true_iff in H. destruct H as [H|H].
  - apply andb_true_iff in H. destruct H as [H1 H2].
    apply N.leb_le in H1, H2. exists first, last. split; [left; reflexivity | lia].
  - destruct (IH H) as (f & l & Hin & Hb). exists f, l. split; [right; exact Hin | exact Hb].
Qed.

Lemma decimal_from_spec (zeros : list char) (c d : char) :
  Unicode.decimal_from zeros c = Some d ->
  exists zero, In zero zeros /\ zero <= c /\ c < zero + 10 /\ d = c - zero.
Proof.
  induction zeros as [|zero rest IH]; cbn [Unicode.decimal_from]; [discriminate|].
  destruct ((zero <=? c) && (c <? zero + 10))%bool eqn:E.
  - intros H. inversion H. apply andb_true_iff in E. destruct E as [E1 E2].
    apply N.leb_le in E1. apply N.ltb_lt in E2.
    exists zero. split; [left; reflexivity | lia].
  - intros H. destruct (IH H) as (z & Hin & Hb). exists z. split; [right; exact Hin | exact Hb].
Qed.

Lemma decimal_from_none (zeros : list char) (c : char) :
  (forall zero, In zero zeros -> c < zero \/ zero + 9 < c) ->
  Unicode.decimal_from zeros c = None.
Proof.
  induction zeros as [|zero rest IH]; intros H; cbn [Unicode.decimal_from]; [reflexivity|].
  destruct (H zero (or_introl eq_refl)) as [Hlt|Hgt].
  - replace (zero <=? c) with false by (symmetry; apply N.leb_gt; exact Hlt).
    cbn [andb]. apply IH. intros z Hz. apply H. right. exact Hz.
  - replace (c <? zero + 10) with false by (symmetry; apply N.ltb_ge; lia).
    rewrite andb_false_r. apply IH. intros z Hz. apply H. right. exact Hz.
Qed.

Lemma lower_from_runs_some (runs : list (char * char * char * char)) (c l : char) :
  Unicode.lower_from_runs runs c = Some l ->
  exists first last step image,
    In (first, last, step, image) runs
    /\ first <= c /\ c <= last /\ l = image + (c - first).
Proof.
  induction runs as [|[[[first last] step] image] rest IH];
    cbn [Unicode.lower_from_runs]; [discriminate|].
  destruct ((first <=? c) && (c <=? last) && ((c - first) mod step =? 0))%bool eqn:E.
  - intros H. inversion H. apply andb_true_iff in E. destruct E as [E _].
    apply andb_true_iff in E. destruct E as [E1 E2]. apply N.leb_le in E1, E2.
    exists first, last, step, image. split; [left; reflexivity | lia].
  - intros H. destruct (IH H) as (f & la & st & im & Hin & Hb).
    exists f, la, st, im. split; [right; exact Hin | exact Hb].
Qed.

(** Outside every run a character has no entry. *)
Lemma lower_from_runs_none (runs : list (char * char * char * char)) (c : char) :
  (forall first last step image,
      In (first, last, step, image) runs -> c < first \/ last < c) ->
  Unicode.lower_from_runs runs c = None.
Proof.
  induction runs as [|[[[first last] step] image] rest IH]; intros H;
    cbn [Unicode.lower_from_runs]; [reflexivity|].
  destruct (H first last step image (or_introl eq_refl)) as [Hlt|Hgt].
  - replace (first <=? c) with false by (symmetry; apply N.leb_gt; exact Hlt).
    cbn [andb]. apply IH. intros f l s i Hin. apply (H f l s i). right. exact Hin.
  - replace (c <=? last) with false by (symmetry; apply N.leb_gt; exact Hgt).
    rewrite andb_false_r. cbn [andb].
    apply IH. intros f l s i Hin. apply (H f l s i). right. exact Hin.
Qed.

Lemma lower_runs_checked :
  forall run, In run Unicode.lower_runs -> run_checks run = true.
Proof.
  apply forallb_forall. vm_compute. reflexivity.
Qed.

(** What lies within bounds that are [apart] is neither whitespace nor a
    decimal digit. *)
Lemma apart_spec (lo hi c : char) :
  apart lo hi = true -> lo <= c -> c <= hi ->
  Unicode.is_space c = false /\ Unicode.to_decimal c = None.
Proof.
  unfold apart. intros H Hlo Hhi. apply andb_true_iff in H. destruct H as [Hw Hd].
  rewrite forallb_forall in Hw, Hd. split.
  - destruct (Unicode.is_space c) eqn:E; [|reflexivity]. exfalso.
    unfold Unicode.is_space in E. apply existsb_exists in E.
    destruct E as [w [Hin E]]. apply N.eqb_eq in E. subst w.
    specialize (Hw c Hin). apply orb_true_iff in Hw.
    destruct Hw as [Hw|Hw]; apply N.ltb_lt in Hw; lia.
  - apply decimal_from_none. intros z Hz. specialize (Hd z Hz).
    apply orb_true_iff in Hd. destruct Hd as [Hd|Hd]; apply N.ltb_lt in Hd; lia.
Qed.

(** The lower case of a character, case by case: an ASCII character gives
    its ASCII lower case; the capital I with a dot gives two characters;
    any other character gives itself, or one character of the table, which
    is again neither ASCII (but for the k of the Kelvin sign), nor
    whitespace, nor a decimal digit. *)
Lemma to_lower_full_cases (c : char) :
  (c < 128 /\ Unicode.to_lower_full c = String (PyFloat.ascii_lower_char c) "")
  \/ (c = Unicode.capital_i_dot
      /\ Unicode.to_lower_full c = String 105 (String Unicode.combining_dot ""))
  \/ (128 <= c /\ Unicode.to_lower_full c = String c "")
  \/ (128 <= c /\ Unicode.is_space c = false /\ Unicode.to_decimal c = None
      /\ exists l, Unicode.to_lower_full c = String l ""
                   /\ ((128 <= l /\ Unicode.is_space l = false /\ Unicode.to_decimal l = None)
                       \/ (c = 8490 /\ l = 107))).
Proof.
  unfold Unicode.to_lower_full.
  destruct (c <? 128) eqn:E1.
  - left. apply N.ltb_lt in E1. split; [exact E1 | reflexivity].
  - apply N.ltb_ge in E1. right.
    destruct (c =? Unicode.capital_i_dot) eqn:E2.
    + left. apply N.eqb_eq in E2. split; [exact E2 | reflexivity].
    + right. destruct (Unicode.lower_from_runs Unicode.lower_runs c) as [l|] eqn:E3.
      * right. destruct (lower_from_runs_some _ _ _ E3)
          as (first & last & step & image & Hin & Hlo & Hhi & ->).
        pose proof (lower_runs_checked _ Hin) as Hc. unfold run_checks in Hc.
        repeat (apply andb_true_iff in Hc; destruct Hc as [Hc ?H]).
        destruct (apart_spec _ _ c H0 Hlo Hhi) as [Hs Hd].
        split; [exact E1|]. split; [exact Hs|]. split; [exact Hd|].
        exists (image + (c - first)). split; [reflexivity|].
        apply orb_true_iff in H1. destruct H1 as [Him|Hk].
        -- left. apply N.leb_le in Him.
           destruct (apart_spec _ _ (image + (c - first)) H) as [Hs' Hd']; [lia | lia |].
           split; [lia|]. split; [exact Hs' | exact Hd'].
        -- right. repeat (apply andb_true_iff in Hk; destruct Hk as [Hk ?Hk]).
           apply N.eqb_eq in Hk, Hk0, Hk1. lia.
      * left. split; [exact E1 | reflexivity].
Qed.

Lemma ascii_lower_char_high (c : char) : 128 <= c -> PyFloat.ascii_lower_char c = c.
Proof.
  intros H. unfold PyFloat.ascii_lower_char.
  replace (Char.between 65 c 90) with false; [reflexivity|].
  symmetry. apply between_false. lia.
Qed.

(** Whitespace has no other lower case, takes no part in the rule of the
    final sigma, and is no colon. *)
Lemma space_facts (c : char) :
  Unicode.is_space c = true ->
  Unicode.to_lower_full c = String c ""
  /\ c <> Unicode.capital_sigma
  /\ Unicode.is_cased c = false
  /\ Unicode.is_case_ignorable c = false
  /\ Char.eqb c ":" = false
  /\ Unicode.to_decimal c = None.
Proof.
  intros H.
  pose proof (space_cases
                (fun c => Str.eqb (Unicode.to_lower_full c) (String c "")
                          && negb (c =? Unicode.capital_sigma)
                          && negb (Unicode.is_cased c)
                          && negb (Unicode.is_case_ignorable c)
                          && negb (Char.eqb c ":")
                          && match Unicode.to_decimal c with Some _ => false | None => true end)%bool
                ltac:(vm_compute; reflexivity) c H) as Hc.
  cbv beta in Hc.
  repeat (apply andb_true_iff in Hc; destruct Hc as [Hc ?Hc]).
  apply str_eqb_eq in Hc. apply negb_true_iff in Hc1, Hc2, Hc3, Hc4.
  apply N.eqb_neq in Hc4.
  destruct (Unicode.to_decimal c); [discriminate|]. auto 10.
Qed.

(** A decimal digit has no other lower case. *)
Lemma decimal_facts (c d : char) :
  Unicode.to_decimal c = Some d ->
  Unicode.to_lower_full c = String c "" /\ Unicode.is_space c = false.
Proof.
  intros H.
  assert (Hs : Unicode.is_space c = false).
  { destruct (Unicode.is_space c) eqn:E; [|reflexivity].
    destruct (space_facts c E) as (_ & _ & _ & _ & _ & Hd). congruence. }
  split; [|exact Hs].
  destruct (to_lower_full_cases c) as [[Hc E] | [[Hc E] | [[Hc E] | (_ & _ & Hd & _)]]].
  - rewrite E. f_equal. unfold PyFloat.ascii_lower_char.
    replace (Char.between 65 c 90) with false; [reflexivity|].
    symmetry. apply between_false.
    destruct (decimal_from_spec _ _ _ H) as (z & Hz & Hlo & Hhi & _).
    assert (Hzs : (z =? 48) || (128 <=? z) = true).
    { revert Hz. generalize z. apply forallb_forall. vm_compute. reflexivity. }
    apply orb_true_iff in Hzs. destruct Hzs as [Hz'|Hz'].
    + apply N.eqb_eq in Hz'. lia.
    + apply N.leb_le in Hz'. lia.
  - subst c. vm_compute in H. discriminate.
  - exact E.
  - congruence.
Qed.

(** What [float] makes of a character above ASCII. *)
Lemma to_ascii_high (c : char) :
  128 <= c ->
  (Unicode.is_space c = true /\ PyFloat.to_ascii c = " "%char)
  \/ (Unicode.is_space c = false
      /\ exists d, Unicode.to_decimal c = Some d /\ d < 10 /\ PyFloat.to_ascii c = 48 + d)
  \/ (Unicode.is_space c = false /\ Unicode.to_decimal c = None
      /\ PyFloat.to_ascii c = "?"%char).
Proof.
  intros H. unfold PyFloat.to_ascii.
  replace (c <? 128) with false by (symmetry; apply N.ltb_ge; exact H).
  destruct (Unicode.is_space c) eqn:Es; [left; split; reflexivity|].
  right. destruct (Unicode.to_decimal c) as [d|] eqn:Ed.
  - left. split; [reflexivity|]. exists d. split; [reflexivity|].
    destruct (decimal_from_spec _ _ _ Ed) as (z & _ & Hlo & Hhi & ->).
    split; [lia | reflexivity].
  - right. split; [reflexivity|]. split; reflexivity.
Qed.

Lemma to_ascii_low (c : char) : c < 128 -> PyFloat.to_ascii c = c.
Proof.
  intros H. unfold PyFloat.to_ascii.
  replace (c <? 128) with true by (symmetry; apply N.ltb_lt; exact H). reflexivity.
Qed.

Lemma to_ascii_bound (c : char) : PyFloat.to_ascii c < 128.
Proof.
  destruct (N.lt_ge_cases c 128) as [H|H].
  - rewrite (to_ascii_low _ H). exact H.
  - destruct (to_ascii_high c H) as [[_ E] | [(_ & d & _ & Hd & E) | (_ & _ & E)]];
      rewrite E; [reflexivity | lia | reflexivity].
Qed.

End CharFacts.
(** ** Lower case, character by character *)

Section PieceFacts.

Local Open Scope N_scope.

(** The ASCII lower case of an ASCII character. *)
Lemma ascii_lower_facts (c : char) :
  c < 128 ->
  PyFloat.ascii_lower_char c < 128
  /\ Unicode.is_space (PyFloat.ascii_lower_char c) = Unicode.is_space c
  /\ Char.eqb (PyFloat.ascii_lower_char c) ":" = Char.eqb c ":"
  /\ Char.between 65 (PyFloat.ascii_lower_char c) 90 = false
  /\ readable (PyFloat.ascii_lower_char c) = readable c
  /\ PyFloat.is_blank (PyFloat.ascii_lower_char c) = PyFloat.is_blank c
  /\ PyFloat.ascii_lower_char (PyFloat.ascii_lower_char c) = PyFloat.ascii_lower_char c
  /\ PyFloat.ascii_lower_char c <> Unicode.small_sigma
  /\ PyFloat.ascii_lower_char c <> Unicode.final_small_sigma
  /\ c <> Unicode.capital_sigma.
Proof.
  intros H.
  pose proof (ascii_cases
                (fun c =>
                   let l := PyFloat.ascii_lower_char c in
                   (l <? 128)
                   && Bool.eqb (Unicode.is_space l) (Unicode.is_space c)
                   && Bool.eqb (Char.eqb l ":") (Char.eqb c ":")
                   && negb (Char.between 65 l 90)
                   && Bool.eqb (readable l) (readable c)
                   && Bool.eqb (PyFloat.is_blank l) (PyFloat.is_blank c)
                   && (PyFloat.ascii_lower_char l =? l)
                   && negb (l =? Unicode.small_sigma)
                   && negb (l =? Unicode.final_small_sigma)
                   && negb (c =? Unicode.capital_sigma))%bool
                ltac:(vm_compute; reflexivity) c H) as Hc.
  cbv beta zeta in Hc.
  repeat (apply andb_true_iff in Hc; destruct Hc as [Hc ?Hc]).
  apply N.ltb_lt in Hc. apply Bool.eqb_prop in Hc8, Hc7, Hc5, Hc4.
  apply negb_true_iff in Hc6, Hc2, Hc1, Hc0.
  apply N.eqb_eq in Hc3. apply N.eqb_neq in Hc2, Hc1, Hc0.
  repeat split; assumption.
Qed.

Lemma sigma_lower : Unicode.to_lower_full Unicode.capital_sigma = String Unicode.small_sigma "".
Proof. vm_compute. reflexivity. Qed.

(** The pieces of whitespace, and those of other characters. *)
Lemma piece_of_space (c : char) (p : str) :
  Unicode.is_space c = true -> lower_piece c p -> p = String c "".
Proof.
  intros Hs. destruct (space_facts c Hs) as (E & Hne & _).
  intros [-> | [Hc _]]; [exact E | contradiction].
Qed.

Lemma piece_spaceless (c : char) (p : str) :
  Unicode.is_space c = false -> lower_piece c p ->
  spaceless p = true /\ PyStr.is_empty p = false.
Proof.
  intros Hs [-> | [-> ->]]; [|split; vm_compute; reflexivity].
  destruct (to_lower_full_cases c)
    as [[Hc E] | [[Hc E] | [[Hc E] | (Hc & _ & _ & l & E & Hl)]]]; rewrite E.
  - destruct (ascii_lower_facts c Hc) as (_ & Hsp & _).
    cbn [spaceless PyStr.is_empty]. unfold PyStr.is_space. rewrite Hsp, Hs. split; reflexivity.
  - split; vm_compute; reflexivity.
  - cbn [spaceless PyStr.is_empty]. unfold PyStr.is_space. rewrite Hs. split; reflexivity.
  - cbn [spaceless PyStr.is_empty]. unfold PyStr.is_space.
    destruct Hl as [(_ & Hl & _) | [_ ->]]; [rewrite Hl|]; split; reflexivity.
Qed.

(** No piece brings in a colon, and none loses one. *)
Lemma piece_colonless (c : char) (p : str) :
  lower_piece c p -> colonless p = negb (Char.eqb c ":").
Proof.
  intros [-> | [-> ->]]; [|vm_compute; reflexivity].
  destruct (to_lower_full_cases c)
    as [[Hc E] | [[Hc E] | [[Hc E] | (Hc & _ & _ & l & E & Hl)]]]; rewrite E.
  - destruct (ascii_lower_facts c Hc) as (_ & _ & Hcol & _).
    cbn [colonless]. rewrite Hcol, andb_true_r. reflexivity.
  - subst c. vm_compute. reflexivity.
  - cbn [colonless]. rewrite andb_true_r. reflexivity.
  - cbn [colonless]. rewrite andb_true_r.
    replace (Char.eqb c ":") with false
      by (symmetry; apply N.eqb_neq; intros ->; vm_compute in Hc; congruence).
    destruct Hl as [(Hl & _) | [_ ->]]; [|reflexivity].
    replace (Char.eqb l ":") with false; [reflexivity|].
    symmetry. apply N.eqb_neq. intros ->. vm_compute in Hl. congruence.
Qed.

(** No piece holds an ASCII capital. *)
Lemma piece_not_capital (c : char) (p : str) :
  lower_piece c p -> all_chars (fun o => negb (Char.between 65 o 90)) p = true.
Proof.
  intros [-> | [-> ->]]; [|vm_compute; reflexivity].
  destruct (to_lower_full_cases c)
    as [[Hc E] | [[Hc E] | [[Hc E] | (Hc & _ & _ & l & E & Hl)]]]; rewrite E.
  - destruct (ascii_lower_facts c Hc) as (_ & _ & _ & Hup & _).
    cbn [all_chars]. rewrite Hup. reflexivity.
  - vm_compute. reflexivity.
  - cbn [all_chars].
    replace (Char.between 65 c 90) with false; [reflexivity|].
    symmetry. apply between_false. lia.
  - cbn [all_chars].
    replace (Char.between 65 l 90) with false; [reflexivity|].
    symmetry. apply between_false. destruct Hl as [(Hl & _) | [_ ->]]; lia.
Qed.

(** A character other than the capital sigma has one piece. *)
Lemma piece_unique (c : char) (p p' : str) :
  c <> Unicode.capital_sigma -> lower_piece c p -> lower_piece c p' -> p = p'.
Proof.
  intros Hc [-> | [E _]] [-> | [E' _]]; congruence.
Qed.

(** The pieces of the capital sigma are the two small sigmas, and no other
    character gives one. *)
Lemma piece_of_sigma (p : str) :
  lower_piece Unicode.capital_sigma p ->
  p = String Unicode.small_sigma "" \/ p = String Unicode.final_small_sigma "".
Proof.
  intros [-> | [_ ->]]; [left; exact sigma_lower | right; reflexivity].
Qed.

(** The pieces of a character that [float] can read, and of one it
    cannot. *)
Lemma readable_cases (c : char) :
  readable c = true ->
  c < 128 \/ (128 <= c /\ (Unicode.is_space c = true
                          \/ exists d, Unicode.to_decimal c = Some d)).
Proof.
  intros H. destruct (N.lt_ge_cases c 128) as [Hc|Hc]; [left; exact Hc|].
  right. split; [exact Hc|].
  destruct (to_ascii_high c Hc) as [[Hs _] | [(_ & d & Hd & _) | (_ & _ & E)]].
  - left. exact Hs.
  - right. exists d. exact Hd.
  - exfalso. unfold readable in H. rewrite E in H. vm_compute in H. discriminate.
Qed.

Lemma piece_readable (c : char) (p : str) :
  readable c = true -> lower_piece c p -> p = String (PyFloat.ascii_lower_char c) "".
Proof.
  intros Hr Hp.
  assert (Hns : c <> Unicode.capital_sigma)
    by (intros ->; vm_compute in Hr; discriminate).
  destruct Hp as [-> | [E _]]; [|contradiction].
  destruct (readable_cases c Hr) as [Hc | [Hc [Hs | [d Hd]]]].
  - destruct (to_lower_full_cases c)
      as [[_ E] | [[E _] | [[Hc' _] | (Hc' & _)]]]; [exact E | | | ];
      [subst c; vm_compute in Hc; discriminate | lia | lia].
  - rewrite (ascii_lower_char_high _ Hc).
    destruct (space_facts c Hs) as (E & _). exact E.
  - rewrite (ascii_lower_char_high _ Hc).
    destruct (decimal_facts c d Hd) as (E & _). exact E.
Qed.

Lemma readable_high (c : char) :
  128 <= c -> Unicode.is_space c = false -> Unicode.to_decimal c = None ->
  readable c = false.
Proof.
  intros Hc Hs Hd.
  destruct (to_ascii_high c Hc) as [[Hs' _] | [(_ & d & Hd' & _) | (_ & _ & E)]];
    [congruence | congruence |].
  unfold readable. rewrite E. vm_compute. reflexivity.
Qed.

Lemma piece_unreadable (c : char) (p : str) :
  readable c = false -> lower_piece c p -> all_chars readable p = false.
Proof.
  intros Hr [-> | [-> ->]]; [|vm_compute; reflexivity].
  destruct (to_lower_full_cases c)
    as [[Hc E] | [[Hc E] | [[Hc E] | (Hc & _ & _ & l & E & Hl)]]]; rewrite E.
  - destruct (ascii_lower_facts c Hc) as (_ & _ & _ & _ & Hread & _).
    cbn [all_chars]. rewrite Hread, Hr. reflexivity.
  - vm_compute. reflexivity.
  - cbn [all_chars]. rewrite Hr. reflexivity.
  - cbn [all_chars].
    destruct Hl as [(Hl & Hls & Hld) | [_ ->]]; [|vm_compute; reflexivity].
    rewrite (readable_high l Hl Hls Hld). reflexivity.
Qed.

(** A character that [float] can read is whitespace for Python where it
    is a blank for [float], and its lower case is no unit letter. *)
Lemma readable_space (c : char) :
  readable c = true -> Unicode.is_space c = PyFloat.is_blank (PyFloat.to_ascii c).
Proof.
  intros Hr. destruct (N.lt_ge_cases c 128) as [Hc|Hc].
  - rewrite (to_ascii_low _ Hc).
    pose proof (ascii_cases
                  (fun c => implb (readable c)
                              (Bool.eqb (Unicode.is_space c) (PyFloat.is_blank c)))
                  ltac:(vm_compute; reflexivity) c Hc) as H.
    cbv beta in H. rewrite Hr in H. apply Bool.eqb_prop in H. exact H.
  - destruct (to_ascii_high c Hc) as [[Hs E] | [(Hs & d & _ & Hd & E) | (Hs & _ & E)]];
      rewrite E, Hs; [reflexivity | | reflexivity].
    symmetry. unfold PyFloat.is_blank. apply orb_false_iff. split.
    + apply between_false. lia.
    + apply N.eqb_neq. lia.
Qed.

Lemma readable_unit_letter (c : char) :
  readable c = true -> is_unit_letter (PyFloat.ascii_lower_char c) = false.
Proof.
  intros Hr. destruct (N.lt_ge_cases c 128) as [Hc|Hc].
  - pose proof (ascii_cases
                  (fun c => implb (readable c)
                              (negb (is_unit_letter (PyFloat.ascii_lower_char c))))
                  ltac:(vm_compute; reflexivity) c Hc) as H.
    cbv beta in H. rewrite Hr in H. apply negb_true_iff in H. exact H.
  - rewrite (ascii_lower_char_high _ Hc). unfold is_unit_letter.
    repeat (apply orb_false_iff; split); apply N.eqb_neq; intros ->;
      vm_compute in Hc; congruence.
Qed.

(** The two small sigmas are no unit letters. *)
Lemma piece_unitless_agree (c : char) (p p' : str) :
  lower_piece c p -> lower_piece c p' -> unitless p = unitless p'.
Proof.
  intros [-> | [-> ->]] [-> | [E ->]]; try reflexivity.
  - subst c. reflexivity.
Qed.

End PieceFacts.
(** ** Lower case of a text *)

Lemma string_app_assoc (a b c : str) : (a ++ b) ++ c = a ++ b ++ c.
Proof.
  induction a as [|x a IH]; cbn; [reflexivity | rewrite IH; reflexivity].
Qed.

Lemma string_app_nil_r (a : str) : a ++ "" = a.
Proof.
  induction a as [|x a IH]; cbn; [reflexivity | rewrite IH; reflexivity].
Qed.

Lemma all_chars_app (P : char -> bool) (a b : str) :
  all_chars P (a ++ b) = (all_chars P a && all_chars P b)%bool.
Proof.
  induction a as [|c a IH]; cbn; [reflexivity|].
  rewrite IH. apply andb_assoc.
Qed.

Lemma is_empty_app (a b : str) :
  PyStr.is_empty (a ++ b) = (PyStr.is_empty a && PyStr.is_empty b)%bool.
Proof. destruct a; reflexivity. Qed.

Lemma spaceless_app (a b : str) : spaceless (a ++ b) = (spaceless a && spaceless b)%bool.
Proof.
  induction a as [|c a IH]; cbn; [reflexivity|].
  rewrite IH. apply andb_assoc.
Qed.

(** What [str.lower] gives is a lower case of the text. *)
Lemma lower_at_piece (before : str) (c : char) (after : str) :
  lower_piece c (PyStr.lower_at before c after).
Proof.
  unfold PyStr.lower_at. destruct (Char.eqb c Unicode.capital_sigma) eqn:E.
  - apply char_eqb_eq in E. subst c.
    destruct (PyStr.final_sigma before after).
    + right. split; reflexivity.
    + left. symmetry. exact sigma_lower.
  - left. reflexivity.
Qed.

Lemma lower_from_lowered (before s : str) : lowered s (PyStr.lower_from before s).
Proof.
  revert before. induction s as [|c s IH]; intros before; cbn [PyStr.lower_from].
  - constructor.
  - constructor; [apply lower_at_piece | apply IH].
Qed.

Lemma lower_lowered (s : str) : lowered s (PyStr.lower s).
Proof. apply lower_from_lowered. Qed.

Lemma lowered_app (x y t1 t2 : str) :
  lowered x t1 -> lowered y t2 -> lowered (x ++ y) (t1 ++ t2).
Proof.
  intros Hx Hy. induction Hx as [|c p s t Hp Hs IH]; [exact Hy|].
  rewrite string_app_assoc. cbn [Str.append]. constructor; assumption.
Qed.

Lemma lowered_app_inv (x y t : str) :
  lowered (x ++ y) t -> exists t1 t2, t = t1 ++ t2 /\ lowered x t1 /\ lowered y t2.
Proof.
  revert t. induction x as [|c x IH]; intros t H.
  - exists "", t. split; [reflexivity|]. split; [constructor | exact H].
  - cbn [Str.append] in H. inversion H as [|c' p s t' Hp Hs]; subst.
    destruct (IH _ Hs) as (t1 & t2 & -> & H1 & H2).
    exists (p ++ t1), t2. split; [symmetry; apply string_app_assoc|].
    split; [constructor; assumption | exact H2].
Qed.

(** Whitespace is its own lower case. *)
Lemma lowered_blank (w t : str) : blank w = true -> lowered w t -> t = w.
Proof.
  intros Hw H. induction H as [|c p s t Hp Hs IH]; [reflexivity|].
  cbn [blank] in Hw. apply andb_true_iff in Hw. destruct Hw as [Hc Hw].
  rewrite (piece_of_space c p Hc Hp), (IH Hw). reflexivity.
Qed.

(** Without capital sigma a text has one lower case, and a lower case
    without small sigma comes from such a text. *)
Lemma lowered_unique (s t t' : str) :
  sigma_free s = true -> lowered s t -> lowered s t' -> t = t'.
Proof.
  intros Hs H. revert t'. induction H as [|c p s t Hp H IH]; intros t' H'.
  - inversion H'. reflexivity.
  - inversion H' as [|c' p' s' t1 Hp' H1]; subst.
    unfold sigma_free in Hs. cbn [all_chars] in Hs.
    apply andb_true_iff in Hs. destruct Hs as [Hc Hs].
    apply negb_true_iff, char_eqb_neq in Hc.
    rewrite (piece_unique c p p' Hc Hp Hp'), (IH Hs t1 H1). reflexivity.
Qed.

Lemma lowered_sigmaless (s t : str) :
  lowered s t -> sigmaless t = true -> sigma_free s = true.
Proof.
  intros H. induction H as [|c p s t Hp H IH]; [reflexivity|].
  unfold sigmaless, sigma_free in *. rewrite all_chars_app. intros Ht.
  apply andb_true_iff in Ht. destruct Ht as [Hpt Ht].
  cbn [all_chars]. rewrite (IH Ht), andb_true_r.
  apply negb_true_iff, char_eqb_neq. intros ->.
  destruct (piece_of_sigma p Hp) as [-> | ->]; vm_compute in Hpt; discriminate.
Qed.

Lemma lowered_is_empty (s t : str) : lowered s t -> PyStr.is_empty t = PyStr.is_empty s.
Proof.
  intros H. destruct H as [|c p s t Hp H]; [reflexivity|].
  cbn [PyStr.is_empty]. rewrite is_empty_app.
  destruct (Unicode.is_space c) eqn:Hc.
  - rewrite (piece_of_space c p Hc Hp). reflexivity.
  - destruct (piece_spaceless c p Hc Hp) as [_ E]. rewrite E. reflexivity.
Qed.

Lemma lowered_colonless (s t : str) : lowered s t -> colonless t = colonless s.
Proof.
  intros H. induction H as [|c p s t Hp H IH]; [reflexivity|].
  cbn [colonless].
  assert (Happ : forall a b, colonless (a ++ b) = (colonless a && colonless b)%bool).
  { intros a b. induction a as [|x a IHa]; [reflexivity|]. cbn [Str.append colonless].
    rewrite IHa, andb_assoc. reflexivity. }
  rewrite Happ, IH, (piece_colonless c p Hp). reflexivity.
Qed.

Lemma lowered_not_capital (s t : str) :
  lowered s t -> all_chars (fun o => negb (Char.between 65%N o 90%N)) t = true.
Proof.
  intros H. induction H as [|c p s t Hp H IH]; [reflexivity|].
  rewrite all_chars_app, IH, (piece_not_capital c p Hp). reflexivity.
Qed.

Lemma unitless_app (a b : str) : unitless (a ++ b) = (unitless a && unitless b)%bool.
Proof.
  induction a as [|c a IH]; cbn; [reflexivity|].
  rewrite IH. apply andb_assoc.
Qed.

(** Whether a lower case holds a unit letter does not depend on the forms
    of its sigmas. *)
Lemma lowered_unitless_agree (s t t' : str) :
  lowered s t -> lowered s t' -> unitless t = unitless t'.
Proof.
  intros H. revert t'. induction H as [|c p s t Hp H IH]; intros t' H'.
  - inversion H'. reflexivity.
  - inversion H' as [|c' p' s' t1 Hp' H1]; subst.
    rewrite !unitless_app, (IH t1 H1), (piece_unitless_agree c p p' Hp Hp'). reflexivity.
Qed.

(** Of a text that [float] can read, the lower case is the ASCII lower
    case, without unit letter; of another text, the lower case is again one
    that [float] cannot read. *)
Lemma lowered_readable (s t : str) :
  all_chars readable s = true -> lowered s t -> t = PyFloat.ascii_lower s.
Proof.
  intros Hs H. induction H as [|c p s t Hp H IH]; [reflexivity|].
  cbn [all_chars] in Hs. apply andb_true_iff in Hs. destruct Hs as [Hc Hs].
  rewrite (piece_readable c p Hc Hp), (IH Hs). reflexivity.
Qed.

Lemma lowered_unreadable (s t : str) :
  all_chars readable s = false -> lowered s t -> all_chars readable t = false.
Proof.
  intros Hs H. induction H as [|c p s t Hp H IH]; [discriminate|].
  rewrite all_chars_app. cbn [all_chars] in Hs.
  destruct (readable c) eqn:Hc.
  - rewrite (IH Hs). apply andb_false_r.
  - rewrite (piece_unreadable c p Hc Hp). reflexivity.
Qed.

Lemma readable_unitless (s : str) :
  all_chars readable s = true -> unitless (PyFloat.ascii_lower s) = true.
Proof.
  induction s as [|c s IH]; [reflexivity|]. cbn [all_chars PyFloat.ascii_lower unitless].
  intros H. apply andb_true_iff in H. destruct H as [Hc Hs].
  rewrite (readable_unit_letter c Hc), (IH Hs). reflexivity.
Qed.

(** *** The final sigma next to whitespace *)

Lemma cased_next_app_blank (r w : str) :
  blank w = true -> PyStr.cased_next (r ++ w) = PyStr.cased_next r.
Proof.
  intros Hw. induction r as [|c r IH]; cbn [Str.append PyStr.cased_next].
  - destruct w as [|c w]; [reflexivity|]. cbn [blank] in Hw.
    apply andb_true_iff in Hw. destruct Hw as [Hc _].
    destruct (space_facts c Hc) as (_ & _ & Hcased & Hign & _).
    cbn [PyStr.cased_next]. rewrite Hign. exact Hcased.
  - rewrite IH. reflexivity.
Qed.

(** What stands before a text counts for its lower case only through the
    test of the final sigma. *)
Lemma lower_from_ext (before before' s : str) :
  PyStr.cased_next before = PyStr.cased_next before' ->
  PyStr.lower_from before s = PyStr.lower_from before' s.
Proof.
  revert before before'. induction s as [|c s IH]; intros b b' H; [reflexivity|].
  cbn [PyStr.lower_from]. f_equal.
  - unfold PyStr.lower_at, PyStr.final_sigma. rewrite H. reflexivity.
  - apply IH. cbn [PyStr.cased_next]. rewrite H. reflexivity.
Qed.

Lemma lower_from_blank (before w : str) : blank w = true -> PyStr.lower_from before w = w.
Proof.
  intros Hw. apply lowered_blank; [exact Hw | apply lower_from_lowered].
Qed.

Lemma lower_from_app_blank (before x w : str) :
  blank w = true -> PyStr.lower_from before (x ++ w) = PyStr.lower_from before x ++ w.
Proof.
  intros Hw. revert before. induction x as [|c x IH]; intros before.
  - cbn [Str.append PyStr.lower_from]. apply lower_from_blank. exact Hw.
  - cbn [Str.append PyStr.lower_from]. rewrite IH, string_app_assoc. f_equal.
    unfold PyStr.lower_at, PyStr.final_sigma.
    rewrite (cased_next_app_blank _ _ Hw). reflexivity.
Qed.

Lemma lower_blank (w : str) : blank w = true -> PyStr.lower w = w.
Proof. apply lower_from_blank. Qed.

Lemma lower_app_blank (x w : str) :
  blank w = true -> PyStr.lower (x ++ w) = PyStr.lower x ++ w.
Proof. apply lower_from_app_blank. Qed.

Lemma lower_space_first (c : char) (s : str) :
  PyStr.is_space c = true -> PyStr.lower (String c s) = String c (PyStr.lower s).
Proof.
  intros Hc. unfold PyStr.lower. cbn [PyStr.lower_from].
  destruct (space_facts c Hc) as (E & Hne & Hcased & Hign & _).
  unfold PyStr.lower_at.
  replace (Char.eqb c Unicode.capital_sigma) with false
    by (symmetry; apply char_eqb_neq; exact Hne).
  rewrite E. cbn [Str.append]. f_equal.
  apply lower_from_ext. cbn [PyStr.cased_next]. rewrite Hign. exact Hcased.
Qed.

(** ** Whitespace at the ends of a text *)

Lemma lstrip_blank (w : str) : blank w = true -> PyStr.lstrip w = "".
Proof.
  induction w as [|c w IH]; cbn; [reflexivity|].
  intros H. apply andb_true_iff in H. destruct H as [Hc Hw].
  rewrite Hc. exact (IH Hw).
Qed.

Lemma rstrip_blank (w : str) : blank w = true -> PyStr.rstrip w = "".
Proof.
  induction w as [|c w IH]; cbn; [reflexivity|].
  intros H. apply andb_true_iff in H. destruct H as [Hc Hw].
  rewrite (IH Hw), Hc. reflexivity.
Qed.

Lemma rstrip_app_blank (x w : str) :
  blank w = true -> PyStr.rstrip (x ++ w) = PyStr.rstrip x.
Proof.
  intros Hw. induction x as [|c x IH]; cbn.
  - exact (rstrip_blank _ Hw).
  - rewrite IH. reflexivity.
Qed.

Lemma lstrip_app_blank (x w : str) :
  blank w = true ->
  exists w', blank w' = true /\ PyStr.lstrip (x ++ w) = PyStr.lstrip x ++ w'.
Proof.
  intros Hw. induction x as [|c x IH]; cbn.
  - exists "". split; [reflexivity | exact (lstrip_blank _ Hw)].
  - destruct (PyStr.is_space c); [exact IH|].
    exists w. split; [exact Hw | reflexivity].
Qed.

Lemma strip_app_blank (x w : str) :
  blank w = true -> PyStr.strip (x ++ w) = PyStr.strip x.
Proof.
  intros Hw. unfold PyStr.strip.
  destruct (lstrip_app_blank x w Hw) as [w' [Hw' E]].
  rewrite E. apply rstrip_app_blank. exact Hw'.
Qed.

Lemma lstrip_trimmed (s : str) : trimmed_left (PyStr.lstrip s) = true.
Proof.
  induction s as [|c s IH]; cbn; [reflexivity|].
  destruct (PyStr.is_space c) eqn:E; [exact IH|]. cbn. rewrite E. reflexivity.
Qed.

Lemma rstrip_trimmed (s : str) : trimmed_left s = true -> trimmed_left (PyStr.rstrip s) = true.
Proof.
  destruct s as [|c s]; cbn; [reflexivity|].
  intros H. apply negb_true_iff in H. rewrite H. cbn. rewrite H. reflexivity.
Qed.

Lemma lstrip_fixed (s : str) : trimmed_left s = true -> PyStr.lstrip s = s.
Proof.
  destruct s as [|c s]; cbn; [reflexivity|].
  intros H. apply negb_true_iff in H. rewrite H. reflexivity.
Qed.

Lemma rstrip_idem (s : str) : PyStr.rstrip (PyStr.rstrip s) = PyStr.rstrip s.
Proof.
  induction s as [|c s IH]; cbn; [reflexivity|].
  destruct (PyStr.is_space c && PyStr.is_empty (PyStr.rstrip s))%bool eqn:E; [reflexivity|].
  cbn. rewrite IH, E. reflexivity.
Qed.

Lemma strip_idem (s : str) : PyStr.strip (PyStr.strip s) = PyStr.strip s.
Proof.
  unfold PyStr.strip.
  rewrite (lstrip_fixed _ (rstrip_trimmed _ (lstrip_trimmed s))).
  apply rstrip_idem.
Qed.

(** ** Active-profile derivation against its specification *)

Lemma rstrip_app_spaceless (p t : str) :
  spaceless p = true -> PyStr.rstrip (p ++ t) = p ++ PyStr.rstrip t.
Proof.
  induction p as [|c p IH]; [reflexivity|]. cbn [spaceless Str.append PyStr.rstrip].
  intros H. apply andb_true_iff in H. destruct H as [Hc Hp].
  apply negb_true_iff in Hc. rewrite Hc, (IH Hp). reflexivity.
Qed.

(** The lower case of a text without the whitespace at its ends is the
    lower case of the text without that whitespace. *)
Lemma lowered_lstrip (s t : str) : lowered s t -> lowered (PyStr.lstrip s) (PyStr.lstrip t).
Proof.
  intros H. induction H as [|c p s t Hp H IH]; [constructor|].
  cbn [PyStr.lstrip]. unfold PyStr.is_space at 1.
  destruct (Unicode.is_space c) eqn:Hc.
  - rewrite (piece_of_space c p Hc Hp). cbn [Str.append PyStr.lstrip].
    unfold PyStr.is_space at 1. rewrite Hc. exact IH.
  - destruct (piece_spaceless c p Hc Hp) as [Hsp Hne].
    replace (PyStr.lstrip (p ++ t)) with (p ++ t); [constructor; assumption|].
    destruct p as [|o p]; [discriminate|]. cbn [spaceless] in Hsp.
    apply andb_true_iff in Hsp. destruct Hsp as [Ho _]. apply negb_true_iff in Ho.
    cbn [Str.append PyStr.lstrip]. rewrite Ho. reflexivity.
Qed.

Lemma lowered_rstrip (s t : str) : lowered s t -> lowered (PyStr.rstrip s) (PyStr.rstrip t).
Proof.
  intros H. induction H as [|c p s t Hp H IH]; [constructor|].
  cbn [PyStr.rstrip]. unfold PyStr.is_space at 1.
  destruct (Unicode.is_space c) eqn:Hc.
  - rewrite (piece_of_space c p Hc Hp). cbn [Str.append PyStr.rstrip].
    unfold PyStr.is_space at 1. rewrite Hc, (lowered_is_empty _ _ IH).
    cbn [andb]. destruct (PyStr.is_empty (PyStr.rstrip s)); [constructor|].
    change (String c (PyStr.rstrip t)) with (String c "" ++ PyStr.rstrip t).
    constructor; [|exact IH].
    left. destruct (space_facts c Hc) as (E & _). symmetry. exact E.
  - destruct (piece_spaceless c p Hc Hp) as [Hsp _].
    rewrite (rstrip_app_spaceless _ _ Hsp). cbn [andb].
    constructor; assumption.
Qed.

Lemma lowered_strip (s t : str) : lowered s t -> lowered (PyStr.strip s) (PyStr.strip t).
Proof.
  intros H. unfold PyStr.strip. apply lowered_rstrip, lowered_lstrip. exact H.
Qed.

(** The trimming of the specification is that of [str.strip]. *)
Lemma drop_space_lstrip (s : str) : Spec.drop_space s = PyStr.lstrip s.
Proof.
  induction s as [|c s IH]; [reflexivity|]. cbn [Spec.drop_space PyStr.lstrip].
  unfold PyStr.is_space. rewrite IH. reflexivity.
Qed.

Lemma all_space_rstrip (s : str) : Spec.all_space s = PyStr.is_empty (PyStr.rstrip s).
Proof.
  induction s as [|c s IH]; [reflexivity|]. cbn [Spec.all_space PyStr.rstrip].
  unfold PyStr.is_space. rewrite IH.
  destruct (Unicode.is_space c), (PyStr.is_empty (PyStr.rstrip s)); reflexivity.
Qed.

Lemma cut_space_rstrip (s : str) : Spec.cut_space s = PyStr.rstrip s.
Proof.
  induction s as [|c s IH]; [reflexivity|].
  cbn [Spec.cut_space]. rewrite all_space_rstrip, IH.
  cbn [PyStr.rstrip].
  destruct (PyStr.is_space c && PyStr.is_empty (PyStr.rstrip s))%bool; reflexivity.
Qed.

Lemma strip_trim (s : str) : PyStr.strip s = Spec.trim s.
Proof.
  unfold PyStr.strip, Spec.trim.
  rewrite cut_space_rstrip, <- (drop_space_lstrip s). reflexivity.
Qed.
(** ** The Python operations on examples *)

Example lower_ex : PyStr.lower "Interface: WG-BomBox" = "interface: wg-bombox".
Proof. reflexivity. Qed.

Example strip_ex : PyStr.strip "  wg 0 " = "wg 0".
Proof. reflexivity. Qed.

Example split_ex : PyStr.split ":" "interface: wg0" = ["interface"; " wg0"].
Proof. reflexivity. Qed.

Example split_ws_ex : PyStr.split_ws " 1.23  MiB received" = ["1.23"; "MiB"; "received"].
Proof. reflexivity. Qed.

Example remove_ex : PyStr.remove "kib" "1.5 kib" = "1.5 ".
Proof. reflexivity. Qed.

Example timeout_marker_ex : PyStr.contains "Таймаут" "Таймаут (30 секунд)" = true.
Proof. reflexivity. Qed.

Example of_Z_ex : PyStr.of_Z 30 = "30".
Proof. reflexivity. Qed.

Example float_ex :
  PyFloat.of_string " 1_0.2_5e-1 " = Some (PyFloat.Finite (2308094809027379 # 2251799813685248)).
Proof. vm_compute. reflexivity. Qed.

Example float_inf_ex : PyFloat.of_string "-Infinity" = Some (PyFloat.Inf true).
Proof. reflexivity. Qed.

Example float_overflow_ex : PyFloat.of_string "1e400" = Some (PyFloat.Inf false).
Proof. vm_compute. reflexivity. Qed.

Example float_reject_ex :
  map PyFloat.of_string [""; "."; "1e"; "e5"; "1__0"; "_1"; "1_"; "1.2.3"; "+-1"; "0x10"]
  = repeat None 10.
Proof. vm_compute. reflexivity. Qed.

(** The nearest binary64 value to 1/10 is a little above it, and the
    product of 1.001 by 1000 a little below 1001. *)
Example float_tenth_ex :
  PyFloat.of_Q (1 # 10) = PyFloat.Finite (3602879701896397 # 36028797018963968).
Proof. vm_compute. reflexivity. Qed.

Example float_product_ex :
  option_map (fun f => PyFloat.mul f (PyFloat.of_Z 1000)) (PyFloat.of_string "1.001")
  = Some (PyFloat.Finite (8804889115230207 # 8796093022208)).
Proof. vm_compute. reflexivity. Qed.

(** ** The monad *)

Lemma bind_run {World A B : Type} (m : M World A) (f : A -> M World B)
      (s : Sys World) (a : A) (s1 : Sys World) (l1 : list Event) :
  m s = (a, s1, l1) ->
  bind m f s = (let '(b, s2, l2) := f a s1 in (b, s2, (l1 ++ l2)%list)).
Proof.
  intros Hm. unfold bind. rewrite Hm. reflexivity.
Qed.

Lemma bind_self {World B : Type} (f : Manager -> M World B) (s : Sys World) :
  bind self f s = f (mgr s) s.
Proof.
  unfold bind, self. destruct (f (mgr s) s) as [[b s2] l2]. reflexivity.
Qed.

Lemma bind_ret {World A B : Type} (a : A) (f : A -> M World B) (s : Sys World) :
  bind (ret a) f s = f a s.
Proof.
  unfold bind, ret. destruct (f a s) as [[b s2] l2]. reflexivity.
Qed.

Lemma bind_ask {World A B : Type} (g : World -> A) (f : A -> M World B) (s : Sys World) :
  bind (ask g) f s = f (g (world s)) s.
Proof.
  unfold bind, ask. destruct (f (g (world s)) s) as [[b s2] l2]. reflexivity.
Qed.

Lemma bind_log {World B : Type} (e : Event) (f : unit -> M World B) (s : Sys World) :
  bind (log e) f s = (let '(b, s2, l2) := f tt s in (b, s2, e :: l2)).
Proof.
  unfold bind, log. destruct (f tt s) as [[b s2] l2]. reflexivity.
Qed.

Lemma runs_app (l1 l2 : list Event) : runs (l1 ++ l2) = (runs l1 ++ runs l2)%list.
Proof.
  induction l1 as [|e l1 IH]; simpl; [reflexivity|].
  destruct e; simpl; rewrite IH; reflexivity.
Qed.

Lemma last_outcome_app (l1 l2 : list Event) :
  last_outcome (l1 ++ l2) =
  match last_outcome l2 with Some o => Some o | None => last_outcome l1 end.
Proof.
  induction l1 as [|e l1 IH]; simpl.
  - destruct (last_outcome l2); reflexivity.
  - destruct e; simpl; rewrite IH; destruct (last_outcome l2); reflexivity.
Qed.

(** ** The command runner and the retry policy *)

Section RetryFacts.

Context {World : Type} {platform : Platform World}.

(** One call of the runner spawns one process, through [pkexec], and
    leaves the manager as it was. *)
Lemma run_command_shape (command : list str) (timeout : Z) (s : Sys World) :
  exists o w,
    _run_command command timeout s
    = (o, mkSys (mgr s) w, [EvRun ("pkexec" :: command) timeout o]).
Proof.
  unfold _run_command.
  destruct (subprocess_run ("pkexec" :: command) timeout (world s)) as [r w].
  eexists; eexists; reflexivity.
Qed.

(** One round of the retry loop. *)
Lemma retry_loop_step (command : list str) (timeout : Z) (k : nat)
      (last_error : str) (s s1 : Sys World) (o : bool * str) (l1 : list Event) :
  _run_command command timeout s = (o, s1, l1) ->
  retry_loop command timeout (S k) last_error s =
  if fst o then ((true, snd o), s1, l1)
  else if stops_retrying (snd o) then ((false, snd o), s1, l1)
  else let '(b, s2, l2) := retry_loop command timeout k (snd o) s1 in
       (b, s2, (l1 ++ match k with O => [] | S _ => [EvSleep] end ++ l2)%list).
Proof.
  intros Hrun. cbn [retry_loop].
  rewrite (bind_run _ _ _ _ _ _ Hrun).
  destruct o as [success output]. cbn [fst snd].
  destruct success.
  - unfold ret. rewrite app_nil_r. reflexivity.
  - destruct (stops_retrying output).
    + unfold ret. rewrite app_nil_r. reflexivity.
    + destruct k as [|k'].
      * rewrite bind_ret.
        destruct (retry_loop command timeout 0 output s1) as [[b s2] l2].
        reflexivity.
      * unfold sleep, log. unfold bind at 1.
        destruct (retry_loop command timeout (S k') output s1) as [[b s2] l2].
        reflexivity.
Qed.

(** [_run_command_with_retry] with an explicit number of attempts. *)
Lemma run_with_retry_some (command : list str) (timeout n : Z) (s : Sys World) :
  _run_command_with_retry command timeout (Some n) s
  = retry_loop command timeout (Z.to_nat n) "" s.
Proof.
  unfold _run_command_with_retry. rewrite bind_self. reflexivity.
Qed.

Lemma run_with_retry_none (command : list str) (timeout : Z) (s : Sys World) :
  _run_command_with_retry command timeout None s
  = retry_loop command timeout (Z.to_nat (max_retries (mgr s))) "" s.
Proof.
  unfold _run_command_with_retry. rewrite bind_self. reflexivity.
Qed.

(** What a run of the retry loop leaves behind: the manager is untouched,
    and the interactions are spawns of the one command and sleeps. *)
Lemma retry_loop_frame (command : list str) (timeout : Z) (k : nat) :
  forall (last_error : str) (s : Sys World),
    mgr (state_of (retry_loop command timeout k last_error s)) = mgr s
    /\ Forall (retry_event command timeout)
              (trace_of (retry_loop command timeout k last_error s)).
Proof.
  induction k as [|k IH]; intros last_error s.
  - simpl. split; [reflexivity | constructor].
  - destruct (run_command_shape command timeout s) as [o [w Hrun]].
    rewrite (retry_loop_step _ _ _ _ _ _ _ _ Hrun).
    assert (Hev : retry_event command timeout (EvRun ("pkexec" :: command) timeout o))
      by (right; eexists; reflexivity).
    destruct (fst o);
      [split; [reflexivity | unfold trace_of; cbn [snd]; constructor; [exact Hev | constructor]]|].
    destruct (stops_retrying (snd o));
      [split; [reflexivity | unfold trace_of; cbn [snd]; constructor; [exact Hev | constructor]]|].
    specialize (IH (snd o) (mkSys (mgr s) w)).
    destruct (retry_loop command timeout k (snd o) (mkSys (mgr s) w)) as [[b s2] l2].
    unfold state_of, trace_of in *. cbn [fst snd] in *.
    destruct IH as [IHm IHt]. split; [exact IHm|].
    constructor; [exact Hev|].
    apply Forall_app. split; [|exact IHt].
    destruct k; [constructor|].
    constructor; [left; reflexivity | constructor].
Qed.

Lemma run_with_retry_frame (command : list str) (timeout : Z)
      (arg : option Z) (s : Sys World) :
  mgr (state_of (_run_command_with_retry command timeout arg s)) = mgr s
  /\ Forall (retry_event command timeout)
            (trace_of (_run_command_with_retry command timeout arg s)).
Proof.
  destruct arg as [n|];
    [rewrite run_with_retry_some | rewrite run_with_retry_none];
    apply retry_loop_frame.
Qed.

Lemma retry_events_runs (command : list str) (timeout : Z) (l : list Event) :
  Forall (retry_event command timeout) l ->
  Forall (fun argv => argv = "pkexec" :: command) (runs l).
Proof.
  induction 1 as [|e l He _ IH]; simpl; [constructor|].
  destruct He as [-> | [o ->]]; simpl; [exact IH|].
  constructor; [reflexivity | exact IH].
Qed.

End RetryFacts.

Section RetryPolicy.

Context {World : Type} {platform : Platform World}.

Lemma run_command_trace (command : list str) (timeout : Z)
      (s s1 : Sys World) (o : bool * str) (l1 : list Event) :
  _run_command command timeout s = (o, s1, l1) ->
  l1 = [EvRun ("pkexec" :: command) timeout o] /\ mgr s1 = mgr s.
Proof.
  intros Hrun. destruct (run_command_shape command timeout s) as [o' [w Hshape]].
  rewrite Hshape in Hrun. inversion Hrun; subst. split; reflexivity.
Qed.

Lemma all_failed_sleep : all_failed [EvSleep].
Proof. constructor; [discriminate | constructor]. Qed.

Lemma all_failed_run (argv : list str) (t : Z) (o : bool * str) :
  all_failed [EvRun argv t o] <-> fst o = false.
Proof.
  split.
  - intros H. inversion H as [|e l He _]; subst. exact (He _ _ _ eq_refl).
  - intros H. constructor; [|constructor]. intros a t' o' E. inversion E; subst. exact H.
Qed.

(** The loop returns what its last spawn returned (or, with no attempt
    left, the failure it was handed), and a failure exactly when every
    spawn failed. *)
Lemma retry_loop_result (command : list str) (timeout : Z) (k : nat) :
  forall (last_error : str) (s s' : Sys World) (r : bool * str) (l : list Event),
    retry_loop command timeout k last_error s = (r, s', l) ->
    last_outcome l = match l with [] => None | _ => Some r end
    /\ (l = [] -> r = (false, last_error))
    /\ (k <> O -> l <> [])
    /\ (fst r = false <-> all_failed l).
Proof.
  induction k as [|k IH]; intros last_error s s' r l Hloop.
  - simpl in Hloop. unfold ret in Hloop. inversion Hloop; subst.
    repeat split; try reflexivity; try congruence. intros _. constructor.
  - destruct (run_command_shape command timeout s) as [o [w Hrun]].
    rewrite (retry_loop_step _ _ _ _ _ _ _ _ Hrun) in Hloop.
    destruct o as [success output]. cbn [fst snd] in Hloop.
    destruct success.
    { inversion Hloop; subst.
      split; [reflexivity|]. split; [discriminate|]. split; [discriminate|].
      split; intros H; [discriminate H|].
      apply all_failed_run in H. discriminate H. }
    destruct (stops_retrying output).
    { inversion Hloop; subst.
      split; [reflexivity|]. split; [discriminate|]. split; [discriminate|].
      split; intros _; [|reflexivity].
      apply all_failed_run. reflexivity. }
    destruct (retry_loop command timeout k output (mkSys (mgr s) w))
      as [[b s2] l2] eqn:Hrest.
    inversion Hloop; subst. clear Hloop.
    destruct (IH _ _ _ _ _ Hrest) as (Hlast & Hnil & _ & Hfail).
    change ([EvRun ("pkexec" :: command) timeout (false, output)]
              ++ match k with O => [] | S _ => [EvSleep] end ++ l2)%list
      with (EvRun ("pkexec" :: command) timeout (false, output)
              :: (match k with O => [] | S _ => [EvSleep] end ++ l2))%list.
    split; [|split; [discriminate|split; [discriminate|split]]].
    + cbn [last_outcome]. rewrite last_outcome_app, Hlast.
      destruct l2 as [|e l2]; [|reflexivity].
      rewrite (Hnil eq_refl). destruct k; reflexivity.
    + intros Hr. apply Hfail in Hr.
      constructor; [intros a t o E; inversion E; reflexivity|].
      apply Forall_app. split; [|exact Hr].
      destruct k; [constructor | apply all_failed_sleep].
    + intros Hall. apply Hfail. inversion Hall as [|e l' _ Hl']; subst.
      apply Forall_app in Hl'. exact (proj2 Hl').
Qed.

Lemma stop_marker_stops (output : str) :
  has_stop_marker output -> stops_retrying output = true.
Proof.
  unfold has_stop_marker, stops_retrying.
  intros [H | [H | H]]; rewrite H; repeat rewrite orb_true_r; reflexivity.
Qed.

End RetryPolicy.

Section RetryClaim.

Context {World : Type} {platform : Platform World}.

(** C4 (amended).  With at least one attempt allowed, [_run_command_with_retry]
    returns what its last spawn returned, and returns a failure exactly when
    every spawn failed, so that an exhausted or abandoned retry carries the
    last failure's output; a first failure whose output holds the timeout
    marker, "not found" or "authentication canceled" ends the call after
    that single spawn; and with at least three attempts allowed, two
    failures without such a marker followed by a success give the
    success, its output, and exactly three spawns. *)
Theorem retry_policy (command : list str) (timeout n : Z) (s : Sys World) :
  1 <= n ->
  (forall r s' l,
      _run_command_with_retry command timeout (Some n) s = (r, s', l) ->
      last_outcome l = Some r /\ (fst r = false <-> all_failed l))
  /\ (forall o s1 l1,
         _run_command command timeout s = ((false, o), s1, l1) ->
         has_stop_marker o ->
         _run_command_with_retry command timeout (Some n) s = ((false, o), s1, l1)
         /\ List.length (runs l1) = 1%nat)
  /\ (3 <= n ->
      forall o1 s1 l1 o2 s2 l2 out s3 l3,
        _run_command command timeout s = ((false, o1), s1, l1) ->
        stops_retrying o1 = false ->
        _run_command command timeout s1 = ((false, o2), s2, l2) ->
        stops_retrying o2 = false ->
        _run_command command timeout s2 = ((true, out), s3, l3) ->
        _run_command_with_retry command timeout (Some n) s
        = ((true, out), s3, (l1 ++ [EvSleep] ++ l2 ++ [EvSleep] ++ l3)%list)
        /\ List.length (runs (l1 ++ [EvSleep] ++ l2 ++ [EvSleep] ++ l3)) = 3%nat).
Proof.
  intros Hn. rewrite run_with_retry_some.
  destruct (Z.to_nat n) as [|k] eqn:Hk; [lia|].
  split; [|split].
  - intros r s' l Hloop.
    destruct (retry_loop_result _ _ _ _ _ _ _ _ Hloop) as (Hlast & _ & Hne & Hfail).
    split; [|exact Hfail].
    rewrite Hlast. destruct l; [|reflexivity].
    exfalso. apply Hne; [discriminate | reflexivity].
  - intros o s1 l1 Hrun Hmark.
    rewrite (retry_loop_step _ _ _ _ _ _ _ _ Hrun). cbn [fst snd].
    rewrite (stop_marker_stops _ Hmark).
    split; [reflexivity|].
    destruct (run_command_trace _ _ _ _ _ _ Hrun) as [-> _]. reflexivity.
  - intros Hn3 o1 s1 l1 o2 s2 l2 out s3 l3 H1 Hr1 H2 Hr2 H3.
    destruct k as [|[|k]]; [lia | lia |].
    rewrite (retry_loop_step _ _ _ _ _ _ _ _ H1). cbn [fst snd]. rewrite Hr1.
    rewrite (retry_loop_step _ _ _ _ _ _ _ _ H2). cbn [fst snd]. rewrite Hr2.
    rewrite (retry_loop_step _ _ _ _ _ _ _ _ H3). cbn [fst snd].
    split; [reflexivity|].
    destruct (run_command_trace _ _ _ _ _ _ H1) as [-> _].
    destruct (run_command_trace _ _ _ _ _ _ H2) as [-> _].
    destruct (run_command_trace _ _ _ _ _ _ H3) as [-> _].
    reflexivity.
Qed.

End RetryClaim.

(** C4, at concrete scripts: three attempts over [flaky] succeed with three
    spawns, and over [missing_tool] a single spawn is made. *)
Lemma retry_policy_witness :
  1 <= 3
  /\ (exists s' l,
         _run_command_with_retry ["wg"; "show"] 30 (Some 3) flaky = ((true, "out"), s', l)
         /\ List.length (runs l) = 3%nat)
  /\ (exists s' l,
         _run_command_with_retry ["wg"; "show"] 30 (Some 3) missing_tool
         = ((false, "pkexec: wg: command not found"), s', l)
         /\ List.length (runs l) = 1%nat
         /\ last_outcome l = Some (false, "pkexec: wg: command not found")).
Proof.
  split; [lia|]. split.
  - destruct (retry_policy ["wg"; "show"] 30 3 flaky ltac:(lia)) as (_ & _ & Ha).
    eexists; eexists.
    eapply Ha; [lia | reflexivity | reflexivity | reflexivity | reflexivity | reflexivity].
  - destruct (retry_policy ["wg"; "show"] 30 3 missing_tool ltac:(lia)) as (Hc & Hb & _).
    eexists; eexists.
    assert (Hm : has_stop_marker "pkexec: wg: command not found")
      by (right; left; reflexivity).
    destruct (Hb _ _ _ eq_refl Hm) as [Hrun Hlen].
    split; [exact Hrun|]. split; [exact Hlen|].
    exact (proj1 (Hc _ _ _ Hrun)).
Defined.

(** C4 as stated fails for fewer than three attempts: with two attempts
    allowed, the runner that fails twice and would succeed on its third call
    is spawned twice, and the call returns the second failure. *)
Lemma retry_two_attempts_counterexample :
  1 <= 2
  /\ result_of (_run_command_with_retry ["wg"; "show"] 30 (Some 2) flaky) = (false, "e2")
  /\ List.length (runs (trace_of (_run_command_with_retry ["wg"; "show"] 30 (Some 2) flaky)))
     = 2%nat.
Proof.
  split; [lia|]. split; reflexivity.
Qed.

(** The lower-cased output never holds the capitalised "Permission denied":
    that disjunct of the loop's test is dead. *)
Lemma permission_denied_never_matches (output : str) :
  PyStr.contains "Permission denied" (PyStr.lower output) = false.
Proof.
  pose proof (lowered_not_capital _ _ (lower_lowered output)) as H.
  induction (PyStr.lower output) as [|c r IH]; [reflexivity|].
  cbn [all_chars] in H. apply andb_true_iff in H. destruct H as [Hc Hr].
  cbn [PyStr.contains].
  replace (Str.prefix "Permission denied" (String c r)) with false; [exact (IH Hr)|].
  cbn [Str.prefix].
  destruct (Char.dec "P" c) as [E|_]; [|reflexivity].
  subst c. vm_compute in Hc. discriminate.
Qed.

(** A permission failure is therefore retried like any other failure. *)
Example permission_denied_is_retried :
  List.length
    (runs (trace_of (_run_command_with_retry ["wg"; "show"] 30 (Some 3)
                       (scripted_sys None [] (fails "bash: /usr/bin/wg: Permission denied")))))
  = 3%nat.
Proof. reflexivity. Qed.

(** ** The profile registry *)

Lemma mem_In (x : str) (l : list str) : PyStr.mem x l = true <-> In x l.
Proof.
  unfold PyStr.mem. rewrite existsb_exists. split.
  - intros [y [Hy E]]. apply str_eqb_eq in E. subst. exact Hy.
  - intros H. exists x. split; [exact H | apply str_eqb_refl].
Qed.

Section RegistryFacts.

Context {World : Type} {platform : Platform World}.

(** A configured name exists, and nothing is asked of the file system. *)
Lemma check_profile_exists_configured (profile_name : str) (s : Sys World) :
  In profile_name (profiles (mgr s)) ->
  check_profile_exists profile_name s = (true, s, []).
Proof.
  intros Hin. unfold check_profile_exists. rewrite bind_self.
  apply mem_In in Hin. rewrite Hin. reflexivity.
Qed.

(** Any other name costs one look at the file system, and an error of
    that look counts as absence. *)
Lemma check_profile_exists_other (profile_name : str) (s : Sys World) :
  PyStr.mem profile_name (profiles (mgr s)) = false ->
  check_profile_exists profile_name s =
  (match path_exists (path_join (config_dir (mgr s)) (profile_name ++ ".conf")) (world s) with
   | ExistsOk b => b
   | ExistsPermissionError | ExistsError _ => false
   end, s,
   [EvExists (path_join (config_dir (mgr s)) (profile_name ++ ".conf"))]).
Proof.
  intros Hmem. unfold check_profile_exists. rewrite bind_self, Hmem.
  unfold bind, log, ask, ret.
  destruct (path_exists _ (world s)) as [b| |e]; reflexivity.
Qed.

(** The existence check never changes the state and never spawns. *)
Lemma check_profile_exists_frame (profile_name : str) (s : Sys World) :
  state_of (check_profile_exists profile_name s) = s
  /\ runs (trace_of (check_profile_exists profile_name s)) = [].
Proof.
  destruct (PyStr.mem profile_name (profiles (mgr s))) eqn:Hmem.
  - apply mem_In in Hmem. rewrite (check_profile_exists_configured _ _ Hmem).
    split; reflexivity.
  - rewrite (check_profile_exists_other _ _ Hmem). split; reflexivity.
Qed.

(** Nor does validation. *)
Lemma validate_profile_frame (profile_name : str) (s : Sys World) :
  state_of (validate_profile profile_name s) = s
  /\ runs (trace_of (validate_profile profile_name s)) = [].
Proof.
  unfold validate_profile.
  destruct (check_profile_exists profile_name s) as [[ex s1] l1] eqn:Hex.
  pose proof (check_profile_exists_frame profile_name s) as [Hs Hl].
  rewrite Hex in Hs, Hl. unfold state_of, trace_of in Hs, Hl. cbn [fst snd] in Hs, Hl.
  subst s1.
  rewrite (bind_run _ _ _ _ _ _ Hex).
  destruct ex; cbn [negb].
  - rewrite bind_self. unfold bind, log, ask, ret.
    destruct (path_read_text _ (world s)) as [content| | |e];
      try destruct (negb (PyStr.contains "[Interface]" content));
      try destruct (PyStr.mem profile_name (profiles (mgr s)));
      unfold state_of, trace_of; cbn [fst snd];
      (split; [reflexivity | rewrite runs_app, Hl; reflexivity]).
  - unfold ret, state_of, trace_of. cbn [fst snd].
    split; [reflexivity | rewrite runs_app, Hl; reflexivity].
Qed.

End RegistryFacts.

(** ** Status derivation *)

Lemma option_string_eqb_spec (a : option str) (b : str) :
  option_string_eqb a b = true <-> a = Some b.
Proof.
  destruct a as [x|]; simpl.
  - rewrite str_eqb_eq. split; [intros ->; reflexivity | intros E; inversion E; reflexivity].
  - split; discriminate.
Qed.

Lemma match_profile_In (profs : list str) (interface p : str) :
  match_profile profs interface = Some p -> In p profs.
Proof.
  induction profs as [|q profs IH]; simpl; [discriminate|].
  destruct (PyStr.contains (PyStr.lower q) (PyStr.lower interface)).
  - intros E. inversion E. left; reflexivity.
  - intros E. right. exact (IH E).
Qed.

Lemma scan_interfaces_In (profs lines : list str) (p : str) :
  scan_interfaces profs lines = Some p -> In p profs.
Proof.
  induction lines as [|line lines IH]; simpl; [discriminate|].
  destruct (PyStr.contains "interface:" (PyStr.lower line)); [|exact IH].
  destruct (match_profile profs _) as [q|] eqn:Hq; [|exact IH].
  intros E. inversion E; subst. exact (match_profile_In _ _ _ Hq).
Qed.

Section StatusFacts.

Context {World : Type} {platform : Platform World}.

(** [get_active_profile] in terms of the outcome of its status query. *)
Lemma get_active_profile_run (s s1 : Sys World) (r : bool * str) (l : list Event) :
  _run_command_with_retry ["wg"; "show"] (timeout_wg_show (mgr s)) None s = (r, s1, l) ->
  get_active_profile s =
  if fst r
  then (parse_active (profiles (mgr s)) (snd r),
        mkSys (with_active (parse_active (profiles (mgr s)) (snd r)) (mgr s1)) (world s1),
        l)
  else (None, s1, l).
Proof.
  intros Hrun. unfold get_active_profile. rewrite bind_self.
  rewrite (bind_run _ _ _ _ _ _ Hrun).
  destruct r as [success output]. cbn [fst snd].
  destruct success; cbn [negb].
  - unfold bind, set_active_profile, ret. rewrite app_nil_r. reflexivity.
  - unfold ret. rewrite app_nil_r. reflexivity.
Qed.

(** The derivation keeps the configuration of the manager, spawns nothing
    but the status query, and can only name a configured profile. *)
Lemma get_active_profile_frame (s s1 : Sys World) (active : option str) (l : list Event) :
  get_active_profile s = (active, s1, l) ->
  profiles (mgr s1) = profiles (mgr s)
  /\ config_dir (mgr s1) = config_dir (mgr s)
  /\ Forall (fun argv => argv = ["pkexec"; "wg"; "show"]) (runs l)
  /\ (forall p, active = Some p -> In p (profiles (mgr s))).
Proof.
  destruct (_run_command_with_retry ["wg"; "show"] (timeout_wg_show (mgr s)) None s)
    as [[r s0] l0] eqn:Hrun.
  pose proof (run_with_retry_frame ["wg"; "show"] (timeout_wg_show (mgr s)) None s)
    as [Hm Hev].
  rewrite Hrun in Hm, Hev. unfold state_of, trace_of in Hm, Hev. cbn [fst snd] in Hm, Hev.
  apply retry_events_runs in Hev.
  rewrite (get_active_profile_run _ _ _ _ Hrun).
  destruct (fst r); intros E; inversion E; subst; cbn [mgr with_active profiles config_dir];
    rewrite Hm; repeat split; try exact Hev.
  - intros p Hp. exact (scan_interfaces_In _ _ _ Hp).
  - intros p Hp. discriminate Hp.
Qed.

(** [get_profile_status] in terms of the derived active profile. *)
Lemma get_profile_status_run (profile_name : str) (s s1 : Sys World)
      (active : option str) (l1 : list Event) :
  get_active_profile s = (active, s1, l1) ->
  get_profile_status profile_name s =
  if option_string_eqb active profile_name then (ACTIVE, s1, l1)
  else let '(ex, s2, l2) := check_profile_exists profile_name s1 in
       (if ex then INACTIVE else ERROR, s2, (l1 ++ l2)%list).
Proof.
  intros Hact. unfold get_profile_status.
  rewrite (bind_run _ _ _ _ _ _ Hact).
  destruct (option_string_eqb active profile_name).
  - unfold ret. rewrite app_nil_r. reflexivity.
  - unfold bind at 1.
    destruct (check_profile_exists profile_name s1) as [[ex s2] l2].
    destruct ex; cbn [negb]; unfold ret; rewrite app_nil_r; reflexivity.
Qed.

(** C6.  [get_profile_status] answers ACTIVE when the freshly derived
    active profile is the name asked for, and then makes no existence
    check at all: its state and interactions are those of the derivation.
    Otherwise it makes the existence check on the state the derivation
    left, and answers ERROR when the check fails and INACTIVE when it
    passes; so a name that is not the active profile and fails the check
    is reported ERROR, never INACTIVE. *)
Theorem profile_status_cases (profile_name : str) (s s1 : Sys World)
        (active : option str) (l1 : list Event) :
  get_active_profile s = (active, s1, l1) ->
  (active = Some profile_name ->
   get_profile_status profile_name s = (ACTIVE, s1, l1))
  /\ (active <> Some profile_name ->
      get_profile_status profile_name s =
      (if result_of (check_profile_exists profile_name s1) then INACTIVE else ERROR,
       s1,
       (l1 ++ trace_of (check_profile_exists profile_name s1))%list)
      /\ (result_of (check_profile_exists profile_name s1) = false ->
          result_of (get_profile_status profile_name s) = ERROR)).
Proof.
  intros Hact. rewrite (get_profile_status_run _ _ _ _ _ Hact). split.
  - intros E. apply option_string_eqb_spec in E. rewrite E. reflexivity.
  - intros NE.
    destruct (option_string_eqb active profile_name) eqn:E;
      [apply option_string_eqb_spec in E; contradiction|].
    pose proof (check_profile_exists_frame profile_name s1) as [Hs _].
    destruct (check_profile_exists profile_name s1) as [[ex s2] l2].
    unfold state_of, result_of, trace_of in *. cbn [fst snd] in *. subst s2.
    split; [reflexivity|]. intros ->. reflexivity.
Qed.

End StatusFacts.

(** C6, at a concrete world: the active profile, an inactive configured
    one, and a name that is neither configured nor on disk. *)
Lemma profile_status_cases_witness :
  result_of (get_profile_status "bomBox" bombox_up) = ACTIVE
  /\ result_of (get_profile_status "App" bombox_up) = INACTIVE
  /\ result_of (get_profile_status "ghost" bombox_up) = ERROR.
Proof.
  split; [|split].
  - edestruct (profile_status_cases "bomBox" bombox_up) as [Ha _]; [reflexivity|].
    rewrite (Ha eq_refl). reflexivity.
  - edestruct (profile_status_cases "App" bombox_up) as [_ Hn]; [reflexivity|].
    destruct (Hn ltac:(discriminate)) as [Hs _].
    rewrite Hs. reflexivity.
  - edestruct (profile_status_cases "ghost" bombox_up) as [_ Hn]; [reflexivity|].
    destruct (Hn ltac:(discriminate)) as [_ He].
    apply He. reflexivity.
Defined.

Section StatusClaims.

Context {World : Type} {platform : Platform World}.

(** C10.  When the retry-wrapped status query fails, [get_active_profile]
    returns [None], and [get_profile_status] answers INACTIVE for every
    configured profile name: neither ERROR nor UNKNOWN is reported, and
    nothing beyond the failed query is done. *)
Theorem status_query_failure (s s1 : Sys World) (msg : str) (l : list Event) :
  _run_command_with_retry ["wg"; "show"] (timeout_wg_show (mgr s)) None s
  = ((false, msg), s1, l) ->
  get_active_profile s = (None, s1, l)
  /\ forall profile_name,
      In profile_name (profiles (mgr s)) ->
      get_profile_status profile_name s = (INACTIVE, s1, l).
Proof.
  intros Hrun.
  pose proof (get_active_profile_run _ _ _ _ Hrun) as Hact. cbn [fst] in Hact.
  split; [exact Hact|].
  intros profile_name Hin.
  rewrite (get_profile_status_run _ _ _ _ _ Hact). cbn [option_string_eqb].
  pose proof (run_with_retry_frame ["wg"; "show"] (timeout_wg_show (mgr s)) None s)
    as [Hm _].
  rewrite Hrun in Hm. unfold state_of in Hm. cbn [fst snd] in Hm.
  rewrite <- Hm in Hin.
  rewrite (check_profile_exists_configured _ _ Hin).
  rewrite app_nil_r. reflexivity.
Qed.

Lemma any_profile_exists_configured (profs : list str) (s : Sys World) :
  profs <> [] ->
  (forall p, In p profs -> In p (profiles (mgr s))) ->
  any_profile_exists profs s = (true, s, []).
Proof.
  destruct profs as [|p rest]; [congruence|].
  intros _ Hsub. cbn [any_profile_exists].
  rewrite (bind_run _ _ _ _ _ _
             (check_profile_exists_configured p s (Hsub p (or_introl eq_refl)))).
  reflexivity.
Qed.

Lemma missing_commands_frame (cmds : list str) (s : Sys World) :
  state_of (missing_commands cmds s) = s
  /\ forall x, In x (result_of (missing_commands cmds s)) ->
               exists c, x = Msg.cmd_not_found c.
Proof.
  induction cmds as [|cmd rest IH]; cbn [missing_commands].
  - split; [reflexivity | intros x []].
  - rewrite bind_log, bind_ask. unfold bind, ret.
    destruct (missing_commands rest s) as [[others s2] l2].
    unfold state_of, result_of in *. cbn [fst snd] in *.
    destruct IH as [-> IH]. split; [reflexivity|].
    intros x Hx. destruct (shutil_which cmd (world s)); [exact (IH x Hx)|].
    destruct Hx as [<- | Hx]; [eexists; reflexivity | exact (IH x Hx)].
Qed.

Lemma config_dir_checks_frame (s : Sys World) :
  state_of (config_dir_checks s) = s
  /\ forall l x, result_of (config_dir_checks s) = Some l -> In x l ->
                 x = Msg.no_config_dir (config_dir (mgr s)).
Proof.
  unfold config_dir_checks. rewrite bind_self.
  unfold bind, log, ask, ret, state_of, result_of.
  destruct (path_exists (config_dir (mgr s)) (world s)) as [[|]| |e]; cbn [fst snd];
    (split; [reflexivity|]); intros l x E Hx; inversion E; subst;
    try contradiction.
  destruct Hx as [<- | []]. reflexivity.
Qed.

(** C9.  For a name of the configured list, [check_profile_exists] is
    true without any look at the file system; hence, the list being
    non-empty, the [any] of [check_system_ready] is true at once and its
    list of problems never holds the "no profile" message; and
    [get_profile_status] never answers ERROR for that name. *)
Theorem configured_profile_exists (profile_name : str) (s : Sys World) :
  In profile_name (profiles (mgr s)) ->
  check_profile_exists profile_name s = (true, s, [])
  /\ any_profile_exists (profiles (mgr s)) s = (true, s, [])
  /\ (forall checks, result_of (system_checks s) = Some checks ->
                     ~ In Msg.no_profile checks)
  /\ (forall msg, result_of (check_system_ready s) = Some (false, msg) ->
                  exists checks, result_of (system_checks s) = Some checks
                                 /\ msg = PyStr.join "; " checks)
  /\ result_of (get_profile_status profile_name s) <> ERROR.
Proof.
  intros Hin.
  assert (Hne : profiles (mgr s) <> []) by (intros E; rewrite E in Hin; exact Hin).
  split; [exact (check_profile_exists_configured _ _ Hin)|].
  split; [exact (any_profile_exists_configured _ _ Hne (fun p H => H))|].
  split; [|split].
  - intros checks. unfold system_checks. rewrite bind_self.
    pose proof (missing_commands_frame ["wg"; "wg-quick"; "pkexec"] s) as [Hs1 Hmiss].
    destruct (missing_commands ["wg"; "wg-quick"; "pkexec"] s) as [[missing s1] l1] eqn:E1.
    unfold state_of, result_of in Hs1, Hmiss. cbn [fst snd] in Hs1, Hmiss. subst s1.
    rewrite (bind_run _ _ _ _ _ _ E1).
    pose proof (config_dir_checks_frame s) as [Hs2 Hdir].
    destruct (config_dir_checks s) as [[dir s2] l2] eqn:E2.
    unfold state_of, result_of in Hs2, Hdir. cbn [fst snd] in Hs2, Hdir. subst s2.
    rewrite (bind_run _ _ _ _ _ _ E2).
    destruct dir as [dir_checks|]; [|unfold ret, result_of; cbn; discriminate].
    rewrite (bind_run _ _ _ _ _ _
               (any_profile_exists_configured _ _ Hne (fun p H => H))).
    unfold ret, result_of. cbn [fst snd negb].
    intros E. inversion E; subst. clear E.
    rewrite app_nil_r. intros Hbad. apply in_app_or in Hbad.
    destruct Hbad as [Hbad | Hbad].
    + destruct (Hmiss _ Hbad) as [c Hc]. discriminate Hc.
    + pose proof (Hdir _ _ eq_refl Hbad) as Hc. discriminate Hc.
  - intros msg. unfold check_system_ready. unfold bind.
    destruct (system_checks s) as [[checks s1] l1].
    unfold result_of. cbn [fst snd].
    destruct checks as [[|c cs]|]; unfold ret; cbn [fst snd]; intros E;
      inversion E; subst.
    eexists. split; reflexivity.
  - destruct (get_active_profile s) as [[active s1] l1] eqn:Hact.
    rewrite (get_profile_status_run _ _ _ _ _ Hact).
    destruct (option_string_eqb active profile_name); [discriminate|].
    destruct (get_active_profile_frame _ _ _ _ Hact) as (Hp & _).
    rewrite <- Hp in Hin.
    rewrite (check_profile_exists_configured _ _ Hin).
    discriminate.
Qed.

End StatusClaims.

(** ** Activation *)

Section ActivationClaims.

Context {World : Type} {platform : Platform World}.

(** C8.  When the existence check fails for a name, [activate_profile]
    returns the failure "does not exist" for it; the state is untouched
    and no process is spawned: the one interaction is the look at the
    profile's path. *)
Theorem activate_nonexistent (profile_name : str) (s : Sys World) :
  result_of (check_profile_exists profile_name s) = false ->
  activate_profile profile_name s
  = ((false, Msg.not_exists profile_name), s,
     [EvExists (path_join (config_dir (mgr s)) (profile_name ++ ".conf"))])
  /\ runs (trace_of (activate_profile profile_name s)) = [].
Proof.
  intros Hex.
  destruct (PyStr.mem profile_name (profiles (mgr s))) eqn:Hmem.
  - apply mem_In in Hmem.
    rewrite (check_profile_exists_configured _ _ Hmem) in Hex. discriminate Hex.
  - pose proof (check_profile_exists_other _ _ Hmem) as Hother.
    rewrite Hother in Hex. unfold result_of in Hex. cbn [fst] in Hex.
    unfold activate_profile.
    rewrite (bind_run _ _ _ _ _ _ Hother), Hex. cbn [negb].
    unfold ret. split; reflexivity.
Qed.

(** C7 (amended).  When a name passes the existence check and the
    validation, and its freshly derived status is ACTIVE,
    [activate_profile] returns success with the "already active" message,
    and every process it spawned is the status query: neither an "up" nor
    a "down" command is run. *)
Theorem activate_already_active (profile_name : str) (s : Sys World) :
  result_of (check_profile_exists profile_name s) = true ->
  fst (result_of (validate_profile profile_name s)) = true ->
  result_of (get_profile_status profile_name s) = ACTIVE ->
  result_of (activate_profile profile_name s) = (true, Msg.already_active profile_name)
  /\ state_of (activate_profile profile_name s) = state_of (get_profile_status profile_name s)
  /\ Forall (fun argv => argv = ["pkexec"; "wg"; "show"])
            (runs (trace_of (activate_profile profile_name s))).
Proof.
  intros Hex Hval Hst.
  pose proof (check_profile_exists_frame profile_name s) as [Hs1 Hl1].
  destruct (check_profile_exists profile_name s) as [[ex s1] l1] eqn:E1.
  pose proof (validate_profile_frame profile_name s) as [Hs2 Hl2].
  destruct (validate_profile profile_name s) as [[[valid msg] s2] l2] eqn:E2.
  unfold result_of, state_of, trace_of in *. cbn [fst snd] in *. subst.
  destruct (get_profile_status profile_name s) as [[st s3] l3] eqn:E3.
  cbn [fst snd] in *. subst st.
  assert (Hl3 : Forall (fun argv => argv = ["pkexec"; "wg"; "show"]) (runs l3)).
  { destruct (get_active_profile s) as [[active s4] l4] eqn:E4.
    destruct (get_active_profile_frame _ _ _ _ E4) as (_ & _ & Hruns & _).
    rewrite (get_profile_status_run _ _ _ _ _ E4) in E3.
    destruct (option_string_eqb active profile_name).
    - inversion E3; subst. exact Hruns.
    - pose proof (check_profile_exists_frame profile_name s4) as [_ Hl5].
      destruct (check_profile_exists profile_name s4) as [[ex5 s5] l5].
      unfold trace_of in Hl5. cbn [snd] in Hl5.
      inversion E3; subst. rewrite runs_app, Hl5, app_nil_r. exact Hruns. }
  unfold activate_profile.
  rewrite (bind_run _ _ _ _ _ _ E1). cbn [negb].
  rewrite (bind_run _ _ _ _ _ _ E2). cbn [negb].
  rewrite (bind_run _ _ _ _ _ _ E3). cbn [ProfileStatus_eqb].
  unfold ret. cbn [fst snd].
  split; [reflexivity|]. split; [reflexivity|].
  rewrite !runs_app, Hl1, Hl2. cbn [runs app]. rewrite app_nil_r. exact Hl3.
Qed.

End ActivationClaims.

(** C7, at a concrete world: [App] is up and its configuration is sound. *)
Lemma activate_already_active_witness :
  result_of (activate_profile "App" (app_up "[Interface]"))
  = (true, Msg.already_active "App")
  /\ runs (trace_of (activate_profile "App" (app_up "[Interface]")))
     = [["pkexec"; "wg"; "show"]].
Proof.
  split.
  - apply (activate_already_active "App" (app_up "[Interface]")); reflexivity.
  - reflexivity.
Defined.

(** C7 as stated fails when validation does not pass: [App] is up, its
    derived status is ACTIVE, but its configuration file lacks the
    [[Interface]] section, and activation is refused as invalid. *)
Lemma activate_active_invalid_counterexample :
  result_of (get_profile_status "App" (app_up "PrivateKey = xxx")) = ACTIVE
  /\ result_of (activate_profile "App" (app_up "PrivateKey = xxx"))
     = (false, Msg.invalid "App" Msg.no_interface_section).
Proof.
  split; reflexivity.
Qed.

(** C8, at a concrete world: a name that is neither configured nor on disk. *)
Lemma activate_nonexistent_witness :
  result_of (activate_profile "ghost" bombox_up) = (false, Msg.not_exists "ghost")
  /\ runs (trace_of (activate_profile "ghost" bombox_up)) = [].
Proof.
  assert (Hex : result_of (check_profile_exists "ghost" bombox_up) = false) by reflexivity.
  destruct (activate_nonexistent "ghost" bombox_up Hex) as [Hr Ht].
  split; [rewrite Hr; reflexivity | exact Ht].
Defined.

(** C10, at a concrete world. *)
Lemma status_query_failure_witness :
  result_of (get_active_profile wg_missing) = None
  /\ result_of (get_profile_status "App" wg_missing) = INACTIVE
  /\ result_of (get_profile_status "usa" wg_missing) = INACTIVE.
Proof.
  edestruct (status_query_failure wg_missing) as [Ha Hs]; [reflexivity|].
  split; [rewrite Ha; reflexivity|].
  split; (rewrite Hs; [reflexivity | cbn; tauto]).
Defined.

(** C9, at a concrete world: nothing is on disk, and still the configured
    names exist. *)
Lemma configured_profile_exists_witness :
  check_profile_exists "usa" bombox_up = (true, bombox_up, [])
  /\ result_of (get_profile_status "usa" bombox_up) <> ERROR.
Proof.
  assert (Hin : In "usa" (profiles (mgr bombox_up))) by (cbn; tauto).
  destruct (configured_profile_exists "usa" bombox_up Hin) as (Hc & _ & _ & _ & Hs).
  split; [exact Hc | exact Hs].
Defined.

(** ** Facts about the str operations *)

(** A property of all 256 characters, by cases. *)

Lemma split_nonempty (sep : char) (s : str) : PyStr.split sep s <> [].
Proof.
  destruct s as [|c r]; cbn [PyStr.split]; [discriminate|].
  destruct (Char.eqb c sep); [discriminate|].
  destruct (PyStr.split sep r); discriminate.
Qed.

Lemma split_head_upto_colon (s : str) :
  nth 0 (PyStr.split ":" s) "" = Spec.upto_colon s.
Proof.
  induction s as [|c r IH]; [reflexivity|].
  cbn [PyStr.split Spec.upto_colon].
  destruct (Char.eqb c ":"); [reflexivity|].
  destruct (PyStr.split ":" r) as [|h t] eqn:E; [exfalso; exact (split_nonempty _ _ E)|].
  cbn [nth] in *. rewrite IH. reflexivity.
Qed.

Lemma split_second_after_colon (s : str) :
  nth 1 (PyStr.split ":" s) "" = Spec.after_first_colon s.
Proof.
  induction s as [|c r IH]; [reflexivity|].
  cbn [PyStr.split Spec.after_first_colon].
  destruct (Char.eqb c ":").
  - exact (split_head_upto_colon r).
  - destruct (PyStr.split ":" r) as [|h t] eqn:E; [exfalso; exact (split_nonempty _ _ E)|].
    cbn [nth] in *. exact IH.
Qed.

Lemma match_profile_find (profs : list str) (interface : str) :
  match_profile profs interface = Spec.first_matching profs interface.
Proof.
  unfold Spec.first_matching.
  induction profs as [|p profs IH]; [reflexivity|].
  cbn [match_profile find].
  destruct (PyStr.contains (PyStr.lower p) (PyStr.lower interface)); [reflexivity | exact IH].
Qed.

Lemma scan_interfaces_spec (profs lines : list str) :
  scan_interfaces profs lines
  = hd_error (flat_map (Spec.candidates profs) (filter Spec.has_interface_marker lines)).
Proof.
  induction lines as [|line lines IH]; [reflexivity|].
  cbn [scan_interfaces filter]. unfold Spec.has_interface_marker at 1.
  destruct (PyStr.contains "interface:" (PyStr.lower line)); [|exact IH].
  cbn [flat_map]. unfold Spec.candidates at 1, Spec.interface_token.
  rewrite split_second_after_colon, match_profile_find, strip_trim.
  destruct (Spec.first_matching profs _); [reflexivity | exact IH].
Qed.

(** *** The leading and trailing whitespace that the source strips from the
    output makes no difference to the scan *)

Lemma scan_cons_equiv (profs : list str) (l l' : str) (rest rest' : list str) :
  PyStr.contains "interface:" (PyStr.lower l) = PyStr.contains "interface:" (PyStr.lower l') ->
  PyStr.strip (nth 1 (PyStr.split ":" l) "") = PyStr.strip (nth 1 (PyStr.split ":" l') "") ->
  scan_interfaces profs rest = scan_interfaces profs rest' ->
  scan_interfaces profs (l :: rest) = scan_interfaces profs (l' :: rest').
Proof.
  intros Hc Ht Hr. cbn [scan_interfaces]. rewrite Hc, Ht, Hr. reflexivity.
Qed.

Lemma prefix_app_blank (pat l w : str) :
  spaceless pat = true -> blank w = true ->
  Str.prefix pat (l ++ w) = Str.prefix pat l.
Proof.
  intros Hp Hw. revert l. induction pat as [|p pat IH]; intros l.
  - destruct (l ++ w), l; reflexivity.
  - cbn [spaceless] in Hp. apply andb_true_iff in Hp. destruct Hp as [Hp Hpat].
    apply negb_true_iff in Hp.
    destruct l as [|c l]; cbn [Str.append Str.prefix].
    + destruct w as [|c w]; [reflexivity|].
      cbn [blank] in Hw. apply andb_true_iff in Hw. destruct Hw as [Hc _].
      cbn [Str.prefix].
      destruct (Char.dec p c) as [E|_]; [subst; congruence | reflexivity].
    + destruct (Char.dec p c); [apply IH; exact Hpat | reflexivity].
Qed.

Lemma contains_blank (pat w : str) :
  spaceless pat = true -> pat <> "" -> blank w = true -> PyStr.contains pat w = false.
Proof.
  intros Hp Hne Hw. destruct pat as [|p pat]; [congruence|].
  cbn [spaceless] in Hp. apply andb_true_iff in Hp. destruct Hp as [Hp _].
  apply negb_true_iff in Hp.
  induction w as [|c w IH]; [reflexivity|].
  cbn [blank] in Hw. apply andb_true_iff in Hw. destruct Hw as [Hc Hw].
  cbn [PyStr.contains Str.prefix].
  destruct (Char.dec p c) as [E|_]; [subst; congruence|].
  exact (IH Hw).
Qed.

Lemma contains_app_blank (pat l w : str) :
  spaceless pat = true -> pat <> "" -> blank w = true ->
  PyStr.contains pat (l ++ w) = PyStr.contains pat l.
Proof.
  intros Hp Hne Hw. induction l as [|c l IH].
  - cbn [Str.append]. rewrite (contains_blank _ _ Hp Hne Hw).
    destruct pat; [congruence | reflexivity].
  - change (String c l ++ w) with (String c (l ++ w)). cbn [PyStr.contains].
    change (String c (l ++ w)) with (String c l ++ w).
    rewrite (prefix_app_blank _ _ _ Hp Hw), IH. reflexivity.
Qed.

Lemma marker_app_blank (l w : str) :
  blank w = true ->
  PyStr.contains "interface:" (PyStr.lower (l ++ w))
  = PyStr.contains "interface:" (PyStr.lower l).
Proof.
  intros Hw. rewrite (lower_app_blank _ _ Hw).
  apply contains_app_blank; [reflexivity | discriminate | exact Hw].
Qed.

Lemma space_not_colon (c : char) : PyStr.is_space c = true -> Char.eqb c ":" = false.
Proof.
  intros H. destruct (space_facts c H) as (_ & _ & _ & _ & Hc & _). exact Hc.
Qed.

Lemma upto_colon_blank (w : str) : blank w = true -> Spec.upto_colon w = w.
Proof.
  induction w as [|c w IH]; cbn [blank Spec.upto_colon]; [reflexivity|].
  intros H. apply andb_true_iff in H. destruct H as [Hc Hw].
  rewrite (space_not_colon _ Hc), (IH Hw). reflexivity.
Qed.

Lemma after_first_colon_blank (w : str) : blank w = true -> Spec.after_first_colon w = "".
Proof.
  induction w as [|c w IH]; cbn [blank Spec.after_first_colon]; [reflexivity|].
  intros H. apply andb_true_iff in H. destruct H as [Hc Hw].
  rewrite (space_not_colon _ Hc). exact (IH Hw).
Qed.

Lemma upto_colon_app_blank (l w : str) :
  blank w = true ->
  exists w', blank w' = true /\ Spec.upto_colon (l ++ w) = Spec.upto_colon l ++ w'.
Proof.
  intros Hw. induction l as [|c l IH]; cbn [Str.append Spec.upto_colon].
  - exists w. split; [exact Hw | apply upto_colon_blank; exact Hw].
  - destruct (Char.eqb c ":").
    + exists "". split; reflexivity.
    + destruct IH as [w' [Hw' E]]. exists w'. split; [exact Hw'|].
      rewrite E. reflexivity.
Qed.

Lemma after_first_colon_app_blank (l w : str) :
  blank w = true ->
  exists w', blank w' = true
             /\ Spec.after_first_colon (l ++ w) = Spec.after_first_colon l ++ w'.
Proof.
  intros Hw. induction l as [|c l IH]; cbn [Str.append Spec.after_first_colon].
  - exists "". split; [reflexivity | apply after_first_colon_blank; exact Hw].
  - destruct (Char.eqb c ":"); [apply upto_colon_app_blank; exact Hw | exact IH].
Qed.

Lemma token_app_blank (l w : str) :
  blank w = true ->
  PyStr.strip (nth 1 (PyStr.split ":" (l ++ w)) "")
  = PyStr.strip (nth 1 (PyStr.split ":" l) "").
Proof.
  intros Hw. rewrite !split_second_after_colon.
  destruct (after_first_colon_app_blank l w Hw) as [w' [Hw' E]].
  rewrite E. apply strip_app_blank. exact Hw'.
Qed.

(** The lines of a blank text are blank, and the scan finds nothing in
    them. *)
Lemma split_blank (sep : char) (w : str) :
  blank w = true -> forallb blank (PyStr.split sep w) = true.
Proof.
  induction w as [|c w IH]; cbn [blank PyStr.split]; [reflexivity|].
  intros H. apply andb_true_iff in H. destruct H as [Hc Hw]. specialize (IH Hw).
  destruct (Char.eqb c sep); [cbn; exact IH|].
  destruct (PyStr.split sep w) as [|h t]; cbn in *; [rewrite Hc; reflexivity|].
  apply andb_true_iff in IH. destruct IH as [Hh Ht]. rewrite Hc, Hh, Ht. reflexivity.
Qed.

Lemma scan_blank_lines (profs lines : list str) :
  forallb blank lines = true -> scan_interfaces profs lines = None.
Proof.
  induction lines as [|l lines IH]; cbn [forallb scan_interfaces]; [reflexivity|].
  intros H. apply andb_true_iff in H. destruct H as [Hl Hls].
  rewrite (lower_blank _ Hl).
  rewrite (contains_blank "interface:" l eq_refl ltac:(discriminate) Hl).
  exact (IH Hls).
Qed.

(** Whitespace at the end of the text. *)
Lemma scan_app_blank (profs : list str) (x w : str) :
  blank w = true ->
  forall pre,
    scan_interfaces profs (prepend pre (PyStr.split LF (x ++ w)))
    = scan_interfaces profs (prepend pre (PyStr.split LF x)).
Proof.
  intros Hw. induction x as [|c x IH]; intros pre.
  - cbn [Str.append PyStr.split prepend].
    pose proof (split_blank LF w Hw) as Hb.
    destruct (PyStr.split LF w) as [|w0 ws] eqn:E;
      [exfalso; exact (split_nonempty _ _ E)|].
    cbn [forallb] in Hb. apply andb_true_iff in Hb. destruct Hb as [Hw0 Hws].
    cbn [prepend]. rewrite string_app_nil_r.
    apply scan_cons_equiv;
      [apply marker_app_blank; exact Hw0
      | apply token_app_blank; exact Hw0
      | apply scan_blank_lines; exact Hws].
  - change (String c x ++ w) with (String c (x ++ w)). cbn [PyStr.split].
    destruct (Char.eqb c LF).
    + cbn [prepend]. specialize (IH "").
      destruct (PyStr.split LF (x ++ w)) as [|h t] eqn:E1;
        [exfalso; exact (split_nonempty _ _ E1)|].
      destruct (PyStr.split LF x) as [|h' t'] eqn:E2;
        [exfalso; exact (split_nonempty _ _ E2)|].
      cbn [prepend Str.append] in IH.
      apply scan_cons_equiv; [reflexivity | reflexivity | exact IH].
    + specialize (IH (pre ++ String c "")).
      destruct (PyStr.split LF (x ++ w)) as [|h t] eqn:E1;
        [exfalso; exact (split_nonempty _ _ E1)|].
      destruct (PyStr.split LF x) as [|h' t'] eqn:E2;
        [exfalso; exact (split_nonempty _ _ E2)|].
      cbn [prepend] in *. rewrite !string_app_assoc in IH. exact IH.
Qed.

Lemma prepend_nil (lines : list str) : prepend "" lines = lines.
Proof. destruct lines; reflexivity. Qed.

Lemma rstrip_decompose (s : str) :
  exists w, blank w = true /\ s = PyStr.rstrip s ++ w.
Proof.
  induction s as [|c s IH]; [exists ""; split; reflexivity|].
  destruct IH as [w [Hw E]]. cbn [PyStr.rstrip].
  destruct (PyStr.is_space c) eqn:Hc; cbn [andb].
  - destruct (PyStr.rstrip s) eqn:R; cbn [PyStr.is_empty].
    + exists (String c w). split; [cbn; rewrite Hc, Hw; reflexivity|].
      cbn [Str.append] in *. rewrite <- E. reflexivity.
    + exists w. split; [exact Hw|]. cbn [Str.append] in *. rewrite <- E. reflexivity.
  - exists w. split; [exact Hw|]. cbn [Str.append]. rewrite <- E. reflexivity.
Qed.

Lemma scan_rstrip (profs : list str) (s : str) :
  scan_interfaces profs (PyStr.split LF (PyStr.rstrip s))
  = scan_interfaces profs (PyStr.split LF s).
Proof.
  destruct (rstrip_decompose s) as [w [Hw E]].
  rewrite E at 2.
  pose proof (scan_app_blank profs (PyStr.rstrip s) w Hw "") as H.
  rewrite !prepend_nil in H. symmetry. exact H.
Qed.

(** Whitespace at the start of the text. *)
Lemma marker_space_first (c : char) (l : str) :
  PyStr.is_space c = true ->
  PyStr.contains "interface:" (PyStr.lower (String c l))
  = PyStr.contains "interface:" (PyStr.lower l).
Proof.
  intros Hc. rewrite (lower_space_first _ _ Hc). cbn [PyStr.contains Str.prefix].
  destruct (Char.dec "i" c) as [E|_]; [|reflexivity].
  subst c. vm_compute in Hc. discriminate.
Qed.

Lemma token_not_colon_first (c : char) (l : str) :
  Char.eqb c ":" = false ->
  nth 1 (PyStr.split ":" (String c l)) "" = nth 1 (PyStr.split ":" l) "".
Proof.
  intros Hc. rewrite !split_second_after_colon. cbn [Spec.after_first_colon].
  rewrite Hc. reflexivity.
Qed.

Lemma scan_lstrip (profs : list str) (s : str) :
  scan_interfaces profs (PyStr.split LF (PyStr.lstrip s))
  = scan_interfaces profs (PyStr.split LF s).
Proof.
  induction s as [|c s IH]; [reflexivity|].
  cbn [PyStr.lstrip]. destruct (PyStr.is_space c) eqn:Hc; [|reflexivity].
  rewrite IH. cbn [PyStr.split].
  destruct (PyStr.split LF s) as [|h t] eqn:E; [exfalso; exact (split_nonempty _ _ E)|].
  destruct (Char.eqb c LF).
  - cbn [scan_interfaces]. reflexivity.
  - symmetry. apply scan_cons_equiv;
      [apply marker_space_first; exact Hc
      | rewrite (token_not_colon_first _ _ (space_not_colon _ Hc)); reflexivity
      | reflexivity].
Qed.

Lemma scan_strip (profs : list str) (output : str) :
  scan_interfaces profs (output_lines output)
  = scan_interfaces profs (PyStr.split LF output).
Proof.
  unfold output_lines, PyStr.strip. rewrite scan_rstrip. apply scan_lstrip.
Qed.

Lemma parse_active_spec (profs : list str) (output : str) :
  parse_active profs output = Spec.derive_active profs output.
Proof.
  unfold parse_active, Spec.derive_active.
  rewrite scan_strip. apply scan_interfaces_spec.
Qed.

Section DerivationClaim.

Context {World : Type} {platform : Platform World}.

(** C5.  When the status query succeeds with [output], the active profile
    derived is the one the specification describes: among the lines, in
    order, that hold the interface marker in any letter case, the first
    for which some configured profile name, lower-cased, occurs in the
    lower-cased and trimmed token after the first colon, and for that line
    the first such profile of the configured list; [None] when no line
    gives one.  This holds for every output and every list of profiles,
    in any script, with the lower case and the whitespace of Python.  With
    the profiles App, bomBox, usa, the output "interface: wg0" gives [None]
    and "interface: wg-bombox" gives bomBox. *)
Theorem active_profile_derivation (s s1 : Sys World) (output : str) (l : list Event) :
  _run_command_with_retry ["wg"; "show"] (timeout_wg_show (mgr s)) None s
  = ((true, output), s1, l) ->
  result_of (get_active_profile s) = Spec.derive_active (profiles (mgr s)) output
  /\ trace_of (get_active_profile s) = l
  /\ parse_active ["App"; "bomBox"; "usa"]
       ("interface: wg0" ++ newline ++ "public key: xxx") = None
  /\ parse_active ["App"; "bomBox"; "usa"]
       ("interface: wg-bombox" ++ newline ++ "public key: xxx") = Some "bomBox".
Proof.
  intros Hrun. rewrite (get_active_profile_run _ _ _ _ Hrun). cbn [fst snd].
  unfold result_of, trace_of. cbn [fst snd].
  split; [apply parse_active_spec|]. split; [reflexivity|].
  split; reflexivity.
Qed.

End DerivationClaim.

(** C5, at concrete worlds.  Mixed letter case in the marker and in the
    interface name, and an interface line without a match before it: the
    configured name " wg" occurs in " wg0" and in "  WG-BomBox-usa ", but
    not in these tokens trimmed, so that the second line gives bomBox.
    Then a Cyrillic name in another letter case; and a name and a token that
    start with a no-break space, which the trimming takes from the token. *)
Lemma active_profile_derivation_witness :
  result_of
    (get_active_profile
       (scripted_sys (Some [" wg"; "bomBox"]) []
          (succeeds ("Interface: wg0" ++ newline ++ "INTERFACE:  WG-BomBox-usa "))))
  = Some "bomBox"
  /\ result_of
       (get_active_profile
          (scripted_sys (Some ["Офис"]) [] (succeeds "interface: wg-офис")))
     = Some "Офис"
  /\ result_of
       (get_active_profile
          (scripted_sys (Some [String 160%N "wg"; "usa"]) []
             (succeeds ("interface:" ++ String 160%N "wg-usa"))))
     = Some "usa".
Proof.
  split; [|split].
  - edestruct (active_profile_derivation
                 (scripted_sys (Some [" wg"; "bomBox"]) []
                    (succeeds ("Interface: wg0" ++ newline
                               ++ "INTERFACE:  WG-BomBox-usa "))))
      as (Hr & _); [reflexivity|].
    rewrite Hr. vm_compute. reflexivity.
  - edestruct (active_profile_derivation
                 (scripted_sys (Some ["Офис"]) [] (succeeds "interface: wg-офис")))
      as (Hr & _); [reflexivity|].
    rewrite Hr. vm_compute. reflexivity.
  - edestruct (active_profile_derivation
                 (scripted_sys (Some [String 160%N "wg"; "usa"]) []
                    (succeeds ("interface:" ++ String 160%N "wg-usa"))))
      as (Hr & _); [reflexivity|].
    rewrite Hr. vm_compute. reflexivity.
Defined.

(** ** Bulk deactivation *)

(** C1, the code at a configured list other than the default one:
    [turn_off_all] reports that all profiles are off after bringing down
    App, bomBox and usa, and never attempts the configured [office]. *)
Theorem turn_off_all_ignores_configured :
  profiles (mgr office_only) = ["office"]
  /\ result_of (turn_off_all office_only) = (true, Msg.all_off)
  /\ runs (trace_of (turn_off_all office_only))
     = [["pkexec"; "wg-quick"; "down"; "App"];
        ["pkexec"; "wg-quick"; "down"; "bomBox"];
        ["pkexec"; "wg-quick"; "down"; "usa"]].
Proof.
  repeat split; reflexivity.
Qed.

(** ** Transfer counters *)

(** C2, the code at the line of its own comment: the counters of the active
    profile come out as 1 and 456, the numbers without their units, where the
    byte-size parser gives 1289748 and 467742 for the tokens with their
    units. *)
(** ** Transfer counters *)

(** C2, the code at the line of its own comment: the counters of the active
    profile come out as 1 and 456, the numbers without their units, where the
    byte-size parser gives 1289748 and 467742 for the tokens with their
    units. *)
Theorem transfer_counters_lose_unit :
  counters_of "App"
    (result_of (get_all_profiles_info (scripted_sys None [] (succeeds wg_show_app))))
  = Some (1, 456)
  /\ _parse_transfer "1.23 MiB" = 1289748
  /\ _parse_transfer "456.78 KiB" = 467742.
Proof.
  repeat split; vm_compute; reflexivity.
Qed.

(** ** Unit markers in a token *)

Lemma space_not_unit_letter (c : char) :
  PyStr.is_space c = true -> is_unit_letter c = false.
Proof.
  intros H.
  pose proof (space_cases (fun c => negb (is_unit_letter c))
                ltac:(vm_compute; reflexivity) c H) as Hc.
  apply negb_true_iff in Hc. exact Hc.
Qed.

Lemma unitless_blank (w : str) : blank w = true -> unitless w = true.
Proof.
  induction w as [|c w IH]; cbn; [reflexivity|].
  intros H. apply andb_true_iff in H. destruct H as [Hc Hw].
  rewrite (space_not_unit_letter _ Hc), (IH Hw). reflexivity.
Qed.


(** A pattern that starts with a unit letter is not found at a character
    that is not one. *)
Lemma prefix_unit_letter (pat : str) (c : char) (r : str) :
  starts_with_unit_letter pat = true -> is_unit_letter c = false ->
  Str.prefix pat (String c r) = false.
Proof.
  destruct pat as [|p pat]; cbn; [discriminate|].
  intros Hp Hc. destruct (Char.dec p c) as [E|_]; [|reflexivity].
  subst. congruence.
Qed.

Lemma contains_skip (pat a t : str) :
  starts_with_unit_letter pat = true -> unitless a = true ->
  PyStr.contains pat (a ++ t) = PyStr.contains pat t.
Proof.
  intros Hp. induction a as [|c a IH]; [reflexivity|].
  cbn [unitless]. intros H. apply andb_true_iff in H. destruct H as [Hc Ha].
  apply negb_true_iff in Hc.
  change (String c a ++ t) with (String c (a ++ t)).
  cbn [PyStr.contains]. rewrite (prefix_unit_letter _ _ _ Hp Hc). exact (IH Ha).
Qed.

Lemma remove_skip (pat a t : str) :
  starts_with_unit_letter pat = true -> unitless a = true ->
  PyStr.remove pat (a ++ t) = a ++ PyStr.remove pat t.
Proof.
  intros Hp. unfold PyStr.remove. induction a as [|c a IH]; [reflexivity|].
  cbn [unitless]. intros H. apply andb_true_iff in H. destruct H as [Hc Ha].
  apply negb_true_iff in Hc.
  change (String c a ++ t) with (String c (a ++ t)).
  cbn [PyStr.remove_from]. rewrite (prefix_unit_letter _ _ _ Hp Hc), (IH Ha). reflexivity.
Qed.

(** ** The grammar of [float] holds no unit letter *)

Lemma join_cons_char (sep : str) (c : char) (h : str) (t : list str) :
  PyStr.join sep (String c h :: t) = String c (PyStr.join sep (h :: t)).
Proof.
  destruct t; reflexivity.
Qed.

Lemma join_split (sep : char) (s : str) :
  PyStr.join (String sep "") (PyStr.split sep s) = s.
Proof.
  induction s as [|c r IH]; [reflexivity|].
  cbn [PyStr.split].
  destruct (PyStr.split sep r) as [|h t] eqn:S; [exfalso; exact (split_nonempty _ _ S)|].
  destruct (Char.eqb c sep) eqn:E.
  - apply char_eqb_eq in E. subst c.
    change (PyStr.join (String sep "") ("" :: h :: t))
      with (String sep (PyStr.join (String sep "") (h :: t))).
    rewrite IH. reflexivity.
  - rewrite join_cons_char, IH. reflexivity.
Qed.


(** ** The texts that [float] accepts *)

Lemma all_chars_impl (P Q : char -> bool) (s : str) :
  (forall c, P c = true -> Q c = true) -> all_chars P s = true -> all_chars Q s = true.
Proof.
  intros H. induction s as [|c s IH]; [reflexivity|]. cbn [all_chars].
  intros Hs. apply andb_true_iff in Hs. destruct Hs as [Hc Hs].
  rewrite (H c Hc), (IH Hs). reflexivity.
Qed.

Lemma digit_float_char (c : char) : PyFloat.is_digit c = true -> is_float_char c = true.
Proof.
  intros H. unfold is_float_char. rewrite H. reflexivity.
Qed.

Lemma digitpart_rest_chars (s : str) :
  forall acc cnt b r,
    PyFloat.digitpart_rest s acc cnt b = Some r -> all_chars is_float_char s = true.
Proof.
  induction s as [|c s IH]; [reflexivity|].
  intros acc cnt b r. cbn [PyFloat.digitpart_rest all_chars].
  destruct (PyFloat.is_digit c) eqn:D.
  - intros H. rewrite (digit_float_char _ D). exact (IH _ _ _ _ H).
  - destruct (Char.eqb c "_") eqn:U; cbn [andb]; [|discriminate].
    apply char_eqb_eq in U. subst c.
    destruct (negb b); [|discriminate].
    intros H. exact (IH _ _ _ _ H).
Qed.

Lemma digitpart_chars (s : str) (r : Z * nat) :
  PyFloat.digitpart s = Some r -> all_chars is_float_char s = true.
Proof.
  destruct s as [|c s]; cbn [PyFloat.digitpart all_chars]; [discriminate|].
  destruct (PyFloat.is_digit c) eqn:D; [|discriminate].
  intros H. rewrite (digit_float_char _ D). exact (digitpart_rest_chars _ _ _ _ _ H).
Qed.

Lemma opt_digitpart_chars (s : str) (r : Z * nat) :
  PyFloat.opt_digitpart s = Some r -> all_chars is_float_char s = true.
Proof.
  destruct s as [|c s]; [reflexivity|]. apply digitpart_chars.
Qed.

Lemma number_chars (s : str) (r : Z * nat) :
  PyFloat.number s = Some r -> all_chars is_float_char s = true.
Proof.
  unfold PyFloat.number. intros H.
  rewrite <- (join_split "." s).
  destruct (PyStr.split "." s) as [|ip [|fp [|x t]]]; try discriminate.
  - destruct (PyFloat.digitpart ip) as [p|] eqn:E; [|discriminate].
    exact (digitpart_chars _ _ E).
  - destruct (PyStr.is_empty ip && PyStr.is_empty fp)%bool; [discriminate|].
    destruct (PyFloat.opt_digitpart ip) as [p|] eqn:E1; [|discriminate].
    destruct p as [i k0].
    destruct (PyFloat.opt_digitpart fp) as [p|] eqn:E2; [|discriminate].
    cbn [PyStr.join]. rewrite !all_chars_app.
    rewrite (opt_digitpart_chars _ _ E1), (opt_digitpart_chars _ _ E2). reflexivity.
Qed.

Lemma signed_chars (s : str) :
  all_chars is_float_char (snd (PyFloat.signed s)) = true ->
  all_chars is_float_char s = true.
Proof.
  destruct s as [|c s]; [reflexivity|]. cbn [PyFloat.signed].
  destruct (Char.eqb c "+") eqn:Ep;
    [apply char_eqb_eq in Ep; subst c; exact (fun H => H)|].
  destruct (Char.eqb c "-") eqn:Em;
    [apply char_eqb_eq in Em; subst c; exact (fun H => H)|].
  exact (fun H => H).
Qed.

Lemma exponent_chars (s : str) (e : Z) :
  PyFloat.exponent s = Some e -> all_chars is_float_char s = true.
Proof.
  unfold PyFloat.exponent. intros H. apply signed_chars.
  destruct (PyFloat.signed s) as [neg body]. cbn [snd].
  destruct (PyFloat.digitpart body) as [p|] eqn:E; [|discriminate].
  exact (digitpart_chars _ _ E).
Qed.

Lemma floatnumber_chars (neg : bool) (s : str) (f : PyFloat.pyfloat) :
  PyFloat.floatnumber neg s = Some f -> all_chars is_float_char s = true.
Proof.
  unfold PyFloat.floatnumber. intros H.
  rewrite <- (join_split "e" s).
  destruct (PyStr.split "e" s) as [|ms [|es [|x t]]]; try discriminate.
  - destruct (PyFloat.number ms) as [p|] eqn:E; [|discriminate].
    exact (number_chars _ _ E).
  - destruct (PyFloat.number ms) as [p|] eqn:E1; [|discriminate].
    destruct p as [n k0].
    destruct (PyFloat.exponent es) as [e|] eqn:E2; [|discriminate].
    cbn [PyStr.join]. rewrite !all_chars_app.
    rewrite (number_chars _ _ E1), (exponent_chars _ _ E2). reflexivity.
Qed.

(** A text with a value is made of the characters of [float]. *)
Lemma of_ascii_text_chars (text : str) (f : PyFloat.pyfloat) :
  PyFloat.of_ascii_text text = Some f -> all_chars is_float_char text = true.
Proof.
  unfold PyFloat.of_ascii_text. intros H. apply signed_chars.
  destruct (PyFloat.signed text) as [neg body]. cbn [snd].
  destruct (Str.eqb body "inf") eqn:E1;
    [apply str_eqb_eq in E1; subst; reflexivity|].
  destruct (Str.eqb body "infinity") eqn:E2;
    [apply str_eqb_eq in E2; subst; reflexivity|].
  cbn [orb] in H.
  destruct (Str.eqb body "nan") eqn:E3;
    [apply str_eqb_eq in E3; subst; reflexivity|].
  exact (floatnumber_chars _ _ _ H).
Qed.

Lemma skip_blanks_chars (P : char -> bool) (x : str) :
  all_chars P (PyFloat.skip_blanks x) = true ->
  all_chars (fun a => PyFloat.is_blank a || P a)%bool x = true.
Proof.
  induction x as [|a x IH]; [reflexivity|]. cbn [PyFloat.skip_blanks all_chars].
  destruct (PyFloat.is_blank a) eqn:B.
  - intros H. rewrite (IH H). reflexivity.
  - cbn [all_chars orb]. intros H. apply andb_true_iff in H. destruct H as [Ha Hx].
    rewrite Ha. cbn [andb].
    apply (all_chars_impl P); [|exact Hx].
    intros c Hc. rewrite Hc. apply orb_true_r.
Qed.

Lemma drop_blanks_chars (P : char -> bool) (x : str) :
  all_chars P (PyFloat.drop_blanks x) = true ->
  all_chars (fun a => PyFloat.is_blank a || P a)%bool x = true.
Proof.
  induction x as [|a x IH]; [reflexivity|]. cbn [PyFloat.drop_blanks all_chars].
  destruct (PyFloat.is_blank a && PyStr.is_empty (PyFloat.drop_blanks x))%bool eqn:B.
  - apply andb_true_iff in B. destruct B as [Ba Bx].
    destruct (PyFloat.drop_blanks x); [|discriminate].
    intros _. rewrite Ba, (IH eq_refl). reflexivity.
  - cbn [all_chars]. intros H. apply andb_true_iff in H. destruct H as [Ha Hx].
    rewrite Ha, (IH Hx), orb_true_r. reflexivity.
Qed.

Lemma all_chars_ascii_lower (P : char -> bool) (x : str) :
  all_chars P (PyFloat.ascii_lower x)
  = all_chars (fun a => P (PyFloat.ascii_lower_char a)) x.
Proof.
  induction x as [|a x IH]; [reflexivity|]. cbn [PyFloat.ascii_lower all_chars].
  rewrite IH. reflexivity.
Qed.

Lemma all_chars_float_text (x : str) :
  all_chars (fun a => PyFloat.is_blank a || is_float_char (PyFloat.ascii_lower_char a))%bool
    (PyFloat.float_text x)
  = all_chars readable x.
Proof.
  induction x as [|a x IH]; [reflexivity|]. cbn [PyFloat.float_text all_chars].
  rewrite IH. reflexivity.
Qed.

(** What [float] accepts is made of characters it can read. *)
Lemma accept_readable (s : str) (f : PyFloat.pyfloat) :
  PyFloat.of_string s = Some f -> all_chars readable s = true.
Proof.
  unfold PyFloat.of_string, PyFloat.ascii_text. intros H.
  apply of_ascii_text_chars in H. rewrite all_chars_ascii_lower in H.
  apply drop_blanks_chars, skip_blanks_chars in H.
  rewrite <- all_chars_float_text.
  revert H. apply all_chars_impl. intros c Hc.
  destruct (PyFloat.is_blank c); [reflexivity | exact Hc].
Qed.

(** *** [float] and letter case *)

Lemma ascii_lower_char_facts (a : char) :
  PyFloat.is_blank (PyFloat.ascii_lower_char a) = PyFloat.is_blank a
  /\ PyFloat.ascii_lower_char (PyFloat.ascii_lower_char a) = PyFloat.ascii_lower_char a
  /\ PyFloat.to_ascii (PyFloat.ascii_lower_char a)
     = PyFloat.ascii_lower_char (PyFloat.to_ascii a).
Proof.
  destruct (N.lt_ge_cases a 128%N) as [Ha|Ha].
  - destruct (ascii_lower_facts a Ha) as (Hl & _ & _ & _ & _ & Hb & Hi & _).
    rewrite (to_ascii_low _ Ha), (to_ascii_low _ Hl). auto.
  - rewrite !(ascii_lower_char_high _ Ha). split; [reflexivity|]. split; [reflexivity|].
    pose proof (to_ascii_bound a) as Hb.
    destruct (to_ascii_high a Ha) as [[_ E] | [(_ & d & _ & Hd & E) | (_ & _ & E)]];
      rewrite E; [reflexivity | | reflexivity].
    unfold PyFloat.ascii_lower_char.
    replace (Char.between 65%N (48 + d)%N 90%N) with false; [reflexivity|].
    symmetry. apply between_false. lia.
Qed.

Lemma float_text_ascii_lower (x : str) :
  PyFloat.float_text (PyFloat.ascii_lower x) = PyFloat.ascii_lower (PyFloat.float_text x).
Proof.
  induction x as [|a x IH]; [reflexivity|]. cbn [PyFloat.ascii_lower PyFloat.float_text].
  destruct (ascii_lower_char_facts a) as (_ & _ & E). rewrite E, IH. reflexivity.
Qed.

Lemma skip_blanks_ascii_lower (x : str) :
  PyFloat.skip_blanks (PyFloat.ascii_lower x) = PyFloat.ascii_lower (PyFloat.skip_blanks x).
Proof.
  induction x as [|a x IH]; [reflexivity|]. cbn [PyFloat.ascii_lower PyFloat.skip_blanks].
  destruct (ascii_lower_char_facts a) as (E & _). rewrite E.
  destruct (PyFloat.is_blank a); [exact IH | reflexivity].
Qed.

Lemma drop_blanks_ascii_lower (x : str) :
  PyFloat.drop_blanks (PyFloat.ascii_lower x) = PyFloat.ascii_lower (PyFloat.drop_blanks x).
Proof.
  induction x as [|a x IH]; [reflexivity|]. cbn [PyFloat.ascii_lower PyFloat.drop_blanks].
  destruct (ascii_lower_char_facts a) as (E & _). rewrite E, IH.
  replace (PyStr.is_empty (PyFloat.ascii_lower (PyFloat.drop_blanks x)))
    with (PyStr.is_empty (PyFloat.drop_blanks x))
    by (destruct (PyFloat.drop_blanks x); reflexivity).
  destruct (PyFloat.is_blank a && PyStr.is_empty (PyFloat.drop_blanks x))%bool; reflexivity.
Qed.

Lemma ascii_lower_idem (x : str) :
  PyFloat.ascii_lower (PyFloat.ascii_lower x) = PyFloat.ascii_lower x.
Proof.
  induction x as [|a x IH]; [reflexivity|]. cbn [PyFloat.ascii_lower].
  destruct (ascii_lower_char_facts a) as (_ & E & _). rewrite E, IH. reflexivity.
Qed.

Lemma ascii_text_ascii_lower (s : str) :
  PyFloat.ascii_text (PyFloat.ascii_lower s) = PyFloat.ascii_text s.
Proof.
  unfold PyFloat.ascii_text.
  rewrite float_text_ascii_lower, skip_blanks_ascii_lower, drop_blanks_ascii_lower.
  apply ascii_lower_idem.
Qed.

(** [float] does not depend on letter case: it gives the same for a text
    and for any lower case of it. *)
Lemma of_string_lowered (s t : str) :
  lowered s t -> PyFloat.of_string t = PyFloat.of_string s.
Proof.
  intros H. destruct (all_chars readable s) eqn:Hs.
  - rewrite (lowered_readable s t Hs H). unfold PyFloat.of_string.
    rewrite ascii_text_ascii_lower. reflexivity.
  - pose proof (lowered_unreadable s t Hs H) as Ht.
    destruct (PyFloat.of_string s) as [f|] eqn:E;
      [rewrite (accept_readable _ _ E) in Hs; discriminate|].
    destruct (PyFloat.of_string t) as [f|] eqn:E';
      [rewrite (accept_readable _ _ E') in Ht; discriminate|].
    reflexivity.
Qed.

Lemma of_string_lower (s : str) : PyFloat.of_string (PyStr.lower s) = PyFloat.of_string s.
Proof. apply of_string_lowered, lower_lowered. Qed.

(** Whatever [float] accepts holds no unit letter, in either letter case. *)
Lemma of_string_unitless (s : str) (f : PyFloat.pyfloat) :
  PyFloat.of_string s = Some f -> unitless (PyStr.lower s) = true.
Proof.
  intros H. pose proof (accept_readable _ _ H) as Hr.
  rewrite (lowered_readable s _ Hr (lower_lowered s)).
  apply readable_unitless. exact Hr.
Qed.

(** *** [float] and the whitespace that [str.strip] takes away *)

Lemma is_empty_float_text (s : str) :
  PyStr.is_empty (PyFloat.float_text s) = PyStr.is_empty s.
Proof. destruct s; reflexivity. Qed.

Lemma float_text_lstrip (s : str) :
  all_chars readable s = true ->
  PyFloat.float_text (PyStr.lstrip s) = PyFloat.skip_blanks (PyFloat.float_text s)
  /\ all_chars readable (PyStr.lstrip s) = true.
Proof.
  induction s as [|c s IH]; [split; reflexivity|].
  cbn [all_chars PyStr.lstrip PyFloat.float_text PyFloat.skip_blanks].
  intros H. apply andb_true_iff in H. destruct H as [Hc Hs].
  unfold PyStr.is_space. rewrite (readable_space c Hc).
  destruct (PyFloat.is_blank (PyFloat.to_ascii c)); [exact (IH Hs)|].
  cbn [PyFloat.float_text all_chars]. rewrite Hc, Hs. split; reflexivity.
Qed.

Lemma float_text_rstrip (s : str) :
  all_chars readable s = true ->
  PyFloat.float_text (PyStr.rstrip s) = PyFloat.drop_blanks (PyFloat.float_text s).
Proof.
  induction s as [|c s IH]; [reflexivity|].
  cbn [all_chars PyStr.rstrip PyFloat.float_text PyFloat.drop_blanks].
  intros H. apply andb_true_iff in H. destruct H as [Hc Hs].
  unfold PyStr.is_space. rewrite (readable_space c Hc), <- (IH Hs), is_empty_float_text.
  destruct (PyFloat.is_blank (PyFloat.to_ascii c) && PyStr.is_empty (PyStr.rstrip s))%bool;
    [reflexivity|].
  cbn [PyFloat.float_text]. reflexivity.
Qed.

(** A text that starts with no blank. *)
Lemma skip_blanks_fixed (x : str) :
  match x with
  | EmptyString => True
  | String a _ => PyFloat.is_blank a = false
  end ->
  PyFloat.skip_blanks x = x.
Proof.
  destruct x as [|a x]; [reflexivity|]. cbn [PyFloat.skip_blanks].
  intros H. rewrite H. reflexivity.
Qed.

Lemma skip_blanks_start (x : str) :
  match PyFloat.skip_blanks x with
  | EmptyString => True
  | String a _ => PyFloat.is_blank a = false
  end.
Proof.
  induction x as [|a x IH]; [exact I|]. cbn [PyFloat.skip_blanks].
  destruct (PyFloat.is_blank a) eqn:B; [exact IH | exact B].
Qed.

Lemma drop_blanks_start (x : str) :
  match x with
  | EmptyString => True
  | String a _ => PyFloat.is_blank a = false
  end ->
  match PyFloat.drop_blanks x with
  | EmptyString => True
  | String a _ => PyFloat.is_blank a = false
  end.
Proof.
  destruct x as [|a x]; [exact (fun H => H)|]. cbn [PyFloat.drop_blanks].
  intros H. rewrite H. cbn [andb]. exact H.
Qed.

Lemma drop_blanks_idem (x : str) :
  PyFloat.drop_blanks (PyFloat.drop_blanks x) = PyFloat.drop_blanks x.
Proof.
  induction x as [|a x IH]; [reflexivity|]. cbn [PyFloat.drop_blanks].
  destruct (PyFloat.is_blank a && PyStr.is_empty (PyFloat.drop_blanks x))%bool eqn:E;
    [reflexivity|].
  cbn [PyFloat.drop_blanks]. rewrite IH, E. reflexivity.
Qed.

(** Of a text that [float] can read, [str.strip] takes away what [float]
    skips: the value is the same with and without. *)
Lemma of_string_strip (s : str) :
  all_chars readable s = true ->
  PyFloat.of_string (PyStr.strip s) = PyFloat.of_string s.
Proof.
  intros Hs. unfold PyFloat.of_string, PyFloat.ascii_text, PyStr.strip.
  destruct (float_text_lstrip s Hs) as [El Hl].
  rewrite (float_text_rstrip _ Hl), El.
  rewrite (skip_blanks_fixed _ (drop_blanks_start _ (skip_blanks_start _))).
  rewrite drop_blanks_idem. reflexivity.
Qed.

(** ** The byte-size parser on well-formed tokens *)

(** The tests of [_parse_transfer] on [a ++ marker], for [a] without unit
    letter: each is decided on the marker alone. *)
Ltac decide_markers a Ha :=
  repeat match goal with
         | |- context [PyStr.contains ?p (a ++ ?m)] =>
             rewrite (contains_skip p a m eq_refl Ha);
             let b := eval vm_compute in (PyStr.contains p m) in
             change (PyStr.contains p m) with b
         end;
  cbv iota.

Lemma scaled_marker (a marker : str) (factors : list Z) :
  starts_with_unit_letter marker = true ->
  PyStr.remove marker marker = "" ->
  unitless a = true ->
  scaled (a ++ marker) marker factors =
  match PyFloat.of_string (PyStr.strip a) with
  | Some f => PyFloat.to_int (times f factors)
  | None => None
  end.
Proof.
  intros Hm Hr Ha. unfold scaled.
  rewrite (remove_skip _ _ _ Hm Ha), Hr, string_app_nil_r. reflexivity.
Qed.

(** The units are written without sigma. *)
Lemma unit_sigmaless (marker : str) (factors : list Z) :
  In (marker, factors) unit_table -> sigmaless marker = true.
Proof.
  unfold unit_table. cbn [In].
  intros [E | [E | [E | [E | [E | [E | []]]]]]]; inversion E; reflexivity.
Qed.

(** A number, whitespace and a unit: the unit is recognised whatever its
    letter case, and the number is what is left of the token, which goes to
    [float] without the whitespace at its ends. *)
Lemma parse_transfer_unit (num ws u marker : str) (factors : list Z) :
  unitless (PyStr.lower num) = true ->
  blank ws = true ->
  PyStr.lower u = marker ->
  In (marker, factors) unit_table ->
  _parse_transfer (num ++ ws ++ u) =
  match PyFloat.of_string (PyStr.strip num) with
  | Some f => int_or_zero (times f factors)
  | None => 0
  end.
Proof.
  intros Hnum Hws Hu Hin. unfold _parse_transfer.
  destruct (lowered_app_inv num (ws ++ u) _ (lower_lowered _)) as (l1 & t & E & H1 & Ht).
  destruct (lowered_app_inv ws u _ Ht) as (l2 & l3 & -> & H2 & H3).
  rewrite (lowered_blank _ _ Hws H2) in E. clear H2 Ht l2.
  assert (E3 : l3 = marker).
  { rewrite <- Hu. apply (lowered_unique u); [|exact H3 | apply lower_lowered].
    apply (lowered_sigmaless u (PyStr.lower u) (lower_lowered u)).
    rewrite Hu. exact (unit_sigmaless _ _ Hin). }
  subst l3. rewrite E, <- string_app_assoc. clear E Hu H3.
  rewrite (lowered_unitless_agree _ _ _ (lower_lowered num) H1) in Hnum.
  set (a := l1 ++ ws).
  assert (Ha : unitless a = true)
    by (unfold a; rewrite unitless_app, Hnum, (unitless_blank _ Hws); reflexivity).
  assert (Hstrip : PyFloat.of_string (PyStr.strip a) = PyFloat.of_string (PyStr.strip num))
    by (unfold a; rewrite (strip_app_blank _ _ Hws);
        apply of_string_lowered, lowered_strip; exact H1).
  unfold unit_table in Hin. cbn [In] in Hin.
  destruct Hin as [E | [E | [E | [E | [E | [E | []]]]]]];
    inversion E; subst marker factors; clear E;
    decide_markers a Ha;
    match goal with
    | |- context [scaled (a ++ ?m) ?m ?fs] =>
        rewrite (scaled_marker a m fs eq_refl eq_refl Ha), Hstrip
    end;
    unfold int_or_zero; destruct (PyFloat.of_string (PyStr.strip num)); reflexivity.
Qed.

Lemma no_unit_marker_unitless (s : str) : unitless s = true -> no_unit_marker s = true.
Proof.
  intros Hs. unfold no_unit_marker, unit_table. cbn [forallb fst].
  rewrite <- (string_app_nil_r s).
  decide_markers s Hs. reflexivity.
Qed.

(** Without a unit marker the whole token goes to [float]. *)
Lemma parse_transfer_plain (token : str) :
  no_unit_marker (PyStr.lower token) = true ->
  _parse_transfer token =
  match PyFloat.of_string token with
  | Some f => int_or_zero f
  | None => 0
  end.
Proof.
  unfold no_unit_marker, unit_table. cbn [forallb fst]. intros H.
  repeat (apply andb_true_iff in H; destruct H as [?H H]).
  repeat match goal with
         | Hc : negb _ = true |- _ => apply negb_true_iff in Hc
         end.
  unfold _parse_transfer.
  repeat match goal with
         | Hc : PyStr.contains _ _ = false |- _ => rewrite Hc; clear Hc
         end.
  rewrite of_string_lower. unfold int_or_zero.
  destruct (PyFloat.of_string token); reflexivity.
Qed.

(** ** Rounding to binary64 *)

Lemma ilog2_ratio_spec (n d : Z) :
  0 < d <= n ->
  0 <= PyFloat.ilog2_ratio n d
  /\ d * 2 ^ PyFloat.ilog2_ratio n d <= n < d * 2 ^ (PyFloat.ilog2_ratio n d + 1).
Proof.
  intros [Hd Hdn]. unfold PyFloat.ilog2_ratio.
  assert (Hn : 0 < n) by lia.
  pose proof (Z.log2_spec n Hn) as [Hn1 Hn2].
  pose proof (Z.log2_spec d Hd) as [Hd1 Hd2].
  pose proof (Z.log2_le_mono d n Hdn) as Hmono.
  pose proof (Z.log2_nonneg d) as Hd0.
  set (l := Z.log2 n - Z.log2 d).
  assert (Hl : 0 <= l) by (unfold l; lia).
  assert (Esplit : 2 ^ Z.log2 n = 2 ^ Z.log2 d * 2 ^ l).
  { rewrite <- Z.pow_add_r by lia. f_equal. unfold l. lia. }
  rewrite Z.pow_succ_r in Hn2, Hd2 by lia.
  assert (Hpl : 0 < 2 ^ l) by (apply Z.pow_pos_nonneg; lia).
  assert (Hpd : 0 < 2 ^ Z.log2 d) by (apply Z.pow_pos_nonneg; lia).
  destruct (d * 2 ^ l <=? n) eqn:E.
  - apply Z.leb_le in E. split; [exact Hl|]. split; [exact E|].
    rewrite Z.pow_add_r, Z.pow_1_r by lia. nia.
  - apply Z.leb_gt in E.
    assert (Hl1 : 1 <= l).
    { destruct (Z.eq_dec l 0) as [E0|]; [|lia].
      rewrite E0, Z.pow_0_r in E. lia. }
    assert (Esucc : 2 ^ l = 2 * 2 ^ (l - 1)).
    { rewrite <- Z.pow_succ_r by lia. f_equal. lia. }
    assert (Hpl' : 0 < 2 ^ (l - 1)) by (apply Z.pow_pos_nonneg; lia).
    replace (l - 1 + 1) with l by lia.
    split; [lia|]. split; [nia | exact E].
Qed.

Lemma round_half_even_exact (k d : Z) :
  0 < d -> PyFloat.round_half_even (k * d) d = k.
Proof.
  intros Hd. unfold PyFloat.round_half_even.
  rewrite Z.div_mul, Z.mod_mul by lia.
  replace (2 * 0 <? d) with true by (symmetry; apply Z.ltb_lt; lia).
  reflexivity.
Qed.

Lemma round_half_even_bounds (n d : Z) :
  0 <= n -> 0 < d ->
  n / d <= PyFloat.round_half_even n d <= n / d + 1.
Proof.
  intros Hn Hd. unfold PyFloat.round_half_even.
  destruct (2 * (n mod d) <? d); [lia|].
  destruct (2 * (n mod d) =? d); [|lia].
  destruct (Z.even (n / d)); lia.
Qed.

(** The rounded significand has at most 53 bits, or is [2 ^ 53]. *)
Lemma round_pos_bound (n d : Z) :
  0 < n -> 0 < d ->
  0 <= fst (PyFloat.round_pos n d) <= 2 ^ 53 /\ 0 <= snd (PyFloat.round_pos n d).
Proof.
  intros Hn Hd. unfold PyFloat.round_pos. cbn [fst snd].
  set (n' := n * 2 ^ 1074).
  set (s := Z.max (PyFloat.ilog2_ratio n' d - 52) 0).
  assert (Hs : 0 <= s) by (unfold s; lia).
  assert (Hn' : 0 < n') by (unfold n'; apply Z.mul_pos_pos; [lia | reflexivity]).
  assert (Hps : 0 < 2 ^ s) by (apply Z.pow_pos_nonneg; lia).
  assert (Hds : 0 < d * 2 ^ s) by (apply Z.mul_pos_pos; lia).
  pose proof (round_half_even_bounds n' (d * 2 ^ s) ltac:(lia) Hds) as [Hlo Hhi].
  assert (Hq0 : 0 <= n' / (d * 2 ^ s)) by (apply Z.div_pos; lia).
  split; [|exact Hs]. split; [lia|].
  assert (Hlt : n' / (d * 2 ^ s) < 2 ^ 53); [|lia].
  apply Z.div_lt_upper_bound; [exact Hds|].
  destruct (Z_lt_le_dec n' d) as [Hsmall | Hbig].
  - assert (HP : 1 <= 2 ^ 53) by (vm_compute; discriminate).
    revert HP. generalize (2 ^ 53). intros P HP.
    assert (H1 : 1 <= 2 ^ s * P) by nia.
    assert (H2 : d * 1 <= d * (2 ^ s * P)) by (apply Z.mul_le_mono_nonneg_l; lia).
    lia.
  - destruct (ilog2_ratio_spec n' d (conj Hd Hbig)) as (HL0 & _ & Hup).
    assert (Hle : 2 ^ (PyFloat.ilog2_ratio n' d + 1) <= 2 ^ s * 2 ^ 53).
    { rewrite <- Z.pow_add_r by lia. apply Z.pow_le_mono_r; [lia | unfold s; lia]. }
    revert Hup Hle. generalize (2 ^ (PyFloat.ilog2_ratio n' d + 1)) (2 ^ 53).
    intros U P Hup Hle.
    assert (H2 : d * U <= d * (2 ^ s * P)) by (apply Z.mul_le_mono_nonneg_l; lia).
    lia.
Qed.

(** A value that has a 53-bit significand at a non-negative shift is left
    alone by the rounding. *)
Lemma round_pos_exact (M S n d : Z) :
  0 < M < 2 ^ 53 -> 0 <= S -> 0 < d ->
  n * 2 ^ 1074 = M * 2 ^ S * d ->
  fst (PyFloat.round_pos n d) * 2 ^ snd (PyFloat.round_pos n d) = M * 2 ^ S.
Proof.
  intros [HM0 HM] HS Hd E. unfold PyFloat.round_pos. cbn [fst snd].
  rewrite E.
  set (n' := M * 2 ^ S * d).
  set (L := PyFloat.ilog2_ratio n' d).
  set (s := Z.max (L - 52) 0).
  assert (HpS : 0 < 2 ^ S) by (apply Z.pow_pos_nonneg; lia).
  assert (HMS : 1 <= M * 2 ^ S) by nia.
  assert (Hbig : d <= n').
  { unfold n'. replace d with (1 * d) at 1 by ring.
    apply Z.mul_le_mono_nonneg_r; lia. }
  destruct (ilog2_ratio_spec n' d (conj Hd Hbig)) as (HL0 & Hlow & _).
  fold L in HL0, Hlow.
  assert (HLS : L < 53 + S).
  { apply (Z.pow_lt_mono_r_iff 2); [lia | lia |].
    rewrite Z.pow_add_r by lia.
    assert (HLM : 2 ^ L <= M * 2 ^ S).
    { unfold n' in Hlow. apply (Z.mul_le_mono_pos_l _ _ d); [exact Hd|]. lia. }
    apply Z.le_lt_trans with (M * 2 ^ S); [exact HLM|].
    apply Z.mul_lt_mono_pos_r; lia. }
  assert (Hs : 0 <= s <= S) by (unfold s; lia).
  assert (Esplit : 2 ^ S = 2 ^ (S - s) * 2 ^ s).
  { rewrite <- Z.pow_add_r by lia. f_equal. lia. }
  assert (Hps : 0 < 2 ^ s) by (apply Z.pow_pos_nonneg; lia).
  replace n' with (M * 2 ^ (S - s) * (d * 2 ^ s)) by (unfold n'; rewrite Esplit; ring).
  rewrite round_half_even_exact by nia.
  rewrite Esplit. ring.
Qed.

Lemma pow2_1074_pos : 0 < 2 ^ 1074.
Proof. apply Z.pow_pos_nonneg; lia. Qed.

Lemma dyadic_ext (m s m' s' : Z) :
  m * 2 ^ s = m' * 2 ^ s' -> PyFloat.dyadic m s = PyFloat.dyadic m' s'.
Proof.
  intros E. unfold PyFloat.dyadic. rewrite E. reflexivity.
Qed.

Lemma dyadic_zero (s : Z) : PyFloat.dyadic 0 s = 0%Q.
Proof.
  unfold PyFloat.dyadic. rewrite Z.mul_0_l.
  change 0%Q with (Qred 0). apply Qred_complete. reflexivity.
Qed.

(** [dyadic m s] is the rational [m * 2 ^ s / 2 ^ 1074]. *)
Lemma dyadic_ratio (m s : Z) :
  Qnum (PyFloat.dyadic m s) * 2 ^ 1074
  = m * 2 ^ s * Zpos (Qden (PyFloat.dyadic m s)).
Proof.
  unfold PyFloat.dyadic.
  pose proof (Qred_correct (m * 2 ^ s # Z.to_pos (2 ^ 1074))) as E.
  unfold Qeq in E. cbn [Qnum Qden] in E.
  rewrite Z2Pos.id in E by exact pow2_1074_pos. exact E.
Qed.

Lemma quot_cross (a b c d : Z) :
  0 < b -> 0 < d -> a * d = c * b -> Z.quot a b = Z.quot c d.
Proof.
  intros Hb Hd E.
  rewrite <- (Z.quot_mul_cancel_r a b d) by lia.
  rewrite E, (Z.mul_comm c b).
  apply Z.quot_mul_cancel_l; lia.
Qed.

Lemma to_int_dyadic (m s : Z) :
  PyFloat.to_int (PyFloat.Finite (PyFloat.dyadic m s)) = Some (Z.quot (m * 2 ^ s) (2 ^ 1074)).
Proof.
  cbn [PyFloat.to_int]. f_equal.
  apply quot_cross; [reflexivity | exact pow2_1074_pos | apply dyadic_ratio].
Qed.

(** The rounding is exact on a value with a 53-bit significand, short of
    overflow. *)
Lemma of_Q_exact (q : Q) (M S : Z) :
  0 < Z.abs M < 2 ^ 53 -> 0 <= S ->
  Qnum q * 2 ^ 1074 = M * 2 ^ S * Zpos (Qden q) ->
  PyFloat.of_Q q =
  if 2 ^ 2098 <=? Z.abs M * 2 ^ S then PyFloat.Inf (M <? 0)
  else PyFloat.Finite (PyFloat.dyadic M S).
Proof.
  intros HM HS E. unfold PyFloat.of_Q.
  pose proof pow2_1074_pos as H1074.
  assert (HpS : 0 < 2 ^ S) by (apply Z.pow_pos_nonneg; lia).
  assert (Hd : 0 < Zpos (Qden q)) by reflexivity.
  assert (Hsign : (Qnum q <? 0) = (M <? 0)).
  { destruct (Z.ltb_spec (Qnum q) 0) as [Hq|Hq], (Z.ltb_spec M 0) as [Hm|Hm];
      try reflexivity; exfalso.
    - assert (Qnum q * 2 ^ 1074 < 0) by (apply Z.mul_neg_pos; lia).
      assert (0 <= M * 2 ^ S * Zpos (Qden q))
        by (apply Z.mul_nonneg_nonneg; [apply Z.mul_nonneg_nonneg|]; lia).
      lia.
    - assert (0 <= Qnum q * 2 ^ 1074) by (apply Z.mul_nonneg_nonneg; lia).
      assert (M * 2 ^ S * Zpos (Qden q) < 0)
        by (apply Z.mul_neg_pos; [apply Z.mul_neg_pos|]; lia).
      lia. }
  assert (Eabs : Z.abs (Qnum q) * 2 ^ 1074 = Z.abs M * 2 ^ S * Zpos (Qden q)).
  { rewrite <- (Z.abs_eq (2 ^ 1074)) at 1 by lia.
    rewrite <- Z.abs_mul, E, !Z.abs_mul.
    rewrite (Z.abs_eq (2 ^ S)), (Z.abs_eq (Zpos (Qden q))) by lia. reflexivity. }
  destruct (Z.abs (Qnum q) =? 0) eqn:E0.
  { apply Z.eqb_eq in E0. rewrite E0, Z.mul_0_l in Eabs. symmetry in Eabs.
    apply Z.mul_eq_0 in Eabs. destruct Eabs as [Eabs|]; [|lia].
    apply Z.mul_eq_0 in Eabs. lia. }
  pose proof (round_pos_exact (Z.abs M) S (Z.abs (Qnum q)) (Zpos (Qden q)) HM HS Hd Eabs)
    as Hexact.
  destruct (PyFloat.round_pos (Z.abs (Qnum q)) (Zpos (Qden q))) as [m s].
  cbn [fst snd] in Hexact. rewrite Hexact, Hsign.
  destruct (2 ^ 2098 <=? Z.abs M * 2 ^ S); [reflexivity|].
  f_equal. apply dyadic_ext.
  destruct (Z.ltb_spec M 0) as [Hm|Hm].
  - rewrite Z.mul_opp_l, Hexact, (Z.abs_neq M) by lia. ring.
  - rewrite Hexact, (Z.abs_eq M) by lia. reflexivity.
Qed.

(** What the rounding gives when it is finite is a binary64 value. *)
Lemma of_Q_binary64 (x q : Q) :
  PyFloat.of_Q x = PyFloat.Finite q -> binary64 q.
Proof.
  unfold PyFloat.of_Q, binary64.
  destruct (Z.abs (Qnum x) =? 0) eqn:E0.
  { intros E. inversion E. exists 0, 0. rewrite dyadic_zero.
    split; [lia|]. split; [reflexivity|]. split; reflexivity. }
  apply Z.eqb_neq in E0.
  pose proof (round_pos_bound (Z.abs (Qnum x)) (Zpos (Qden x)) ltac:(lia) ltac:(reflexivity))
    as [[Hm0 Hm] Hs].
  destruct (PyFloat.round_pos (Z.abs (Qnum x)) (Zpos (Qden x))) as [m s].
  cbn [fst snd] in Hm0, Hm, Hs.
  destruct (2 ^ 2098 <=? m * 2 ^ s) eqn:Hov; [discriminate|].
  apply Z.leb_gt in Hov.
  intros E. inversion E. clear E.
  set (sm := if Qnum x <? 0 then - m else m).
  assert (Hsm : Z.abs sm = m) by (unfold sm; destruct (Qnum x <? 0); lia).
  destruct (Z.eq_dec m (2 ^ 53)) as [Etop | Hne].
  - assert (Esplit : 2 ^ 52 * 2 ^ (s + 1) = m * 2 ^ s).
    { rewrite Etop, Z.pow_add_r, Z.pow_1_r by lia.
      change (2 ^ 53) with (2 ^ 52 * 2). ring. }
    exists (if Qnum x <? 0 then - 2 ^ 52 else 2 ^ 52), (s + 1).
    split; [lia|]. split; [destruct (Qnum x <? 0); vm_compute; reflexivity|].
    split.
    + replace (Z.abs (if Qnum x <? 0 then - 2 ^ 52 else 2 ^ 52)) with (2 ^ 52)
        by (destruct (Qnum x <? 0); reflexivity).
      rewrite Esplit. exact Hov.
    + apply dyadic_ext. unfold sm.
      destruct (Qnum x <? 0); [rewrite !Z.mul_opp_l|]; rewrite Esplit; reflexivity.
  - exists sm, s. split; [exact Hs|]. split; [lia|]. split; [|reflexivity].
    rewrite Hsm. exact Hov.
Qed.

Lemma of_string_binary64 (s : str) (q : Q) :
  PyFloat.of_string s = Some (PyFloat.Finite q) -> binary64 q.
Proof.
  unfold PyFloat.of_string, PyFloat.of_ascii_text.
  destruct (PyFloat.signed (PyFloat.ascii_text s)) as [neg body].
  destruct (Str.eqb body "inf" || Str.eqb body "infinity")%bool; [discriminate|].
  destruct (Str.eqb body "nan"); [discriminate|].
  unfold PyFloat.floatnumber, PyFloat.of_decimal.
  destruct (PyStr.split "e" body) as [|ms [|es [|x t]]]; try discriminate.
  - destruct (PyFloat.number ms) as [[n k]|]; [|discriminate].
    destruct (0 <=? - Z.of_nat k); intros E; inversion E as [E'];
      exact (of_Q_binary64 _ _ E').
  - destruct (PyFloat.number ms) as [[n k]|]; [|discriminate].
    destruct (PyFloat.exponent es) as [e|]; [|discriminate].
    destruct (0 <=? e - Z.of_nat k); intros E; inversion E as [E'];
      exact (of_Q_binary64 _ _ E').
Qed.

(** ** Products by a power of two are exact *)

Lemma of_Z_1024 : PyFloat.of_Z 1024 = PyFloat.Finite (inject_Z 1024).
Proof. vm_compute. reflexivity. Qed.

Lemma mul_1024 (m s : Z) :
  0 <= s -> Z.abs m < 2 ^ 53 ->
  PyFloat.mul (PyFloat.Finite (PyFloat.dyadic m s)) (PyFloat.of_Z 1024) =
  if 2 ^ 2098 <=? Z.abs m * 2 ^ (s + 10) then PyFloat.Inf (m <? 0)
  else PyFloat.Finite (PyFloat.dyadic m (s + 10)).
Proof.
  intros Hs Hm. rewrite of_Z_1024. cbn [PyFloat.mul].
  destruct (Z.eq_dec m 0) as [-> | Hm0].
  - rewrite !dyadic_zero. reflexivity.
  - apply of_Q_exact; [lia | lia |].
    cbn [Qmult Qnum Qden inject_Z]. rewrite Pos.mul_1_r.
    pose proof (dyadic_ratio m s) as E.
    rewrite Z.pow_add_r by lia. change (2 ^ 10) with 1024.
    replace (Qnum (PyFloat.dyadic m s) * 1024 * 2 ^ 1074)
      with (Qnum (PyFloat.dyadic m s) * 2 ^ 1074 * 1024) by ring.
    rewrite E. ring.
Qed.

Lemma mul_inf_1024 (b : bool) :
  PyFloat.mul (PyFloat.Inf b) (PyFloat.of_Z 1024) = PyFloat.Inf b.
Proof.
  rewrite of_Z_1024. cbn. rewrite xorb_false_r. reflexivity.
Qed.

Lemma times_inf_1024 (b : bool) (k : nat) :
  times (PyFloat.Inf b) (repeat 1024 k) = PyFloat.Inf b.
Proof.
  induction k as [|k IH]; [reflexivity|].
  cbn [repeat]. unfold times in *. cbn [fold_left]. rewrite mul_inf_1024. exact IH.
Qed.

(** [k] products by 1024 shift a binary64 value by [10 * k] bits, or
    overflow. *)
Lemma times_1024 (m : Z) (k : nat) :
  Z.abs m < 2 ^ 53 ->
  forall s, 0 <= s -> Z.abs m * 2 ^ s < 2 ^ 2098 ->
  times (PyFloat.Finite (PyFloat.dyadic m s)) (repeat 1024 k) =
  if 2 ^ 2098 <=? Z.abs m * 2 ^ (s + 10 * Z.of_nat k) then PyFloat.Inf (m <? 0)
  else PyFloat.Finite (PyFloat.dyadic m (s + 10 * Z.of_nat k)).
Proof.
  intros Hm. induction k as [|k IH]; intros s Hs Hrange.
  - cbn [repeat]. unfold times. cbn [fold_left].
    replace (s + 10 * Z.of_nat 0) with s by lia.
    replace (2 ^ 2098 <=? Z.abs m * 2 ^ s) with false
      by (symmetry; apply Z.leb_gt; exact Hrange).
    reflexivity.
  - cbn [repeat]. unfold times. cbn [fold_left]. fold (times).
    change (fold_left (fun acc k0 => PyFloat.mul acc (PyFloat.of_Z k0)) (repeat 1024 k))
      with (fun f => times f (repeat 1024 k)).
    cbv beta. rewrite (mul_1024 m s Hs Hm).
    replace (s + 10 * Z.of_nat (S k)) with (s + 10 + 10 * Z.of_nat k) by lia.
    destruct (Z.leb_spec (2 ^ 2098) (Z.abs m * 2 ^ (s + 10))) as [Hov | Hok].
    + rewrite times_inf_1024.
      replace (2 ^ 2098 <=? Z.abs m * 2 ^ (s + 10 + 10 * Z.of_nat k)) with true;
        [reflexivity|].
      symmetry. apply Z.leb_le.
      apply Z.le_trans with (Z.abs m * 2 ^ (s + 10)); [exact Hov|].
      apply Z.mul_le_mono_nonneg_l; [lia|].
      apply Z.pow_le_mono_r; lia.
    + apply IH; [lia | exact Hok].
Qed.

Lemma pow_1024 (k : nat) : 1024 ^ Z.of_nat k = 2 ^ (10 * Z.of_nat k).
Proof.
  change 1024 with (2 ^ 10). rewrite <- Z.pow_mul_r by lia. reflexivity.
Qed.

(** Truncating [m * 2 ^ s / 2 ^ 1074] and testing it against the binary64
    range, where the product was tested before it was truncated. *)
Lemma within_range_quot (m s : Z) :
  0 <= s ->
  within_range (Z.quot (m * 2 ^ s) (2 ^ 1074)) =
  if 2 ^ 2098 <=? Z.abs m * 2 ^ s then 0 else Z.quot (m * 2 ^ s) (2 ^ 1074).
Proof.
  intros Hs. unfold within_range.
  pose proof pow2_1074_pos as H1074.
  assert (HpS : 0 < 2 ^ s) by (apply Z.pow_pos_nonneg; lia).
  rewrite <- Z.quot_abs by lia.
  rewrite Z.abs_mul, (Z.abs_eq (2 ^ s)), (Z.abs_eq (2 ^ 1074)) by lia.
  assert (HA : 0 <= Z.abs m * 2 ^ s) by (apply Z.mul_nonneg_nonneg; lia).
  rewrite Z.quot_div_nonneg by lia.
  change (2 ^ 2098) with (2 ^ 1074 * 2 ^ 1024).
  revert HA. generalize (Z.abs m * 2 ^ s). intros A HA.
  destruct (Z.leb_spec (2 ^ 1024) (A / 2 ^ 1074)) as [H1 | H1],
           (Z.leb_spec (2 ^ 1074 * 2 ^ 1024) A) as [H2 | H2]; try reflexivity; exfalso.
  - pose proof (Z.mul_div_le A (2 ^ 1074) H1074) as H3.
    assert (H4 : 2 ^ 1074 * 2 ^ 1024 <= 2 ^ 1074 * (A / 2 ^ 1074))
      by (apply Z.mul_le_mono_nonneg_l; lia).
    lia.
  - pose proof (Z.div_le_lower_bound A (2 ^ 1074) (2 ^ 1024) H1074 H2). lia.
Qed.

(** On a number that is not negative, truncation is the floor. *)
Lemma Qtrunc_nonneg (q : Q) : 0 <= Qnum q -> Qtrunc q = Qfloor q.
Proof.
  intros H. destruct q as [n d]. unfold Qtrunc. cbn [Qnum Qden Qfloor] in *.
  apply Z.quot_div_nonneg; [exact H | reflexivity].
Qed.

(** For the binary units the products are exact: the parser returns the
    number times [1024 ^ k], truncated, unless that leaves the binary64
    range. *)
Lemma parse_transfer_binary (num ws u : str) (k : nat) (q : Q) :
  PyFloat.of_string num = Some (PyFloat.Finite q) ->
  blank ws = true ->
  In (PyStr.lower u, k) [("kib", 1%nat); ("mib", 2%nat); ("gib", 3%nat)] ->
  _parse_transfer (num ++ ws ++ u)
  = within_range (Qtrunc (q * inject_Z (1024 ^ Z.of_nat k))).
Proof.
  intros Hnum Hws Hin.
  assert (Htab : In (PyStr.lower u, repeat 1024 k) unit_table).
  { cbn [In] in Hin. unfold unit_table. cbn [In].
    destruct Hin as [E | [E | [E | []]]]; inversion E; subst k; cbn [repeat]; tauto. }
  rewrite (parse_transfer_unit num ws u _ _
             (of_string_unitless _ _ Hnum) Hws eq_refl Htab),
    (of_string_strip _ (accept_readable _ _ Hnum)), Hnum.
  destruct (of_string_binary64 _ _ Hnum) as (m & s & Hs & Hm & Hrange & ->).
  assert (Hs' : 0 <= s + 10 * Z.of_nat k) by lia.
  assert (Etrunc : Qtrunc (PyFloat.dyadic m s * inject_Z (1024 ^ Z.of_nat k))
                   = Z.quot (m * 2 ^ (s + 10 * Z.of_nat k)) (2 ^ 1074)).
  { unfold Qtrunc. cbn [Qmult Qnum Qden inject_Z]. rewrite Pos.mul_1_r.
    apply quot_cross; [reflexivity | exact pow2_1074_pos |].
    pose proof (dyadic_ratio m s) as E.
    rewrite pow_1024, Z.pow_add_r by lia.
    replace (Qnum (PyFloat.dyadic m s) * 2 ^ (10 * Z.of_nat k) * 2 ^ 1074)
      with (Qnum (PyFloat.dyadic m s) * 2 ^ 1074 * 2 ^ (10 * Z.of_nat k)) by ring.
    rewrite E. ring. }
  rewrite Etrunc, (within_range_quot _ _ Hs'), (times_1024 m k Hm s Hs Hrange).
  unfold int_or_zero.
  destruct (2 ^ 2098 <=? Z.abs m * 2 ^ (s + 10 * Z.of_nat k)); [reflexivity|].
  rewrite to_int_dyadic. reflexivity.
Qed.


(** On every token: the first unit that the lower case of the token
    holds decides the factors, and what is left without it goes to
    [float]. *)
Lemma parse_transfer_every (token : str) :
  _parse_transfer token
  = match first_unit (PyStr.lower token) with
    | Some (marker, factors) =>
        match PyFloat.of_string
                (PyStr.strip (PyStr.remove marker (PyStr.lower token))) with
        | Some f => int_or_zero (times f factors)
        | None => 0
        end
    | None =>
        match PyFloat.of_string token with
        | Some f => int_or_zero f
        | None => 0
        end
    end.
Proof.
  unfold _parse_transfer, first_unit, unit_table. cbn [find fst].
  repeat match goal with
         | |- context [if PyStr.contains ?m ?t then _ else _] =>
             destruct (PyStr.contains m t);
             [unfold scaled, times, int_or_zero;
              destruct (PyFloat.of_string _); reflexivity|]
         end.
  rewrite of_string_lower. unfold int_or_zero.
  destruct (PyFloat.of_string token); reflexivity.
Qed.

(** C3 (amended).  On a token made of a text [float] accepts, whitespace,
    and a unit in any letter case, the byte-size parser returns the
    double-precision product of the number by the unit's factors (1024 once,
    twice or three times for KiB, MiB, GiB; 1000 likewise for KB, MB, GB),
    each product rounded to binary64, truncated toward zero, and 0 when that
    product is not finite; for the binary units the products are exact and
    the result is the number times [1024 ^ k] truncated toward zero, or 0
    beyond the binary64 range.  On a text [float] accepts, without unit, it
    returns the number truncated toward zero (0 when not finite).  On a
    token whose lower case holds none of the six units it returns 0 where
    [float] rejects the token.  On a token made of a text whose lower case
    holds no k, m or g, whitespace, and a unit, the text goes to [float]
    without the whitespace [str.strip] takes from its ends: the parser
    returns the product as above where [float] accepts that, and 0 where it
    rejects it.  On every token: when the lower case of the token holds a
    unit, the first of kib, mib, gib, kb, mb, gb that it holds is taken out
    of it wherever it stands, what is left goes to [float] without the
    whitespace at its ends, and the parser returns the product by the
    factors of that unit, or 0 where [float] rejects what is left or the
    product is not finite; when it holds none, the parser returns the
    number [float] reads in the token, truncated, or 0.  In particular
    "1.5 KiB" gives 1536, "2.3 MiB" gives 2411724, "0.5 GiB" gives
    536870912, "123" gives 123 and "invalid" gives 0; "kib5" gives 5120;
    and since [str.strip] takes away the separators U+001C to U+001F, which
    [float] does not skip, U+001C followed by "8" gives 0 and, followed by
    "8 KiB", 8192. *)
Theorem byte_size_parser :
  (forall num ws u factors f,
      PyFloat.of_string num = Some f ->
      blank ws = true ->
      In (PyStr.lower u, factors) unit_table ->
      _parse_transfer (num ++ ws ++ u) = int_or_zero (times f factors))
  /\ (forall num ws u k q,
         PyFloat.of_string num = Some (PyFloat.Finite q) ->
         blank ws = true ->
         In (PyStr.lower u, k) [("kib", 1%nat); ("mib", 2%nat); ("gib", 3%nat)] ->
         _parse_transfer (num ++ ws ++ u)
         = within_range (Qtrunc (q * inject_Z (1024 ^ Z.of_nat k))))
  /\ (forall num f,
         PyFloat.of_string num = Some f ->
         _parse_transfer num = int_or_zero f)
  /\ (forall token,
         no_unit_marker (PyStr.lower token) = true ->
         PyFloat.of_string token = None ->
         _parse_transfer token = 0)
  /\ (forall num ws u factors,
         unitless (PyStr.lower num) = true ->
         blank ws = true ->
         In (PyStr.lower u, factors) unit_table ->
         _parse_transfer (num ++ ws ++ u)
         = match PyFloat.of_string (PyStr.strip num) with
           | Some f => int_or_zero (times f factors)
           | None => 0
           end)
  /\ (forall token,
         _parse_transfer token
         = match first_unit (PyStr.lower token) with
           | Some (marker, factors) =>
               match PyFloat.of_string
                       (PyStr.strip (PyStr.remove marker (PyStr.lower token))) with
               | Some f => int_or_zero (times f factors)
               | None => 0
               end
           | None =>
               match PyFloat.of_string token with
               | Some f => int_or_zero f
               | None => 0
               end
           end)
  /\ _parse_transfer "1.5 KiB" = 1536
  /\ _parse_transfer "2.3 MiB" = 2411724
  /\ _parse_transfer "0.5 GiB" = 536870912
  /\ _parse_transfer "123" = 123
  /\ _parse_transfer "invalid" = 0
  /\ _parse_transfer "kib5" = 5120
  /\ _parse_transfer (String 28%N "8") = 0
  /\ _parse_transfer (String 28%N "8 KiB") = 8192.
Proof.
  split; [|split; [|split; [|split; [|split; [|split]]]]].
  - intros num ws u factors f Hnum Hws Hin.
    rewrite (parse_transfer_unit num ws u _ _
               (of_string_unitless _ _ Hnum) Hws eq_refl Hin),
      (of_string_strip _ (accept_readable _ _ Hnum)), Hnum.
    reflexivity.
  - exact parse_transfer_binary.
  - intros num f Hnum.
    rewrite (parse_transfer_plain num
               (no_unit_marker_unitless _ (of_string_unitless _ _ Hnum))), Hnum.
    reflexivity.
  - intros token Hno Hnone.
    rewrite (parse_transfer_plain token Hno), Hnone. reflexivity.
  - intros num ws u factors Hnum Hws Hin.
    exact (parse_transfer_unit num ws u _ _ Hnum Hws eq_refl Hin).
  - exact parse_transfer_every.
  - repeat split; vm_compute; reflexivity.
Qed.

(** C3, at concrete tokens: a decimal unit whose product is rounded, a
    binary unit in mixed case after a tab, a plain number, a text that
    [float] rejects, without and with a unit, and a token of an
    Arabic-Indic digit, a no-break space and a unit written with the Kelvin
    sign. *)
Lemma byte_size_parser_witness :
  _parse_transfer "1.001 KB" = 1000
  /\ _parse_transfer ("2.3" ++ String TAB "" ++ "mIb") = 2411724
  /\ _parse_transfer " 123.9 " = 123
  /\ _parse_transfer "12 apples" = 0
  /\ _parse_transfer "1,5 KB" = 0
  /\ _parse_transfer ("٣" ++ String 160%N "" ++ String 8490%N "iB") = 3072.
Proof.
  destruct byte_size_parser as (Hunit & Hbin & Hplain & Hnone & Hany & _).
  split; [|split; [|split; [|split; [|split]]]].
  - eapply eq_trans;
      [eapply (Hunit "1.001" " " "KB" [1000]);
       [vm_compute; reflexivity | reflexivity | cbn; tauto]
      | vm_compute; reflexivity].
  - eapply eq_trans;
      [eapply (Hbin "2.3" (String TAB "") "mIb" 2%nat);
       [vm_compute; reflexivity | reflexivity | cbn; tauto]
      | vm_compute; reflexivity].
  - eapply eq_trans;
      [eapply (Hplain " 123.9 "); vm_compute; reflexivity
      | vm_compute; reflexivity].
  - apply Hnone; vm_compute; reflexivity.
  - eapply eq_trans;
      [eapply (Hany "1,5" " " "KB" [1000]);
       [vm_compute; reflexivity | reflexivity | cbn; tauto]
      | vm_compute; reflexivity].
  - eapply eq_trans;
      [eapply (Hunit "٣" (String 160%N "") (String 8490%N "iB") [1024]);
       [vm_compute; reflexivity | reflexivity | vm_compute; tauto]
      | vm_compute; reflexivity].
Defined.

(** C3 as stated fails on its own example, on the decimal units, and on
    a text that is no number with a unit: the parser gives 2411724 for
    "2.3 MiB", which is also the floor of 2.3 * 1024 * 1024, not 2412838; it
    gives 1000 for "1.001 KB", where the floor of 1.001 * 1000 is 1001,
    because the binary64 product is 1000.9999999999998863; and it gives
    5120, not 0, for "kib5", a text that [float] rejects and that is not a
    number followed by a unit. *)
Lemma byte_size_example_counterexample :
  _parse_transfer "2.3 MiB" = 2411724
  /\ Qfloor ((23 # 10) * 1024 * 1024) = 2411724
  /\ 2411724 <> 2412838
  /\ _parse_transfer "1.001 KB" = 1000
  /\ Qfloor ((1001 # 1000) * 1000) = 1001
  /\ PyFloat.of_string "kib5" = None
  /\ _parse_transfer "kib5" = 5120.
Proof.
  repeat split; try (vm_compute; reflexivity). discriminate.
Qed.
Lemma prefix_app (p s : str) :
  Str.prefix p s = true -> exists t, s = p ++ t.
Proof.
  revert s. induction p as [|a p IH]; intros s H.
  - exists s. reflexivity.
  - destruct s as [|b s]; cbn in H; [discriminate|].
    destruct (Char.dec a b) as [->|_]; [|discriminate].
    destruct (IH s H) as [t ->]. exists t. reflexivity.
Qed.

Lemma contains_app (pat s : str) :
  PyStr.contains pat s = true -> exists a b, s = a ++ pat ++ b.
Proof.
  induction s as [|c r IH]; cbn [PyStr.contains].
  - destruct (Str.prefix pat "") eqn:E; [|discriminate].
    intros _. destruct (prefix_app _ _ E) as [t Ht]. exists "", t. exact Ht.
  - destruct (Str.prefix pat (String c r)) eqn:E.
    + intros _. destruct (prefix_app _ _ E) as [t Ht]. exists "", t. exact Ht.
    + intros H. destruct (IH H) as [a [b ->]]. exists (String c a), b. reflexivity.
Qed.

Lemma split_colon_length (a b : str) :
  (2 <= List.length (PyStr.split ":" (a ++ String ":" b)))%nat.
Proof.
  induction a as [|c a IH]; cbn [Str.append PyStr.split].
  - rewrite char_eqb_refl. cbn [List.length].
    pose proof (split_nonempty ":" b). destruct (PyStr.split ":" b); [congruence | cbn; lia].
  - destruct (Char.eqb c ":").
    + cbn [List.length]. lia.
    + destruct (PyStr.split ":" (a ++ String ":" b)) as [|h t]; cbn [List.length] in *; lia.
Qed.

Lemma colonless_false (s : str) :
  colonless s = false -> exists x y, s = x ++ String ":" y.
Proof.
  induction s as [|c s IH]; [discriminate|]. cbn [colonless].
  destruct (Char.eqb c ":") eqn:E.
  - intros _. apply char_eqb_eq in E. subst c. exists "", s. reflexivity.
  - cbn [negb andb]. intros H. destruct (IH H) as [x [y ->]].
    exists (String c x), y. reflexivity.
Qed.

Lemma colonless_at_colon (x y : str) : colonless (x ++ String ":" y) = false.
Proof.
  induction x as [|c x IH]; cbn [Str.append colonless].
  - rewrite char_eqb_refl. reflexivity.
  - rewrite IH. apply andb_false_r.
Qed.

(** A colon in the lower case of a text is a colon of the text. *)
Lemma lower_colon (s x y : str) :
  PyStr.lower s = x ++ String ":" y -> exists x' y', s = x' ++ String ":" y'.
Proof.
  intros H. apply colonless_false.
  rewrite <- (lowered_colonless _ _ (lower_lowered s)), H.
  apply colonless_at_colon.
Qed.

(** A line that holds a marker ending in a colon, in any letter case, has
    a second field: [line.split(':')[1]] is defined. *)
Lemma marker_line_has_field (word line : str) :
  PyStr.contains (word ++ ":") (PyStr.lower line) = true ->
  (2 <= List.length (PyStr.split ":" line))%nat.
Proof.
  intros H. destruct (contains_app _ _ H) as [a [b E]].
  rewrite string_app_assoc in E. change (":" ++ b) with (String ":" b) in E.
  rewrite <- string_app_assoc in E.
  destruct (lower_colon _ _ _ E) as [x' [y' ->]].
  apply split_colon_length.
Qed.

Lemma split_ws_aux_some (s w : str) : PyStr.split_ws_aux (Some w) s <> [].
Proof.
  revert w. induction s as [|c s IH]; intros w; cbn [PyStr.split_ws_aux].
  - discriminate.
  - destruct (PyStr.is_space c); [discriminate | apply IH].
Qed.

Lemma split_ws_word (a : str) (c : char) (b : str) :
  PyStr.is_space c = false -> PyStr.split_ws (a ++ String c b) <> [].
Proof.
  intros Hc. unfold PyStr.split_ws. generalize (@None str).
  induction a as [|d a IH]; intros cur; cbn [Str.append PyStr.split_ws_aux].
  - rewrite Hc. destruct cur; apply split_ws_aux_some.
  - destruct (PyStr.is_space d); destruct cur; try discriminate; apply IH.
Qed.

(** A part that holds a word of the source has a first field:
    [part.split()[0]] is defined. *)
Lemma word_part_has_field (word part : str) (c : char) :
  PyStr.is_space c = false ->
  PyStr.contains (String c word) part = true ->
  PyStr.split_ws part <> [].
Proof.
  intros Hc H. destruct (contains_app _ _ H) as [a [b ->]].
  apply split_ws_word. exact Hc.
Qed.

(** ** What [turn_off_all] does with its fixed list *)

Section TurnOffAllFacts.

Context {World : Type} {platform : Platform World}.

(** Every profile of the list handed to the loop is attempted, in order,
    whatever the outcomes before it. *)
Lemma deactivate_each_names (profs : list str) (s : Sys World) :
  map (fun op => fst (fst op)) (result_of (deactivate_each profs s)) = profs.
Proof.
  revert s. induction profs as [|p rest IH]; intros s; [reflexivity|].
  cbn [deactivate_each]. unfold bind at 1.
  destruct (_deactivate_profile p s) as [[[success message] s1] l1].
  unfold bind. specialize (IH s1).
  destruct (deactivate_each rest s1) as [[operations s2] l2].
  unfold ret, result_of in *. cbn [fst snd map] in *. rewrite IH. reflexivity.
Qed.

(** The verdict of [turn_off_all] over the outcomes of its three
    deactivations: success exactly when none failed, and otherwise the
    failed profiles with their reasons. *)
Lemma turn_off_all_verdict (s : Sys World) :
  result_of (turn_off_all s) =
  let operations := result_of (deactivate_each ["App"; "bomBox"; "usa"] s) in
  if forallb (fun op => snd (fst op)) operations
  then (true, Msg.all_off)
  else (false, Msg.off_errors (PyStr.join ", " (map describe (failed_of operations)))).
Proof.
  unfold turn_off_all, bind, result_of.
  destruct (deactivate_each ["App"; "bomBox"; "usa"] s) as [[operations s1] l1].
  cbn [fst snd]. cbv zeta.
  assert (E : forallb (fun op => snd (fst op)) operations = true
              <-> failed_of operations = []).
  { unfold failed_of. induction operations as [|op ops IH]; cbn; [tauto|].
    destruct (snd (fst op)); cbn; [exact IH|]. split; discriminate. }
  destruct (forallb (fun op => snd (fst op)) operations).
  - rewrite (proj1 E eq_refl). reflexivity.
  - destruct (failed_of operations) as [|f fs]; [|reflexivity].
    pose proof (proj2 E eq_refl) as Habs. discriminate Habs.
Qed.

End TurnOffAllFacts.

(** * Further properties of the code *)

(** ** The retry loop *)

Section RetryExtras.

Context {World : Type} {platform : Platform World}.

(** X1.  With no attempt allowed ([max_retries] zero or negative),
    [_run_command_with_retry] returns a failure with the empty message,
    without spawning anything and without touching the state. *)
Theorem retry_no_attempt (command : list str) (timeout n : Z) (s : Sys World) :
  n <= 0 ->
  _run_command_with_retry command timeout (Some n) s = ((false, ""), s, []).
Proof.
  intros Hn. rewrite run_with_retry_some.
  replace (Z.to_nat n) with O by lia. reflexivity.
Qed.

Lemma retry_loop_shape (command : list str) (timeout : Z) (k : nat) :
  forall (last_error : str) (s : Sys World),
    attempts_shape (trace_of (retry_loop command timeout (S k) last_error s)) = true
    /\ (List.length (runs (trace_of (retry_loop command timeout (S k) last_error s)))
        <= S k)%nat.
Proof.
  induction k as [|k IH]; intros last_error s.
  - destruct (run_command_shape command timeout s) as [o [w Hrun]].
    rewrite (retry_loop_step _ _ _ _ _ _ _ _ Hrun).
    destruct (fst o); [split; [reflexivity | cbn; lia]|].
    destruct (stops_retrying (snd o)); [split; [reflexivity | cbn; lia]|].
    cbn [retry_loop]. unfold ret, trace_of. cbn [fst snd app].
    split; [reflexivity | cbn; lia].
  - destruct (run_command_shape command timeout s) as [o [w Hrun]].
    rewrite (retry_loop_step _ _ _ _ _ _ _ _ Hrun).
    destruct (fst o); [split; [reflexivity | cbn; lia]|].
    destruct (stops_retrying (snd o)); [split; [reflexivity | cbn; lia]|].
    specialize (IH (snd o) (mkSys (mgr s) w)).
    destruct (retry_loop command timeout (S k) (snd o) (mkSys (mgr s) w)) as [[b s2] l2].
    unfold trace_of in *. cbn [fst snd] in *. destruct IH as [Hshape Hlen].
    cbn [app attempts_shape runs List.length]. split; [exact Hshape | lia].
Qed.

(** X2.  Whatever the world does, the interactions of
    [_run_command_with_retry] are spawns of the one elevated command with
    the one timeout, and sleeps; there are at most [max_retries] spawns, one
    sleep between two consecutive spawns, and no sleep after the last
    one. *)
Theorem retry_trace_shape (command : list str) (timeout n : Z) (s : Sys World) :
  Forall (retry_event command timeout)
         (trace_of (_run_command_with_retry command timeout (Some n) s))
  /\ (List.length (runs (trace_of (_run_command_with_retry command timeout (Some n) s)))
      <= Z.to_nat n)%nat
  /\ (if 0 <? n
      then attempts_shape (trace_of (_run_command_with_retry command timeout (Some n) s))
           = true
      else trace_of (_run_command_with_retry command timeout (Some n) s) = []).
Proof.
  split; [exact (proj2 (run_with_retry_frame command timeout (Some n) s))|].
  rewrite run_with_retry_some.
  destruct (Z.ltb_spec 0 n) as [Hn | Hn].
  - destruct (Z.to_nat n) as [|k] eqn:E; [lia|].
    destruct (retry_loop_shape command timeout k "" s) as [Hshape Hlen].
    split; [exact Hlen | exact Hshape].
  - replace (Z.to_nat n) with O by lia. split; [cbn; lia | reflexivity].
Qed.

Lemma retry_loop_exhausted (command : list str) (timeout : Z) (k : nat) :
  forall (last_error : str) (s s' : Sys World) (msg : str) (l : list Event),
    retry_loop command timeout k last_error s = ((false, msg), s', l) ->
    stops_retrying msg = false ->
    List.length (runs l) = k /\ all_retryable l.
Proof.
  induction k as [|k IH]; intros last_error s s' msg l Hloop Hmsg.
  - cbn in Hloop. unfold ret in Hloop. inversion Hloop; subst.
    split; [reflexivity | constructor].
  - destruct (run_command_shape command timeout s) as [[success output] [w Hrun]].
    rewrite (retry_loop_step _ _ _ _ _ _ _ _ Hrun) in Hloop. cbn [fst snd] in Hloop.
    destruct success; [discriminate Hloop|].
    destruct (stops_retrying output) eqn:Hstop.
    { inversion Hloop; subst. congruence. }
    destruct (retry_loop command timeout k output (mkSys (mgr s) w)) as [[b s2] l2] eqn:Hrest.
    inversion Hloop; subst. clear Hloop.
    destruct (IH _ _ _ _ _ Hrest Hmsg) as [Hlen Hall].
    cbn [app runs List.length]. rewrite runs_app, length_app, Hlen.
    split; [destruct k; cbn; lia|].
    constructor.
    + intros argv t o E. inversion E; subst. split; [reflexivity | exact Hstop].
    + apply Forall_app. split; [|exact Hall].
      destruct k; [constructor|]. constructor; [discriminate | constructor].
Qed.

(** X3.  When [_run_command_with_retry] returns a failure whose output
    holds none of the markers that end the loop, every allowed attempt was
    used: exactly [max_retries] spawns were made, and each failed without
    such a marker. *)
Theorem retry_exhaustion (command : list str) (timeout n : Z)
        (s s' : Sys World) (msg : str) (l : list Event) :
  0 <= n ->
  _run_command_with_retry command timeout (Some n) s = ((false, msg), s', l) ->
  stops_retrying msg = false ->
  Z.of_nat (List.length (runs l)) = n /\ all_retryable l.
Proof.
  intros Hn Hrun Hmsg. rewrite run_with_retry_some in Hrun.
  destruct (retry_loop_exhausted _ _ _ _ _ _ _ _ Hrun Hmsg) as [Hlen Hall].
  split; [rewrite Hlen; lia | exact Hall].
Qed.

Lemma retry_loop_success (command : list str) (timeout : Z) (k : nat) :
  forall (last_error : str) (s s' : Sys World) (out : str) (l : list Event),
    retry_loop command timeout k last_error s = ((true, out), s', l) ->
    exists l0,
      l = (l0 ++ [EvRun ("pkexec" :: command) timeout (true, out)])%list
      /\ all_retryable l0.
Proof.
  induction k as [|k IH]; intros last_error s s' out l Hloop.
  - cbn in Hloop. unfold ret in Hloop. discriminate Hloop.
  - destruct (run_command_shape command timeout s) as [[success output] [w Hrun]].
    rewrite (retry_loop_step _ _ _ _ _ _ _ _ Hrun) in Hloop. cbn [fst snd] in Hloop.
    destruct success.
    { inversion Hloop; subst. exists []. split; [reflexivity | constructor]. }
    destruct (stops_retrying output) eqn:Hstop; [discriminate Hloop|].
    destruct (retry_loop command timeout k output (mkSys (mgr s) w)) as [[b s2] l2] eqn:Hrest.
    inversion Hloop; subst. clear Hloop.
    destruct (IH _ _ _ _ _ Hrest) as [l0 [-> Hall]].
    exists (EvRun ("pkexec" :: command) timeout (false, output)
              :: match k with O => [] | S _ => [EvSleep] end ++ l0)%list.
    split.
    + cbn [app]. rewrite app_assoc. reflexivity.
    + constructor.
      * intros argv t o E. inversion E; subst. split; [reflexivity | exact Hstop].
      * apply Forall_app. split; [|exact Hall].
        destruct k; [constructor|]. constructor; [discriminate | constructor].
Qed.

(** X4.  When [_run_command_with_retry] returns a success, the successful
    spawn is the last interaction: nothing is spawned or slept after it, its
    output is the output returned, and every spawn before it failed without
    a marker that ends the loop. *)
Theorem retry_success_is_last (command : list str) (timeout : Z)
        (arg : option Z) (s s' : Sys World) (out : str) (l : list Event) :
  _run_command_with_retry command timeout arg s = ((true, out), s', l) ->
  exists l0,
    l = (l0 ++ [EvRun ("pkexec" :: command) timeout (true, out)])%list
    /\ all_retryable l0.
Proof.
  destruct arg as [n|];
    [rewrite run_with_retry_some | rewrite run_with_retry_none];
    apply retry_loop_success.
Qed.

Lemma timeout_has_marker (t : Z) : stops_retrying (Msg.timeout t) = true.
Proof.
  unfold stops_retrying. replace (PyStr.contains Msg.timeout_marker (Msg.timeout t)) with true;
    [reflexivity|].
  unfold Msg.timeout, Msg.timeout_marker. reflexivity.
Qed.

(** X5.  A command that runs into its timeout is never retried, whatever
    the timeout and however many attempts are allowed: one spawn, and the
    timeout message as the failure. *)
Theorem timeout_not_retried (command : list str) (timeout n : Z)
        (s : Sys World) (w : World) :
  1 <= n ->
  subprocess_run ("pkexec" :: command) timeout (world s) = (TimeoutExpired, w) ->
  _run_command_with_retry command timeout (Some n) s
  = ((false, Msg.timeout timeout), mkSys (mgr s) w,
     [EvRun ("pkexec" :: command) timeout (false, Msg.timeout timeout)]).
Proof.
  intros Hn Hsub. rewrite run_with_retry_some.
  destruct (Z.to_nat n) as [|k] eqn:E; [lia|].
  assert (Hrun : _run_command command timeout s
                 = ((false, Msg.timeout timeout), mkSys (mgr s) w,
                    [EvRun ("pkexec" :: command) timeout (false, Msg.timeout timeout)])).
  { unfold _run_command. rewrite Hsub. reflexivity. }
  rewrite (retry_loop_step _ _ _ _ _ _ _ _ Hrun). cbn [fst snd].
  rewrite timeout_has_marker. reflexivity.
Qed.

End RetryExtras.


(** ** A small logic of commands *)

Lemma same_config_refl (m : Manager) : same_config m m.
Proof. repeat split. Qed.

Lemma same_config_trans (a b c : Manager) :
  same_config a b -> same_config b c -> same_config a c.
Proof.
  unfold same_config. intros (A1 & A2 & A3 & A4 & A5) (B1 & B2 & B3 & B4 & B5).
  repeat split; congruence.
Qed.

Lemma same_config_with_active (c m : Manager) (a : option str) :
  same_config c m -> same_config c (with_active a m).
Proof. exact (fun H => H). Qed.

Lemma same_config_with_cache (c m : Manager) (k : list (str * ProfileInfo)) :
  same_config c m -> same_config c (with_cache k m).
Proof. exact (fun H => H). Qed.

Section Triples.

Context {World : Type} {platform : Platform World}.

Lemma triple_ret {A : Type} (c : Manager) (Q : list str -> Prop) (a : A)
      (R : A -> Prop) :
  R a -> triple c Q (ret (World := World) a) R.
Proof.
  intros Ha s Hs. unfold ret, state_of, trace_of, result_of. cbn.
  split; [exact Hs|]. split; [constructor | exact Ha].
Qed.

Lemma triple_bind {A B : Type} (c : Manager) (Q : list str -> Prop)
      (m : M World A) (f : A -> M World B) (R : A -> Prop) (R' : B -> Prop) :
  triple c Q m R ->
  (forall a, R a -> triple c Q (f a) R') ->
  triple c Q (bind m f) R'.
Proof.
  intros Hm Hf s Hs. specialize (Hm s Hs). unfold bind.
  destruct (m s) as [[a s1] l1]. unfold state_of, trace_of, result_of in Hm.
  cbn [fst snd] in Hm. destruct Hm as (Hs1 & Hl1 & Ha).
  specialize (Hf a Ha s1 Hs1).
  destruct (f a s1) as [[b s2] l2]. unfold state_of, trace_of, result_of in *.
  cbn [fst snd] in *. destruct Hf as (Hs2 & Hl2 & Hb).
  split; [exact Hs2|]. split; [|exact Hb].
  rewrite runs_app. apply Forall_app. split; assumption.
Qed.

Lemma triple_weaken {A : Type} (c : Manager) (Q Q' : list str -> Prop)
      (m : M World A) (R R' : A -> Prop) :
  triple c Q m R ->
  (forall argv, Q argv -> Q' argv) -> (forall a, R a -> R' a) ->
  triple c Q' m R'.
Proof.
  intros Hm HQ HR s Hs. destruct (Hm s Hs) as (H1 & H2 & H3).
  split; [exact H1|]. split; [|exact (HR _ H3)].
  eapply Forall_impl; [exact HQ | exact H2].
Qed.

Lemma triple_self (c : Manager) (Q : list str -> Prop) :
  triple c Q (self (World := World)) (same_config c).
Proof.
  intros s Hs. unfold self, state_of, trace_of, result_of. cbn.
  split; [exact Hs|]. split; [constructor | exact Hs].
Qed.

Lemma triple_log (c : Manager) (Q : list str -> Prop) (e : Event) :
  is_run e = false -> triple c Q (log (World := World) e) (fun _ => True).
Proof.
  intros He s Hs. unfold log, state_of, trace_of, result_of. cbn [fst snd].
  split; [exact Hs|]. split; [|exact I].
  destruct e; try discriminate He; constructor.
Qed.

Lemma triple_ask {A : Type} (c : Manager) (Q : list str -> Prop) (g : World -> A) :
  triple c Q (ask g) (fun _ => True).
Proof.
  intros s Hs. unfold ask, state_of, trace_of, result_of. cbn.
  split; [exact Hs|]. split; [constructor | exact I].
Qed.

Lemma triple_set_active (c : Manager) (Q : list str -> Prop) (a : option str) :
  triple c Q (set_active_profile (World := World) a) (fun _ => True).
Proof.
  intros s Hs. unfold set_active_profile, state_of, trace_of, result_of. cbn.
  split; [exact Hs|]. split; [constructor | exact I].
Qed.

Lemma triple_set_cache (c : Manager) (Q : list str -> Prop)
      (k : list (str * ProfileInfo)) :
  triple c Q (set_profiles_cache (World := World) k) (fun _ => True).
Proof.
  intros s Hs. unfold set_profiles_cache, state_of, trace_of, result_of. cbn.
  split; [exact Hs|]. split; [constructor | exact I].
Qed.

(** The retry-wrapped runner spawns its one command, elevated. *)
Lemma triple_retry (c : Manager) (command : list str) (timeout : Z) (arg : option Z) :
  triple c (eq ("pkexec" :: command))
         (_run_command_with_retry command timeout arg) (fun _ => True).
Proof.
  intros s Hs.
  destruct (run_with_retry_frame command timeout arg s) as [Hm Hev].
  split; [rewrite Hm; exact Hs|]. split; [|exact I].
  apply retry_events_runs in Hev.
  eapply Forall_impl; [|exact Hev]. intros a Ha. symmetry. exact Ha.
Qed.

(** The existence check and the validation spawn nothing. *)
Lemma triple_check_exists (c : Manager) (Q : list str -> Prop) (p : str) :
  triple c Q (check_profile_exists p) (fun ex => In p (profiles c) -> ex = true).
Proof.
  intros s Hs. destruct (check_profile_exists_frame p s) as [Hst Hl].
  rewrite Hst, Hl. split; [exact Hs|]. split; [constructor|].
  intros Hin. destruct Hs as (Hp & _). rewrite Hp in Hin.
  rewrite (check_profile_exists_configured _ _ Hin). reflexivity.
Qed.

Lemma triple_validate (c : Manager) (Q : list str -> Prop) (p : str) :
  triple c Q (validate_profile p) (fun _ => True).
Proof.
  intros s Hs. destruct (validate_profile_frame p s) as [Hst Hl].
  rewrite Hst, Hl. split; [exact Hs|]. split; [constructor | exact I].
Qed.

(** The derivation of the active profile spawns the status query only and
    names a configured profile or nothing. *)
Lemma triple_get_active (c : Manager) :
  triple c (eq wg_show_cmd) get_active_profile
         (fun a => forall p, a = Some p -> In p (profiles c)).
Proof.
  unfold get_active_profile.
  eapply triple_bind; [apply triple_self|]. intros m Hm. cbv beta.
  eapply triple_bind; [apply triple_retry|]. intros [success output] _.
  destruct success; cbn [negb].
  - eapply triple_bind; [apply triple_set_active|]. intros _ _.
    apply triple_ret. intros p Hp. destruct Hm as (Hprofs & _). rewrite Hprofs.
    exact (scan_interfaces_In _ _ _ Hp).
  - apply triple_ret. intros p Hp. discriminate Hp.
Qed.

(** So does the status of a profile; for a configured profile the status
    is ACTIVE or INACTIVE. *)
Lemma triple_get_status (c : Manager) (p : str) :
  triple c (eq wg_show_cmd) (get_profile_status p)
         (fun st => In p (profiles c) -> st = ACTIVE \/ st = INACTIVE).
Proof.
  unfold get_profile_status.
  eapply triple_bind; [apply triple_get_active|]. intros active _. cbv beta.
  destruct (option_string_eqb active p).
  - apply triple_ret. intros _. left. reflexivity.
  - eapply triple_bind; [apply triple_check_exists|]. intros ex Hex. cbv beta.
    destruct ex; cbn [negb]; apply triple_ret; intros Hin.
    + right. reflexivity.
    + specialize (Hex Hin). discriminate Hex.
Qed.

Lemma triple_deactivate (c : Manager) (p : str) :
  triple c (eq (down_cmd p)) (_deactivate_profile p) (fun _ => True).
Proof.
  unfold _deactivate_profile.
  eapply triple_bind; [apply triple_self|]. intros m _. apply triple_retry.
Qed.

Lemma triple_activate (c : Manager) (p : str) :
  triple c (eq (up_cmd p)) (_activate_profile p) (fun _ => True).
Proof.
  unfold _activate_profile.
  eapply triple_bind; [apply triple_self|]. intros m _. apply triple_retry.
Qed.

End Triples.

(** ** Activation *)

Lemma phased_first (Q Q' : list str -> Prop) (l : list (list str)) :
  Forall Q l -> phased Q Q' l.
Proof.
  intros H. exists l, []. rewrite app_nil_r. split; [reflexivity|].
  split; [exact H | constructor].
Qed.

Lemma phased_second (Q Q' : list str -> Prop) (l : list (list str)) :
  Forall Q' l -> phased Q Q' l.
Proof.
  intros H. exists [], l. split; [reflexivity|]. split; [constructor | exact H].
Qed.

Lemma phased_cons_app (Q Q' : list str -> Prop) (l1 l2 : list (list str)) :
  Forall Q l1 -> phased Q Q' l2 -> phased Q Q' (l1 ++ l2).
Proof.
  intros H1 (pre & post & -> & Hpre & Hpost).
  exists (l1 ++ pre)%list, post. rewrite app_assoc. split; [reflexivity|].
  split; [apply Forall_app; split; assumption | exact Hpost].
Qed.

Section ActivationExtras.

Context {World : Type} {platform : Platform World}.

Lemma triple_active_others (c : Manager) (target : str) (profs : list str) :
  triple c (eq wg_show_cmd) (active_others target profs)
         (fun l => forall p, In p l -> In p profs /\ p <> target).
Proof.
  induction profs as [|profile rest IH]; cbn [active_others].
  - apply triple_ret. intros p [].
  - destruct (Str.eqb profile target) eqn:E; cbn [negb].
    + eapply triple_weaken; [exact IH | exact (fun _ H => H) |].
      intros l Hl p Hp. destruct (Hl p Hp) as [H1 H2]. split; [right; exact H1 | exact H2].
    + apply str_eqb_neq in E.
      eapply triple_bind;
        [eapply triple_weaken;
         [apply triple_get_status | exact (fun _ H => H) | exact (fun _ _ => I)]|].
      intros current _. cbv beta.
      eapply triple_bind; [exact IH|]. intros others Hothers. cbv beta.
      apply triple_ret. intros p Hp.
      assert (Hcase : p = profile \/ In p others).
      { destruct (ProfileStatus_eqb current ACTIVE); [destruct Hp as [<-|Hp]|];
          [left; reflexivity | right; exact Hp | right; exact Hp]. }
      destruct Hcase as [-> | Hin].
      * split; [left; reflexivity | exact E].
      * destruct (Hothers p Hin) as [H1 H2]. split; [right; exact H1 | exact H2].
Qed.

Lemma triple_deactivate_others (c : Manager) (l : list str) :
  triple c (fun argv => exists p, In p l /\ argv = down_cmd p)
         (deactivate_others l) (fun _ => True).
Proof.
  induction l as [|p rest IH]; cbn [deactivate_others].
  - apply triple_ret. exact I.
  - eapply triple_bind.
    + eapply triple_weaken; [apply (triple_deactivate c p) | | exact (fun _ H => H)].
      intros argv <-. exists p. split; [left; reflexivity | reflexivity].
    + intros _ _. eapply triple_weaken; [exact IH | | exact (fun _ H => H)].
      intros argv (q & Hq & ->). exists q. split; [right; exact Hq | reflexivity].
Qed.

(** The part of [activate_profile] that precedes the bringing up of the
    target: the status queries and the deactivations. *)
Lemma prelude_of_activation (target : str) (s3 : Sys World) :
  let r4 := active_others target (profiles (mgr s3)) s3 in
  let r5 := deactivate_others (result_of r4) (state_of r4) in
  same_config (mgr s3) (mgr (state_of r5))
  /\ Forall (prelude_cmd (mgr s3) target) (runs (trace_of r4 ++ trace_of r5)).
Proof.
  cbv zeta.
  destruct (triple_active_others (mgr s3) target (profiles (mgr s3)) s3
              (same_config_refl _)) as (Hc4 & Hr4 & Hres4).
  destruct (triple_deactivate_others (mgr s3)
              (result_of (active_others target (profiles (mgr s3)) s3))
              (state_of (active_others target (profiles (mgr s3)) s3)) Hc4)
    as (Hc5 & Hr5 & _).
  split; [exact Hc5|].
  rewrite runs_app. apply Forall_app. split.
  - eapply Forall_impl; [|exact Hr4]. intros argv <-. left. reflexivity.
  - eapply Forall_impl; [|exact Hr5]. intros argv (p & Hp & ->).
    destruct (Hres4 p Hp) as [H1 H2]. right. exists p. repeat split; assumption.
Qed.

(** X6.  Whatever the world does, the commands [activate_profile] spawns
    come in two phases: first status queries and deactivations of
    configured profiles other than the target, then nothing but
    [wg-quick up] of the target.  It never brings the target down, never
    brings another profile up, and spawns nothing after the target is
    brought up; and it leaves the configuration of the manager as it was. *)
Theorem activation_commands (target : str) (s : Sys World) :
  phased (prelude_cmd (mgr s) target) (eq (up_cmd target))
         (runs (trace_of (activate_profile target s)))
  /\ same_config (mgr s) (mgr (state_of (activate_profile target s))).
Proof.
  unfold activate_profile.
  pose proof (check_profile_exists_frame target s) as [Hs1 Hl1].
  destruct (check_profile_exists target s) as [[ex s1] l1] eqn:E1.
  unfold state_of, trace_of in Hs1, Hl1. cbn [fst snd] in Hs1, Hl1. subst s1.
  rewrite (bind_run _ _ _ _ _ _ E1).
  destruct ex; cbn [negb];
    [|unfold ret, trace_of, state_of; cbn [fst snd]; rewrite app_nil_r, Hl1;
      split; [apply phased_first; constructor | apply same_config_refl]].
  pose proof (validate_profile_frame target s) as [Hs2 Hl2].
  destruct (validate_profile target s) as [[[valid msg] s2] l2] eqn:E2.
  unfold state_of, trace_of in Hs2, Hl2. cbn [fst snd] in Hs2, Hl2. subst s2.
  rewrite (bind_run _ _ _ _ _ _ E2).
  destruct valid; cbn [negb];
    [|unfold ret, trace_of, state_of; cbn [fst snd]; rewrite !runs_app, Hl1, Hl2;
      split; [apply phased_first; constructor | apply same_config_refl]].
  destruct (triple_get_status (mgr s) target s (same_config_refl _)) as (Hc3 & Hr3 & _).
  destruct (get_profile_status target s) as [[st s3] l3] eqn:E3.
  unfold state_of, trace_of in Hc3, Hr3. cbn [fst snd] in Hc3, Hr3.
  assert (Hr3' : Forall (prelude_cmd (mgr s) target) (runs l3)).
  { eapply Forall_impl; [|exact Hr3]. intros argv <-. left. reflexivity. }
  rewrite (bind_run _ _ _ _ _ _ E3).
  destruct (ProfileStatus_eqb st ACTIVE).
  { unfold ret, trace_of, state_of. cbn [fst snd].
    rewrite !runs_app, Hl1, Hl2. cbn [app runs]. rewrite app_nil_r.
    split; [apply phased_first; exact Hr3' | exact Hc3]. }
  rewrite bind_self.
  pose proof (prelude_of_activation target s3) as Hpre. cbv zeta in Hpre.
  destruct (active_others target (profiles (mgr s3)) s3) as [[others s4] l4] eqn:E4.
  rewrite (bind_run _ _ _ _ _ _ E4).
  unfold result_of, state_of, trace_of in Hpre. cbn [fst snd] in Hpre.
  destruct (deactivate_others others s4) as [[u s5] l5] eqn:E5.
  cbn [fst snd] in Hpre. destruct Hpre as [Hc5 Hr45].
  rewrite (bind_run _ _ _ _ _ _ E5).
  destruct (triple_activate (mgr s) target s5 (same_config_trans _ _ _ Hc3 Hc5))
    as (Hc6 & Hr6 & _).
  destruct (_activate_profile target s5) as [[[success message] s6] l6] eqn:E6.
  unfold state_of, trace_of in Hc6, Hr6. cbn [fst snd] in Hc6, Hr6.
  rewrite (bind_run _ _ _ _ _ _ E6).
  assert (Hpre : Forall (prelude_cmd (mgr s) target) (runs (l3 ++ l4 ++ l5))).
  { rewrite runs_app. apply Forall_app. split; [exact Hr3'|].
    eapply Forall_impl; [|exact Hr45].
    intros argv [-> | (p & Hp & Hne & ->)]; [left; reflexivity|].
    right. exists p. destruct Hc3 as (Hprofs & _). rewrite Hprofs.
    repeat split; assumption. }
  assert (Hruns : forall tail, runs tail = [] ->
            phased (prelude_cmd (mgr s) target) (eq (up_cmd target))
                   (runs (l1 ++ l2 ++ l3 ++ l4 ++ l5 ++ l6 ++ tail))).
  { intros tail Htail.
    exists (runs (l3 ++ l4 ++ l5)), (runs l6).
    split; [|split; [exact Hpre | exact Hr6]].
    rewrite !runs_app, Hl1, Hl2, Htail, app_nil_r. cbn [app].
    rewrite <- !app_assoc. reflexivity. }
  destruct success; unfold bind, set_active_profile, ret, trace_of, state_of;
    cbn [fst snd mgr]; (split; [apply Hruns; reflexivity | exact Hc6]).
Qed.

End ActivationExtras.

(** ** Queries and checks *)

Lemma dict_get_set_same {V : Type} (k : str) (v : V) (d : list (str * V)) :
  dict_get k (dict_set k v d) = Some v.
Proof.
  induction d as [|[k' v'] d IH]; cbn [dict_set dict_get].
  - rewrite str_eqb_refl. reflexivity.
  - destruct (Str.eqb k k') eqn:E; cbn [dict_get].
    + rewrite str_eqb_refl. reflexivity.
    + rewrite E. exact IH.
Qed.

Lemma dict_get_set_other {V : Type} (k k' : str) (v : V) (d : list (str * V)) :
  k <> k' -> dict_get k (dict_set k' v d) = dict_get k d.
Proof.
  intros Hne. induction d as [|[k0 v0] d IH]; cbn [dict_set dict_get].
  - apply str_eqb_neq in Hne. rewrite Hne. reflexivity.
  - destruct (Str.eqb k' k0) eqn:E; cbn [dict_get].
    + apply str_eqb_eq in E. subst k0.
      apply str_eqb_neq in Hne. rewrite Hne. reflexivity.
    + rewrite IH. reflexivity.
Qed.

(** A transfer line touches the two counters and nothing else. *)
Lemma apply_transfer_line_keeps (line : str) (i : ProfileInfo) :
  let j := apply_transfer_line line i in
  name j = name i /\ status j = status i /\ config_path j = config_path i
  /\ interface_name j = interface_name i /\ public_key j = public_key i
  /\ endpoint j = endpoint i /\ last_handshake j = last_handshake i.
Proof.
  cbv zeta. unfold apply_transfer_line.
  destruct (PyStr.contains "transfer:" (PyStr.lower line)); [|repeat split].
  destruct (2 <=? List.length _)%nat; [|repeat split].
  destruct (PyStr.contains "received" _); destruct (PyStr.contains "sent" _);
    repeat split.
Qed.

Lemma apply_transfer_lines_keeps (output : str) (i : ProfileInfo) :
  let j := apply_transfer_lines output i in
  name j = name i /\ status j = status i /\ config_path j = config_path i
  /\ interface_name j = interface_name i /\ public_key j = public_key i
  /\ endpoint j = endpoint i /\ last_handshake j = last_handshake i.
Proof.
  cbv zeta. unfold apply_transfer_lines.
  generalize (output_lines output). intros lines. revert i.
  induction lines as [|line lines IH]; intros i; cbn [fold_left]; [repeat split|].
  destruct (IH (apply_transfer_line line i)) as (A1 & A2 & A3 & A4 & A5 & A6 & A7).
  destruct (apply_transfer_line_keeps line i) as (B1 & B2 & B3 & B4 & B5 & B6 & B7).
  repeat split; congruence.
Qed.

Section QueryExtras.

Context {World : Type} {platform : Platform World}.

Lemma triple_profile_info (c : Manager) (p : str) :
  In p (profiles c) ->
  triple c (eq wg_show_cmd) (profile_info p) (entry_of c p).
Proof.
  intros Hin. unfold profile_info.
  eapply triple_bind; [apply triple_self|]. intros m Hm. cbv beta.
  eapply triple_bind; [apply triple_get_status|]. intros st Hst. cbv beta zeta.
  specialize (Hst Hin). destruct Hm as (_ & Hdir & _).
  assert (Hnew : entry_of c p
                   (new_ProfileInfo p st (path_join (config_dir m) (p ++ ".conf")))).
  { unfold entry_of, new_ProfileInfo. cbn. rewrite Hdir. repeat split. exact Hst. }
  destruct (ProfileStatus_eqb st ACTIVE) eqn:Eact; [|apply triple_ret; exact Hnew].
  eapply triple_bind; [apply (triple_retry c ["wg"; "show"])|].
  intros [success output] _.
  destruct success; apply triple_ret; [|exact Hnew].
  destruct (apply_transfer_lines_keeps output
              (new_ProfileInfo p st (path_join (config_dir m) (p ++ ".conf"))))
    as (A1 & A2 & A3 & A4 & A5 & A6 & A7).
  destruct Hnew as (B1 & B2 & B3 & B4 & B5 & B6 & B7 & B8).
  unfold entry_of. rewrite A1, A2, A3, A4, A5, A6, A7.
  split; [exact B1|]. split; [exact B2|]. split; [exact B3|].
  split; [|repeat split; assumption].
  intros Hst'. destruct st; cbn in Eact; try discriminate Eact.
  cbn in Hst'. discriminate Hst'.
Qed.

Lemma triple_collect_infos (c : Manager) (profs : list str) :
  forall acc : list (str * ProfileInfo),
    (forall p, In p profs -> In p (profiles c)) ->
    (forall k info, dict_get k acc = Some info -> entry_of c k info) ->
    triple c (eq wg_show_cmd) (collect_infos profs acc)
           (fun res =>
              (forall k info, dict_get k res = Some info -> entry_of c k info)
              /\ (forall k, dict_get k res <> None
                            <-> dict_get k acc <> None \/ In k profs)).
Proof.
  induction profs as [|p rest IH]; intros acc Hsub Hacc; cbn [collect_infos].
  - apply triple_ret. split; [exact Hacc|]. intros k. cbn [In]. tauto.
  - eapply triple_bind; [apply (triple_profile_info c p); apply Hsub; left; reflexivity|].
    intros info Hinfo. cbv beta.
    eapply triple_weaken;
      [apply (IH (dict_set p info acc)) | exact (fun _ H => H) |].
    + intros q Hq. apply Hsub. right. exact Hq.
    + intros k i Hk. destruct (str_dec k p) as [->|Hne].
      * rewrite dict_get_set_same in Hk. inversion Hk; subst. exact Hinfo.
      * rewrite (dict_get_set_other _ _ _ _ Hne) in Hk. exact (Hacc _ _ Hk).
    + intros res [Hgood Hkeys]. split; [exact Hgood|].
      intros k. rewrite Hkeys. cbn [In].
      destruct (str_dec k p) as [->|Hne].
      * rewrite dict_get_set_same. split; [intros _; right; left; reflexivity|].
        intros _. left. discriminate.
      * rewrite (dict_get_set_other _ _ _ _ Hne).
        split; [intros [H|H]; [left; exact H | right; right; exact H]|].
        intros [H|[H|H]]; [left; exact H | congruence | right; exact H].
Qed.

Lemma triple_get_all (c : Manager) :
  triple c (eq wg_show_cmd) get_all_profiles_info
         (fun res =>
            (forall k info, dict_get k res = Some info -> entry_of c k info)
            /\ (forall k, dict_get k res <> None <-> In k (profiles c))).
Proof.
  unfold get_all_profiles_info.
  eapply triple_bind; [apply triple_self|]. intros m Hm. cbv beta.
  destruct Hm as (Hprofs & _).
  eapply triple_bind.
  - apply (triple_collect_infos c (profiles m) []).
    + intros p Hp. rewrite Hprofs. exact Hp.
    + intros k info Hk. discriminate Hk.
  - intros res [Hgood Hkeys]. cbv beta.
    eapply triple_bind; [apply triple_set_cache|]. intros _ _.
    apply triple_ret. split; [exact Hgood|].
    intros k. rewrite Hkeys, Hprofs. cbn [dict_get]. split; [|tauto].
    intros [H|H]; [congruence | exact H].
Qed.

(** X7.  [get_all_profiles_info] records an entry for each configured
    profile and for nothing else.  The entry under a name carries that name
    and the path of its configuration file; its status is ACTIVE or
    INACTIVE, never ERROR or UNKNOWN; the counters of an inactive profile
    are 0; and the interface name, public key, endpoint and last handshake
    are always left empty.  The result is also what the cache holds
    afterwards. *)
Theorem profiles_info_entries (s : Sys World) :
  let r := get_all_profiles_info s in
  (forall p, dict_get p (result_of r) <> None <-> In p (profiles (mgr s)))
  /\ (forall p info, dict_get p (result_of r) = Some info -> entry_of (mgr s) p info)
  /\ _profiles_cache (mgr (state_of r)) = result_of r.
Proof.
  cbv zeta.
  destruct (triple_get_all (mgr s) s (same_config_refl _)) as (_ & _ & Hgood & Hkeys).
  split; [exact Hkeys|]. split; [exact Hgood|].
  unfold get_all_profiles_info. rewrite bind_self. unfold bind.
  destruct (collect_infos (profiles (mgr s)) [] s) as [[res s1] l1].
  reflexivity.
Qed.

(** X8.  The operations that report on the tunnels spawn nothing but the
    status query [pkexec wg show] and leave the configuration of the
    manager as it was: the derivation of the active profile, the status of
    a profile, the information on all profiles, the raw status text and the
    refreshing of the cache. *)
Theorem queries_spawn_status_query_only (s : Sys World) (p : str) :
  only_queries s (get_active_profile s)
  /\ only_queries s (get_profile_status p s)
  /\ only_queries s (get_all_profiles_info s)
  /\ only_queries s (get_wg_show_output s)
  /\ only_queries s (refresh_cache s).
Proof.
  assert (Hshow : triple (mgr s) (eq wg_show_cmd) get_wg_show_output (fun _ => True)).
  { unfold get_wg_show_output.
    eapply triple_bind; [apply triple_self|]. intros m _. cbv beta.
    eapply triple_bind; [apply (triple_retry (mgr s) ["wg"; "show"])|].
    intros [success output] _. destruct success; apply triple_ret; exact I. }
  assert (Hrefresh : triple (mgr s) (eq wg_show_cmd) refresh_cache (fun _ => True)).
  { unfold refresh_cache.
    eapply triple_bind; [apply triple_get_all|]. intros res _.
    apply triple_set_cache. }
  unfold only_queries.
  destruct (triple_get_active (mgr s) s (same_config_refl _)) as (A1 & A2 & _).
  destruct (triple_get_status (mgr s) p s (same_config_refl _)) as (B1 & B2 & _).
  destruct (triple_get_all (mgr s) s (same_config_refl _)) as (C1 & C2 & _).
  destruct (Hshow s (same_config_refl _)) as (D1 & D2 & _).
  destruct (Hrefresh s (same_config_refl _)) as (E1 & E2 & _).
  split; [split; [exact A2 | exact A1]|].
  split; [split; [exact B2 | exact B1]|].
  split; [split; [exact C2 | exact C1]|].
  split; [split; [exact D2 | exact D1]|].
  split; [exact E2 | exact E1].
Qed.

Lemma observer_ret {A : Type} (a : A) : observer (ret (World := World) a).
Proof. intros s. split; reflexivity. Qed.

Lemma observer_bind {A B : Type} (m : M World A) (f : A -> M World B) :
  observer m -> (forall a, observer (f a)) -> observer (bind m f).
Proof.
  intros Hm Hf s. specialize (Hm s). unfold bind.
  destruct (m s) as [[a s1] l1]. unfold state_of, trace_of in Hm. cbn [fst snd] in Hm.
  destruct Hm as [-> Hl1]. specialize (Hf a s).
  destruct (f a s) as [[b s2] l2]. unfold state_of, trace_of in *. cbn [fst snd] in *.
  destruct Hf as [-> Hl2]. split; [reflexivity|].
  rewrite runs_app, Hl1, Hl2. reflexivity.
Qed.

Lemma observer_self : observer (self (World := World)).
Proof. intros s. split; reflexivity. Qed.

Lemma observer_ask {A : Type} (g : World -> A) : observer (ask g).
Proof. intros s. split; reflexivity. Qed.

Lemma observer_log (e : Event) : is_run e = false -> observer (log (World := World) e).
Proof.
  intros He s. split; [reflexivity|]. unfold log, trace_of. cbn [snd].
  destruct e; try discriminate He; reflexivity.
Qed.

Lemma observer_check_exists (p : str) : observer (check_profile_exists p).
Proof. intros s. apply check_profile_exists_frame. Qed.

Lemma observer_validate (p : str) : observer (validate_profile p).
Proof. intros s. apply validate_profile_frame. Qed.

Lemma observer_missing_commands (cmds : list str) : observer (missing_commands cmds).
Proof.
  induction cmds as [|cmd rest IH]; cbn [missing_commands]; [apply observer_ret|].
  apply observer_bind; [apply observer_log; reflexivity|]. intros _.
  apply observer_bind; [apply observer_ask|]. intros found.
  apply observer_bind; [exact IH|]. intros others. apply observer_ret.
Qed.

Lemma observer_config_dir_checks : observer config_dir_checks.
Proof.
  unfold config_dir_checks.
  apply observer_bind; [apply observer_self|]. intros m.
  apply observer_bind; [apply observer_log; reflexivity|]. intros _.
  apply observer_bind; [apply observer_ask|]. intros [[|]| |e];
    try apply observer_ret.
  apply observer_bind; [apply observer_log; reflexivity|]. intros _.
  apply observer_ret.
Qed.

Lemma observer_any_profile_exists (profs : list str) :
  observer (any_profile_exists profs).
Proof.
  induction profs as [|p rest IH]; cbn [any_profile_exists]; [apply observer_ret|].
  apply observer_bind; [apply observer_check_exists|]. intros [|];
    [apply observer_ret | exact IH].
Qed.

Lemma observer_system_checks : observer system_checks.
Proof.
  unfold system_checks.
  apply observer_bind; [apply observer_self|]. intros m.
  apply observer_bind; [apply observer_missing_commands|]. intros missing.
  apply observer_bind; [apply observer_config_dir_checks|]. intros [dir_checks|];
    [|apply observer_ret].
  apply observer_bind; [apply observer_any_profile_exists|]. intros ex.
  apply observer_ret.
Qed.

(** X9.  The existence check, the validation and the readiness check only
    look: they spawn no command, and manager and world are afterwards what
    they were before. *)
Theorem checks_only_observe (p : str) :
  observer (check_profile_exists p)
  /\ observer (validate_profile p)
  /\ observer check_system_ready.
Proof.
  split; [apply observer_check_exists|]. split; [apply observer_validate|].
  unfold check_system_ready.
  apply observer_bind; [apply observer_system_checks|].
  intros [[|x l]|]; apply observer_ret.
Qed.

Lemma missing_commands_result (cmds : list str) (s : Sys World) :
  result_of (missing_commands cmds s)
  = map Msg.cmd_not_found (filter (fun cmd => negb (shutil_which cmd (world s))) cmds).
Proof.
  induction cmds as [|cmd rest IH]; cbn [missing_commands]; [reflexivity|].
  rewrite bind_log, bind_ask. unfold bind.
  destruct (observer_missing_commands rest s) as [Hst _].
  destruct (missing_commands rest s) as [[others s2] l2].
  unfold result_of, state_of, ret in *. cbn [fst snd] in *.
  cbn [filter]. destruct (shutil_which cmd (world s)); cbn [negb map];
    rewrite IH; reflexivity.
Qed.

Lemma system_checks_result (s : Sys World) (dir_exists : bool) :
  profiles (mgr s) <> [] ->
  path_exists (config_dir (mgr s)) (world s) = ExistsOk dir_exists ->
  result_of (system_checks s)
  = Some (problems (config_dir (mgr s)) dir_exists (world s)).
Proof.
  intros Hne Hdir. unfold system_checks. rewrite bind_self.
  pose proof (missing_commands_result ["wg"; "wg-quick"; "pkexec"] s) as Hmiss.
  destruct (observer_missing_commands ["wg"; "wg-quick"; "pkexec"] s) as [Hst1 _].
  destruct (missing_commands ["wg"; "wg-quick"; "pkexec"] s) as [[missing s1] l1] eqn:E1.
  unfold result_of, state_of in Hmiss, Hst1. cbn [fst snd] in Hmiss, Hst1. subst s1.
  rewrite (bind_run _ _ _ _ _ _ E1).
  assert (Edir : exists l2,
             config_dir_checks s
             = (Some (if dir_exists then [] else [Msg.no_config_dir (config_dir (mgr s))]),
                s, l2)).
  { unfold config_dir_checks. rewrite bind_self, bind_log, bind_ask, Hdir.
    destruct dir_exists; eexists; reflexivity. }
  destruct Edir as [l2 Edir]. rewrite (bind_run _ _ _ _ _ _ Edir).
  rewrite (bind_run _ _ _ _ _ _
             (any_profile_exists_configured (profiles (mgr s)) s Hne (fun p H => H))).
  unfold ret, result_of. cbn [fst snd negb]. rewrite app_nil_r.
  unfold problems. rewrite <- Hmiss. reflexivity.
Qed.

(** X10.  With a configured list that is not empty and a configuration
    directory that can be examined, [check_system_ready] depends on the
    three tools and on the directory only: it reports readiness when
    [wg], [wg-quick] and [pkexec] are found and the directory exists, and
    otherwise the problems in this order, joined by a semicolon.  That no
    profile was found is never among them, whatever is on disk. *)
Theorem system_ready_verdict (s : Sys World) (dir_exists : bool) :
  profiles (mgr s) <> [] ->
  path_exists (config_dir (mgr s)) (world s) = ExistsOk dir_exists ->
  result_of (check_system_ready s)
  = Some (match problems (config_dir (mgr s)) dir_exists (world s) with
          | [] => (true, Msg.system_ready)
          | l => (false, PyStr.join "; " l)
          end).
Proof.
  intros Hne Hdir. pose proof (system_checks_result s dir_exists Hne Hdir) as Hres.
  unfold check_system_ready, bind.
  destruct (system_checks s) as [[checks s1] l1].
  unfold result_of in Hres. cbn [fst snd] in Hres. subst checks.
  destruct (problems _ _ _); reflexivity.
Qed.

End QueryExtras.

(** ** The verdict of an activation *)

Lemma last_run_app (l1 l2 : list Event) :
  last_run (l1 ++ l2)
  = match last_run l2 with Some e => Some e | None => last_run l1 end.
Proof.
  induction l1 as [|e l1 IH]; cbn [app last_run].
  - destruct (last_run l2); reflexivity.
  - rewrite IH. destruct (last_run l2); reflexivity.
Qed.

Section VerdictExtras.

Context {World : Type} {platform : Platform World}.

Lemma retry_loop_last_run (command : list str) (timeout : Z) (k : nat) :
  forall (last_error : str) (s s' : Sys World) (r : bool * str) (l : list Event),
    retry_loop command timeout (S k) last_error s = (r, s', l) ->
    last_run l = Some (EvRun ("pkexec" :: command) timeout r).
Proof.
  induction k as [|k IH]; intros last_error s s' r l Hloop;
    destruct (run_command_shape command timeout s) as [[success output] [w Hrun]];
    rewrite (retry_loop_step _ _ _ _ _ _ _ _ Hrun) in Hloop; cbn [fst snd] in Hloop.
  - destruct success; [inversion Hloop; reflexivity|].
    destruct (stops_retrying output); [inversion Hloop; reflexivity|].
    cbn in Hloop. inversion Hloop. reflexivity.
  - destruct success; [inversion Hloop; reflexivity|].
    destruct (stops_retrying output); [inversion Hloop; reflexivity|].
    destruct (retry_loop command timeout (S k) output (mkSys (mgr s) w))
      as [[b s2] l2] eqn:Hrest.
    inversion Hloop; subst. clear Hloop.
    cbn [app last_run]. rewrite (IH _ _ _ _ _ Hrest). reflexivity.
Qed.

(** X11.  When the target exists, passes validation and is not reported
    active, and at least one attempt is allowed, [activate_profile] returns
    the outcome of the last command it spawned, and that command is
    [wg-quick up] of the target; on success the cached hint names the
    target. *)
Theorem activation_verdict (target : str) (s : Sys World) :
  result_of (check_profile_exists target s) = true ->
  fst (result_of (validate_profile target s)) = true ->
  result_of (get_profile_status target s) <> ACTIVE ->
  1 <= max_retries (mgr s) ->
  let r := activate_profile target s in
  last_run (trace_of r)
  = Some (EvRun (up_cmd target) (timeout_wg_quick (mgr s)) (result_of r))
  /\ (fst (result_of r) = true -> _active_profile (mgr (state_of r)) = Some target).
Proof.
  intros Hex Hvalid Hstatus Hretries. cbv zeta. unfold activate_profile.
  pose proof (check_profile_exists_frame target s) as [Hs1 _].
  destruct (check_profile_exists target s) as [[ex s1] l1] eqn:E1.
  unfold state_of, result_of in Hs1, Hex. cbn [fst snd] in Hs1, Hex. subst s1 ex.
  rewrite (bind_run _ _ _ _ _ _ E1). cbn [negb].
  pose proof (validate_profile_frame target s) as [Hs2 _].
  destruct (validate_profile target s) as [[[valid msg] s2] l2] eqn:E2.
  unfold state_of, result_of in Hs2, Hvalid. cbn [fst snd] in Hs2, Hvalid. subst s2 valid.
  rewrite (bind_run _ _ _ _ _ _ E2). cbn [negb].
  destruct (triple_get_status (mgr s) target s (same_config_refl _)) as (Hc3 & _ & _).
  destruct (get_profile_status target s) as [[st s3] l3] eqn:E3.
  unfold state_of, result_of in Hc3, Hstatus. cbn [fst snd] in Hc3, Hstatus.
  rewrite (bind_run _ _ _ _ _ _ E3).
  assert (Est : ProfileStatus_eqb st ACTIVE = false)
    by (destruct st; [congruence | reflexivity | reflexivity | reflexivity]).
  rewrite Est, bind_self.
  pose proof (prelude_of_activation target s3) as Hpre. cbv zeta in Hpre.
  destruct (active_others target (profiles (mgr s3)) s3) as [[others s4] l4] eqn:E4.
  rewrite (bind_run _ _ _ _ _ _ E4).
  unfold result_of, state_of, trace_of in Hpre. cbn [fst snd] in Hpre.
  destruct (deactivate_others others s4) as [[u s5] l5] eqn:E5.
  cbn [fst snd] in Hpre. destruct Hpre as [Hc5 _].
  rewrite (bind_run _ _ _ _ _ _ E5).
  pose proof (same_config_trans _ _ _ Hc3 Hc5) as (_ & _ & Hquick & _ & Hmax).
  destruct (_activate_profile target s5) as [[[success message] s6] l6] eqn:E6.
  rewrite (bind_run _ _ _ _ _ _ E6).
  unfold _activate_profile in E6. rewrite bind_self, run_with_retry_none in E6.
  destruct (Z.to_nat (max_retries (mgr s5))) as [|k] eqn:Ek; [lia|].
  apply retry_loop_last_run in E6. rewrite <- Hquick in E6.
  destruct success; unfold bind, set_active_profile, ret, result_of, state_of, trace_of;
    cbn [fst snd mgr _active_profile with_active];
    (split; [|intros Hs; first [reflexivity | discriminate Hs]]);
    rewrite !last_run_app, E6; reflexivity.
Qed.

End VerdictExtras.

(** ** Turning everything off *)

Lemma Forall_eq_repeat {A : Type} (x : A) (l : list A) :
  Forall (eq x) l -> l = repeat x (List.length l).
Proof.
  induction 1 as [|y l Hy _ IH]; [reflexivity|].
  cbn [List.length repeat]. rewrite <- Hy, <- IH. reflexivity.
Qed.

Section TurnOffExtras.

Context {World : Type} {platform : Platform World}.

(** The deactivation of one profile: between one and [max_retries] spawns
    of [wg-quick down], and a manager that is what it was. *)
Lemma deactivate_profile_runs (p : str) (s : Sys World) :
  1 <= max_retries (mgr s) ->
  mgr (state_of (_deactivate_profile p s)) = mgr s
  /\ exists a, runs (trace_of (_deactivate_profile p s)) = repeat (down_cmd p) a
               /\ (1 <= a <= Z.to_nat (max_retries (mgr s)))%nat.
Proof.
  intros Hmax. unfold _deactivate_profile. rewrite bind_self.
  destruct (run_with_retry_frame ["wg-quick"; "down"; p] (timeout_wg_quick (mgr s)) None s)
    as [Hm Hev].
  split; [exact Hm|].
  apply retry_events_runs in Hev.
  exists (List.length (runs (trace_of (_run_command_with_retry ["wg-quick"; "down"; p]
                                         (timeout_wg_quick (mgr s)) None s)))).
  split.
  - apply Forall_eq_repeat. eapply Forall_impl; [|exact Hev].
    intros argv Hargv. symmetry. exact Hargv.
  - rewrite run_with_retry_none.
    destruct (Z.to_nat (max_retries (mgr s))) as [|k] eqn:Ek; [lia|].
    destruct (retry_loop_shape ["wg-quick"; "down"; p] (timeout_wg_quick (mgr s)) k "" s)
      as [_ Hlen].
    split; [|exact Hlen].
    destruct (retry_loop ["wg-quick"; "down"; p] (timeout_wg_quick (mgr s)) (S k) "" s)
      as [[r s'] l] eqn:Hloop.
    apply retry_loop_last_run in Hloop. unfold trace_of. cbn [snd].
    destruct l as [|e l]; [discriminate Hloop|].
    clear - Hloop. revert e Hloop. induction l as [|e' l IH]; intros e Hloop.
    + cbn in Hloop. destruct e; try discriminate Hloop. cbn. lia.
    + cbn [last_run] in Hloop. destruct e; cbn [runs List.length]; try lia;
        apply (IH e');
        cbn [last_run]; destruct (last_run l); try exact Hloop;
        destruct (is_run e'); try exact Hloop; discriminate Hloop.
Qed.

Lemma deactivate_each_cons (p : str) (rest : list str) (s s1 s2 : Sys World)
      (ok : bool) (msg : str) (l1 l2 : list Event)
      (ops : list (str * bool * str)) :
  _deactivate_profile p s = ((ok, msg), s1, l1) ->
  deactivate_each rest s1 = (ops, s2, l2) ->
  deactivate_each (p :: rest) s = ((p, ok, msg) :: ops, s2, (l1 ++ l2 ++ [])%list).
Proof.
  intros E1 E2. cbn [deactivate_each].
  rewrite (bind_run _ _ _ _ _ _ E1). cbv beta iota.
  rewrite (bind_run _ _ _ _ _ _ E2). reflexivity.
Qed.

(** X12.  Whatever list of profiles is configured, the commands of
    [turn_off_all] are [wg-quick down] of App, of bomBox and of usa, in
    this order, each spawned at least once and at most [max_retries]
    times, a failure of one not stopping the next.  On success the cached
    hint is cleared; on failure the manager is left exactly as it was. *)
Theorem turn_off_all_commands (s : Sys World) :
  1 <= max_retries (mgr s) ->
  let r := turn_off_all s in
  let allowed (a : nat) := (1 <= a <= Z.to_nat (max_retries (mgr s)))%nat in
  (exists a b c,
      runs (trace_of r)
      = (repeat (down_cmd "App") a ++ repeat (down_cmd "bomBox") b
         ++ repeat (down_cmd "usa") c)%list
      /\ allowed a /\ allowed b /\ allowed c)
  /\ mgr (state_of r) = if fst (result_of r) then with_active None (mgr s) else mgr s.
Proof.
  intros Hmax. cbv zeta.
  destruct (deactivate_profile_runs "App" s Hmax) as (Hm1 & a & Ha & Hba).
  destruct (_deactivate_profile "App" s) as [[[ok1 msg1] s1] l1] eqn:E1.
  unfold state_of, trace_of in Hm1, Ha. cbn [fst snd] in Hm1, Ha.
  assert (Hmax1 : 1 <= max_retries (mgr s1)) by (rewrite Hm1; exact Hmax).
  destruct (deactivate_profile_runs "bomBox" s1 Hmax1) as (Hm2 & b & Hb & Hbb).
  destruct (_deactivate_profile "bomBox" s1) as [[[ok2 msg2] s2] l2] eqn:E2.
  unfold state_of, trace_of in Hm2, Hb. cbn [fst snd] in Hm2, Hb.
  assert (Hmax2 : 1 <= max_retries (mgr s2)) by (rewrite Hm2, Hm1; exact Hmax).
  destruct (deactivate_profile_runs "usa" s2 Hmax2) as (Hm3 & c & Hc & Hbc).
  destruct (_deactivate_profile "usa" s2) as [[[ok3 msg3] s3] l3] eqn:E3.
  unfold state_of, trace_of in Hm3, Hc. cbn [fst snd] in Hm3, Hc.
  rewrite Hm2, Hm1 in Hbc. rewrite Hm1 in Hbb.
  assert (Heach : exists l,
             deactivate_each ["App"; "bomBox"; "usa"] s
             = ([("App", ok1, msg1); ("bomBox", ok2, msg2); ("usa", ok3, msg3)], s3, l)
             /\ runs l = (repeat (down_cmd "App") a ++ repeat (down_cmd "bomBox") b
                          ++ repeat (down_cmd "usa") c)%list).
  { eexists. split.
    - eapply deactivate_each_cons; [exact E1|].
      eapply deactivate_each_cons; [exact E2|].
      eapply deactivate_each_cons; [exact E3 | reflexivity].
    - rewrite !runs_app, Ha, Hb, Hc. cbn [runs]. rewrite !app_nil_r. reflexivity. }
  destruct Heach as (l & Heach & Hl).
  unfold turn_off_all. rewrite (bind_run _ _ _ _ _ _ Heach).
  unfold bind, ret, set_active_profile, failed_of, result_of, state_of, trace_of.
  destruct ok1, ok2, ok3; cbn [filter fst snd negb mgr];
    (split; [exists a, b, c; rewrite runs_app, Hl; cbn [runs app]; rewrite app_nil_r;
             split; [reflexivity | repeat split; lia]|]);
    rewrite ?Hm3, ?Hm2, ?Hm1; reflexivity.
Qed.

End TurnOffExtras.

(** ** The hint and the cache are written, never read *)

Lemma same_view_refl {World : Type} (s : Sys World) : same_view s s.
Proof. split; [apply same_config_refl | reflexivity]. Qed.

Section BlindExtras.

Context {World : Type} {platform : Platform World}.

Lemma blind_ret {A : Type} (a : A) : blind (ret (World := World) a) (ret a).
Proof. intros s s' Hv. repeat split; apply Hv. Qed.

Lemma blind_bind {A B : Type} (m m' : M World A) (f f' : A -> M World B) :
  blind m m' -> (forall a, blind (f a) (f' a)) -> blind (bind m f) (bind m' f').
Proof.
  intros Hm Hf s s' Hv. specialize (Hm s s' Hv). unfold bind.
  destruct (m s) as [[a s1] l1]. destruct (m' s') as [[a' s1'] l1'].
  unfold agree, result_of, trace_of, state_of in Hm. cbn [fst snd] in Hm.
  destruct Hm as (<- & <- & Hv1). specialize (Hf a s1 s1' Hv1).
  destruct (f a s1) as [[b s2] l2]. destruct (f' a s1') as [[b' s2'] l2'].
  unfold agree, result_of, trace_of, state_of in *. cbn [fst snd] in *.
  destruct Hf as (<- & <- & Hv2). repeat split; apply Hv2.
Qed.

(** The manager is consulted for its configuration only. *)
Lemma blind_self {B : Type} (f f' : Manager -> M World B) :
  (forall c c', same_config c c' -> blind (f c) (f' c')) ->
  blind (bind self f) (bind self f').
Proof.
  intros Hf s s' Hv. rewrite !bind_self. apply Hf; [apply Hv | exact Hv].
Qed.

Lemma blind_ask {A : Type} (g : World -> A) : blind (ask g) (ask g).
Proof.
  intros s s' Hv. unfold ask, agree, result_of, trace_of, state_of. cbn [fst snd].
  split; [rewrite (proj2 Hv); reflexivity|]. split; [reflexivity | exact Hv].
Qed.

Lemma blind_log (e : Event) : blind (log (World := World) e) (log e).
Proof. intros s s' Hv. repeat split; apply Hv. Qed.

Lemma blind_set_active (a : option str) :
  blind (set_active_profile (World := World) a) (set_active_profile a).
Proof. intros s s' Hv. repeat split; apply Hv. Qed.

Lemma blind_set_cache (k k' : list (str * ProfileInfo)) :
  blind (set_profiles_cache (World := World) k) (set_profiles_cache k').
Proof. intros s s' Hv. repeat split; apply Hv. Qed.

Lemma blind_run_command (command : list str) (timeout : Z) :
  blind (_run_command command timeout) (_run_command command timeout).
Proof.
  intros s s' [Hc Hw]. unfold _run_command. rewrite Hw.
  destruct (subprocess_run ("pkexec" :: command) timeout (world s')) as [r w].
  split; [reflexivity|]. split; [reflexivity|]. split; [exact Hc | reflexivity].
Qed.

Lemma blind_retry_loop (command : list str) (timeout : Z) (k : nat) :
  forall last_error,
    blind (retry_loop command timeout k last_error)
          (retry_loop command timeout k last_error).
Proof.
  induction k as [|k IH]; intros last_error; cbn [retry_loop]; [apply blind_ret|].
  apply blind_bind; [apply blind_run_command|]. intros [success output].
  destruct success; [apply blind_ret|].
  destruct (stops_retrying output); [apply blind_ret|].
  apply blind_bind; [destruct k; [apply blind_ret | apply blind_log]|].
  intros _. apply IH.
Qed.

Ltac same_fields Hc :=
  let H1 := fresh in let H2 := fresh in let H3 := fresh in
  let H4 := fresh in let H5 := fresh in
  destruct Hc as (H1 & H2 & H3 & H4 & H5); cbv beta;
  rewrite ?H1, ?H2, ?H3, ?H4, ?H5.

Lemma blind_retry (command : list str) (timeout : Z) (arg : option Z) :
  blind (_run_command_with_retry command timeout arg)
        (_run_command_with_retry command timeout arg).
Proof.
  unfold _run_command_with_retry. apply blind_self. intros c c' Hc.
  same_fields Hc. apply blind_retry_loop.
Qed.

Lemma blind_check_exists (p : str) :
  blind (check_profile_exists p) (check_profile_exists p).
Proof.
  unfold check_profile_exists. apply blind_self. intros c c' Hc. same_fields Hc.
  destruct (PyStr.mem p (profiles c')); [apply blind_ret|].
  apply blind_bind; [apply blind_log|]. intros _.
  apply blind_bind; [apply blind_ask|]. intros [b| |e]; apply blind_ret.
Qed.

Lemma blind_validate (p : str) : blind (validate_profile p) (validate_profile p).
Proof.
  unfold validate_profile.
  apply blind_bind; [apply blind_check_exists|]. intros [|]; [|apply blind_ret].
  cbn [negb]. apply blind_self. intros c c' Hc. same_fields Hc.
  apply blind_bind; [apply blind_log|]. intros _.
  apply blind_bind; [apply blind_ask|]. intros [content| | |e];
    try apply blind_ret.
  - destruct (negb (PyStr.contains "[Interface]" content)); apply blind_ret.
  - destruct (PyStr.mem p (profiles c')); apply blind_ret.
  - destruct (PyStr.mem p (profiles c')); apply blind_ret.
Qed.

Lemma blind_get_active : blind get_active_profile get_active_profile.
Proof.
  unfold get_active_profile. apply blind_self. intros c c' Hc. same_fields Hc.
  apply blind_bind; [apply blind_retry|]. intros [success output].
  destruct success; [|apply blind_ret]. cbn [negb].
  apply blind_bind; [apply blind_set_active|]. intros _. apply blind_ret.
Qed.

Lemma blind_get_status (p : str) :
  blind (get_profile_status p) (get_profile_status p).
Proof.
  unfold get_profile_status.
  apply blind_bind; [apply blind_get_active|]. intros active.
  destruct (option_string_eqb active p); [apply blind_ret|].
  apply blind_bind; [apply blind_check_exists|]. intros [|]; apply blind_ret.
Qed.

Lemma blind_deactivate (p : str) :
  blind (_deactivate_profile p) (_deactivate_profile p).
Proof.
  unfold _deactivate_profile. apply blind_self. intros c c' Hc. same_fields Hc.
  apply blind_retry.
Qed.

Lemma blind_activate_one (p : str) :
  blind (_activate_profile p) (_activate_profile p).
Proof.
  unfold _activate_profile. apply blind_self. intros c c' Hc. same_fields Hc.
  apply blind_retry.
Qed.

Lemma blind_profile_info (p : str) : blind (profile_info p) (profile_info p).
Proof.
  unfold profile_info. apply blind_self. intros c c' Hc. same_fields Hc.
  apply blind_bind; [apply blind_get_status|]. intros st. cbv zeta.
  destruct (ProfileStatus_eqb st ACTIVE); [|apply blind_ret].
  apply blind_bind; [apply blind_retry|]. intros [[|] output]; apply blind_ret.
Qed.

Lemma blind_collect_infos (profs : list str) :
  forall acc, blind (collect_infos profs acc) (collect_infos profs acc).
Proof.
  induction profs as [|p rest IH]; intros acc; cbn [collect_infos]; [apply blind_ret|].
  apply blind_bind; [apply blind_profile_info|]. intros info. apply IH.
Qed.

Lemma blind_get_all : blind get_all_profiles_info get_all_profiles_info.
Proof.
  unfold get_all_profiles_info. apply blind_self. intros c c' Hc. same_fields Hc.
  apply blind_bind; [apply blind_collect_infos|]. intros res.
  apply blind_bind; [apply blind_set_cache|]. intros _. apply blind_ret.
Qed.

Lemma blind_deactivate_each (profs : list str) :
  blind (deactivate_each profs) (deactivate_each profs).
Proof.
  induction profs as [|p rest IH]; cbn [deactivate_each]; [apply blind_ret|].
  apply blind_bind; [apply blind_deactivate|]. intros [success message].
  apply blind_bind; [exact IH|]. intros ops. apply blind_ret.
Qed.

Lemma blind_turn_off_all : blind turn_off_all turn_off_all.
Proof.
  unfold turn_off_all.
  apply blind_bind; [apply blind_deactivate_each|]. intros ops. cbv zeta.
  destruct (failed_of ops); [|apply blind_ret].
  apply blind_bind; [apply blind_set_active|]. intros _. apply blind_ret.
Qed.

Lemma blind_active_others (target : str) (profs : list str) :
  blind (active_others target profs) (active_others target profs).
Proof.
  induction profs as [|p rest IH]; cbn [active_others]; [apply blind_ret|].
  destruct (negb (Str.eqb p target)); [|exact IH].
  apply blind_bind; [apply blind_get_status|]. intros st.
  apply blind_bind; [exact IH|]. intros others. apply blind_ret.
Qed.

Lemma blind_deactivate_others (profs : list str) :
  blind (deactivate_others profs) (deactivate_others profs).
Proof.
  induction profs as [|p rest IH]; cbn [deactivate_others]; [apply blind_ret|].
  apply blind_bind; [apply blind_deactivate|]. intros _. exact IH.
Qed.

Lemma blind_activate (p : str) : blind (activate_profile p) (activate_profile p).
Proof.
  unfold activate_profile.
  apply blind_bind; [apply blind_check_exists|]. intros [|]; [|apply blind_ret].
  cbn [negb]. apply blind_bind; [apply blind_validate|]. intros [[|] msg];
    [|apply blind_ret].
  cbn [negb]. apply blind_bind; [apply blind_get_status|]. intros st.
  destruct (ProfileStatus_eqb st ACTIVE); [apply blind_ret|].
  apply blind_self. intros c c' Hc. same_fields Hc.
  apply blind_bind; [apply blind_active_others|]. intros others.
  apply blind_bind; [apply blind_deactivate_others|]. intros _.
  apply blind_bind; [apply blind_activate_one|]. intros [success message].
  apply blind_bind; [destruct success; [apply blind_set_active | apply blind_ret]|].
  intros _. apply blind_ret.
Qed.

Lemma blind_show_output : blind get_wg_show_output get_wg_show_output.
Proof.
  unfold get_wg_show_output. apply blind_self. intros c c' Hc. same_fields Hc.
  apply blind_bind; [apply blind_retry|]. intros [[|] output]; apply blind_ret.
Qed.

Lemma blind_missing_commands (cmds : list str) :
  blind (missing_commands cmds) (missing_commands cmds).
Proof.
  induction cmds as [|cmd rest IH]; cbn [missing_commands]; [apply blind_ret|].
  apply blind_bind; [apply blind_log|]. intros _.
  apply blind_bind; [apply blind_ask|]. intros found.
  apply blind_bind; [exact IH|]. intros others. apply blind_ret.
Qed.

Lemma blind_any_profile_exists (profs : list str) :
  blind (any_profile_exists profs) (any_profile_exists profs).
Proof.
  induction profs as [|p rest IH]; cbn [any_profile_exists]; [apply blind_ret|].
  apply blind_bind; [apply blind_check_exists|]. intros [|]; [apply blind_ret | exact IH].
Qed.

Lemma blind_system_ready : blind check_system_ready check_system_ready.
Proof.
  unfold check_system_ready.
  apply blind_bind; [|intros [[|x l]|]; apply blind_ret].
  unfold system_checks. apply blind_self. intros c c' Hc. same_fields Hc.
  apply blind_bind; [apply blind_missing_commands|]. intros missing.
  apply blind_bind.
  - unfold config_dir_checks. apply blind_self. intros d d' Hd. same_fields Hd.
    apply blind_bind; [apply blind_log|]. intros _.
    apply blind_bind; [apply blind_ask|]. intros [[|]| |e]; try apply blind_ret.
    apply blind_bind; [apply blind_log|]. intros _. apply blind_ret.
  - intros [dir_checks|]; [|apply blind_ret].
    apply blind_bind; [apply blind_any_profile_exists|]. intros ex. apply blind_ret.
Qed.

(** X13.  No operation of the manager reads the cached hint or the cache
    of profile information: started from two states that differ only
    there, each operation returns the same result, has the same
    interactions with the world, and leaves the same world and the same
    configuration. *)
Theorem hint_and_cache_never_read (p : str) (s s' : Sys World) :
  same_config (mgr s) (mgr s') ->
  world s = world s' ->
  agree (check_profile_exists p s) (check_profile_exists p s')
  /\ agree (validate_profile p s) (validate_profile p s')
  /\ agree (get_active_profile s) (get_active_profile s')
  /\ agree (get_profile_status p s) (get_profile_status p s')
  /\ agree (get_all_profiles_info s) (get_all_profiles_info s')
  /\ agree (turn_off_all s) (turn_off_all s')
  /\ agree (activate_profile p s) (activate_profile p s')
  /\ agree (get_wg_show_output s) (get_wg_show_output s')
  /\ agree (check_system_ready s) (check_system_ready s').
Proof.
  intros Hc Hw. assert (Hv : same_view s s') by (split; assumption).
  split; [exact (blind_check_exists p s s' Hv)|].
  split; [exact (blind_validate p s s' Hv)|].
  split; [exact (blind_get_active s s' Hv)|].
  split; [exact (blind_get_status p s s' Hv)|].
  split; [exact (blind_get_all s s' Hv)|].
  split; [exact (blind_turn_off_all s s' Hv)|].
  split; [exact (blind_activate p s s' Hv)|].
  split; [exact (blind_show_output s s' Hv) | exact (blind_system_ready s s' Hv)].
Qed.

End BlindExtras.

(** ** The status text *)

Lemma contains_colon_cons (c : char) (r : str) :
  PyStr.contains ":" (String c r) = (Char.eqb c ":" || PyStr.contains ":" r)%bool.
Proof.
  cbn [PyStr.contains Str.prefix].
  destruct (Char.dec ":" c) as [<-|Hne]; [destruct r; reflexivity|].
  assert (E : Char.eqb c ":" = false) by (apply char_eqb_neq; congruence).
  rewrite E. reflexivity.
Qed.

Lemma colonless_spec (s : str) : colonless s = negb (PyStr.contains ":" s).
Proof.
  induction s as [|c r IH]; [reflexivity|].
  rewrite contains_colon_cons. cbn [colonless]. rewrite IH, negb_orb. reflexivity.
Qed.

Lemma colonless_app (a b : str) :
  colonless (a ++ b) = (colonless a && colonless b)%bool.
Proof.
  induction a as [|c a IH]; [reflexivity|]. cbn [Str.append colonless].
  rewrite IH, andb_assoc. reflexivity.
Qed.

Lemma colonless_rstrip (s : str) : colonless s = true -> colonless (PyStr.rstrip s) = true.
Proof.
  induction s as [|c r IH]; [reflexivity|]. cbn [colonless PyStr.rstrip].
  intros H. apply andb_true_iff in H. destruct H as [Hc Hr].
  destruct (PyStr.is_space c && PyStr.is_empty (PyStr.rstrip r))%bool; [reflexivity|].
  cbn [colonless]. rewrite Hc, (IH Hr). reflexivity.
Qed.

Lemma colonless_lower (s : str) : colonless (PyStr.lower s) = colonless s.
Proof. apply lowered_colonless, lower_lowered. Qed.

(** A pattern that ends in a colon does not start in a text without one. *)
Lemma prefix_colonless (w y : str) :
  colonless y = true -> Str.prefix (w ++ ":") y = false.
Proof.
  revert y. induction w as [|d w IH]; intros y Hy.
  - destruct y as [|c y]; [reflexivity|]. cbn [Str.append Str.prefix].
    cbn [colonless] in Hy. apply andb_true_iff in Hy. destruct Hy as [Hc _].
    apply negb_true_iff, char_eqb_neq in Hc.
    destruct (Char.dec ":" c); [congruence | reflexivity].
  - destruct y as [|c y]; [reflexivity|]. cbn [Str.append Str.prefix].
    cbn [colonless] in Hy. apply andb_true_iff in Hy. destruct Hy as [_ Hy].
    destruct (Char.dec d c); [exact (IH y Hy) | reflexivity].
Qed.

Lemma contains_colonless (w y : str) :
  colonless y = true -> PyStr.contains (w ++ ":") y = false.
Proof.
  induction y as [|c y IH]; intros Hy; cbn [PyStr.contains].
  - rewrite (prefix_colonless w "" Hy). reflexivity.
  - rewrite (prefix_colonless w (String c y) Hy).
    cbn [colonless] in Hy. apply andb_true_iff in Hy. exact (IH (proj2 Hy)).
Qed.

Lemma prefix_marker_colonless (w x y : str) :
  colonless y = true ->
  Str.prefix (w ++ ":") (x ++ String ":" y) = Str.prefix (w ++ ":") (x ++ ":").
Proof.
  intros Hy. revert x. induction w as [|d w IH]; intros x.
  - destruct x as [|c x]; cbn [Str.append Str.prefix].
    + destruct (Char.dec ":" ":"); [destruct y; reflexivity | congruence].
    + destruct (Char.dec ":" c); [|reflexivity].
      destruct (x ++ String ":" y), (x ++ ":"); reflexivity.
  - destruct x as [|c x]; cbn [Str.append Str.prefix].
    + destruct (Char.dec d ":"); [|reflexivity].
      rewrite (prefix_colonless w y Hy). destruct w; reflexivity.
    + destruct (Char.dec d c); [apply IH | reflexivity].
Qed.

(** Whether a marker that ends in a colon occurs in a line is decided by
    the part of the line up to its last colon. *)
Lemma contains_marker_colonless (w x y : str) :
  colonless y = true ->
  PyStr.contains (w ++ ":") (x ++ String ":" y) = PyStr.contains (w ++ ":") (x ++ ":").
Proof.
  intros Hy. induction x as [|c x IH].
  - pose proof (prefix_marker_colonless w "" y Hy) as Hp.
    change ("" ++ String ":" y) with (String ":" y) in *.
    change ("" ++ ":") with ":" in *.
    cbn [PyStr.contains]. rewrite Hp.
    destruct (Str.prefix (w ++ ":") ":"); [reflexivity|].
    rewrite (contains_colonless w y Hy), (prefix_colonless w "" eq_refl). reflexivity.
  - cbn [Str.append PyStr.contains].
    change (String c (x ++ String ":" y)) with (String c x ++ String ":" y).
    change (String c (x ++ ":")) with (String c x ++ ":").
    rewrite (prefix_marker_colonless w (String c x) y Hy), IH. reflexivity.
Qed.

Lemma rstrip_after_colon (p x : str) :
  PyStr.rstrip (p ++ String ":" x) = p ++ String ":" (PyStr.rstrip x).
Proof.
  induction p as [|c p IH]; cbn [Str.append PyStr.rstrip].
  - reflexivity.
  - rewrite IH. destruct p; cbn [Str.append PyStr.is_empty]; rewrite andb_false_r; reflexivity.
Qed.

Lemma format_lines_app (a b : list str) :
  Ui.format_lines (a ++ b) = (Ui.format_lines a ++ Ui.format_lines b)%list.
Proof.
  induction a as [|line a IH]; [reflexivity|]. cbn [app Ui.format_lines].
  destruct (PyStr.is_empty (PyStr.rstrip line)); [exact IH|].
  rewrite IH, app_assoc. reflexivity.
Qed.

(** X14.  A line that shows a preshared key is never displayed: whatever
    the key (a text without a colon, as a base64 key is) and whatever
    surrounds the line, the loop of [_format_wg_show_output] puts the fixed
    text in its place. *)
Theorem preshared_key_hidden (before after : list str) (key : str) :
  PyStr.contains ":" key = false ->
  Ui.format_lines (before ++ ("  preshared key: " ++ key) :: after)
  = (Ui.format_lines before ++ Ui.hidden_key :: Ui.format_lines after)%list.
Proof.
  intros Hkey. rewrite format_lines_app. f_equal. cbn [Ui.format_lines].
  change ("  preshared key: " ++ key) with ("  preshared key" ++ String ":" (" " ++ key)).
  rewrite rstrip_after_colon.
  replace (PyStr.is_empty ("  preshared key" ++ String ":" (PyStr.rstrip (" " ++ key))))
    with false by reflexivity.
  set (y := PyStr.rstrip (" " ++ key)) in *.
  assert (Hy : colonless y = true).
  { apply colonless_rstrip. cbn [Str.append colonless].
    rewrite colonless_spec, Hkey. reflexivity. }
  unfold Ui.format_line.
  change ("  preshared key" ++ String ":" y) with ("  preshared key:" ++ y).
  destruct (lowered_app_inv "  preshared key:" y _ (lower_lowered _))
    as (t1 & t2 & E & H1 & H2).
  rewrite E.
  rewrite (lowered_unique "  preshared key:" t1 "  preshared key:" eq_refl H1
             (lower_lowered "  preshared key:")).
  rewrite <- (lowered_colonless _ _ H2) in Hy.
  change ("  preshared key:" ++ t2) with ("  preshared key" ++ String ":" t2).
  change "interface:" with ("interface" ++ ":").
  change "peer:" with ("peer" ++ ":").
  change "endpoint:" with ("endpoint" ++ ":").
  change "allowed ips:" with ("allowed ips" ++ ":").
  change "latest handshake:" with ("latest handshake" ++ ":").
  change "transfer:" with ("transfer" ++ ":").
  change "preshared key:" with ("preshared key" ++ ":").
  rewrite !(contains_marker_colonless _ "  preshared key" _ Hy).
  reflexivity.
Qed.

Section StatusTextExtras.

Context {World : Type} {platform : Platform World}.

(** X15.  When the status query fails, the text the window displays is
    the error message of [get_wg_show_output], unchanged by
    [_format_wg_show_output]. *)
Theorem failed_status_shown_verbatim (s s1 : Sys World) (msg : str) (l : list Event) :
  _run_command_with_retry ["wg"; "show"] (timeout_wg_show (mgr s)) None s
  = ((false, msg), s1, l) ->
  Ui._format_wg_show_output (result_of (get_wg_show_output s)) = Msg.status_error msg.
Proof.
  intros Hrun. unfold get_wg_show_output. rewrite bind_self.
  rewrite (bind_run _ _ _ _ _ _ Hrun). unfold ret, result_of. cbn [fst snd].
  unfold Ui._format_wg_show_output, Msg.status_error.
  replace (PyStr.contains "Ошибка получения статуса" ("Ошибка получения статуса: " ++ msg))
    with true by reflexivity.
  rewrite orb_true_r. reflexivity.
Qed.

End StatusTextExtras.

(** ** Clicks *)

Lemma accepted_spaced (delay : Z) (clock : list Z) :
  forall last, spaced delay (last :: Ui.accepted delay last clock).
Proof.
  induction clock as [|t rest IH]; intros last; [exact I|].
  cbn [Ui.accepted]. unfold Ui._debounce_click.
  destruct (Z.ltb_spec (t - last) delay) as [Hlt | Hge].
  - exact (IH last).
  - cbn [spaced]. split; [exact Hge | exact (IH t)].
Qed.

(** X16.  Whatever the clock readings at which clicks arrive, two
    consecutive clicks that [_debounce_click] lets through are at least
    [_debounce_delay] apart, and the first one is at least that far from
    the initial [_last_click_time]; a click closer than that to the last
    accepted one, or at a clock reading before it, is dropped. *)
Theorem debounce_spacing (delay last : Z) (clock : list Z) :
  spaced delay (last :: Ui.accepted delay last clock)
  /\ Forall (fun t => In t clock) (Ui.accepted delay last clock).
Proof.
  split; [apply accepted_spaced|].
  revert last. induction clock as [|t rest IH]; intros last; [constructor|].
  cbn [Ui.accepted]. unfold Ui._debounce_click.
  destruct (t - last <? delay).
  - eapply Forall_impl; [|exact (IH last)]. intros x Hx. right. exact Hx.
  - constructor; [left; reflexivity|].
    eapply Forall_impl; [|exact (IH t)]. intros x Hx. right. exact Hx.
Qed.

(** ** The last lines of the log *)

(** X17.  The lines that [export_logs] and the log view keep, out of a log
    of [len] lines: for a positive request, the last [lines] lines of the
    log, or the whole log when it is shorter; for a request of zero, the
    whole log and not nothing; for a negative request, the log without its
    first [-lines] lines. *)
Theorem last_lines_kept {A : Type} (lines : Z) (all_lines : list A) :
  Logger.last_lines lines all_lines
  = (if 0 <? lines
     then skipn (List.length all_lines - Z.to_nat lines) all_lines
     else skipn (Z.to_nat (- lines)) all_lines)
  /\ List.length (Logger.last_lines lines all_lines)
     = (if 0 <? lines
        then Nat.min (Z.to_nat lines) (List.length all_lines)
        else (List.length all_lines - Z.to_nat (- lines))%nat).
Proof.
  assert (E : Logger.last_lines lines all_lines
              = if 0 <? lines
                then skipn (List.length all_lines - Z.to_nat lines) all_lines
                else skipn (Z.to_nat (- lines)) all_lines).
  { unfold Logger.last_lines, Logger.slice_from.
    destruct (Z.ltb_spec lines (Z.of_nat (List.length all_lines))) as [Hlt | Hge];
      destruct (Z.ltb_spec 0 lines) as [Hpos | Hneg].
    - destruct (Z.ltb_spec (- lines) 0); [|lia].
      rewrite Z.max_l by lia. f_equal. lia.
    - destruct (Z.ltb_spec (- lines) 0); [lia|].
      destruct (Z.le_ge_cases (- lines) (Z.of_nat (List.length all_lines))) as [Hle | Hgt].
      + rewrite Z.min_l by lia. reflexivity.
      + rewrite Z.min_r by lia. rewrite !skipn_all2 by lia. reflexivity.
    - replace (List.length all_lines - Z.to_nat lines)%nat with O by lia. reflexivity.
    - assert (all_lines = []) by (destruct all_lines; [reflexivity | cbn in Hge; lia]).
      subst. destruct (Z.to_nat (- lines)); reflexivity. }
  split; [exact E|]. rewrite E.
  destruct (0 <? lines) eqn:Hsign; rewrite length_skipn; [|reflexivity].
  apply Z.ltb_lt in Hsign. lia.
Qed.

(** ** Plain byte counts *)

Lemma digit_facts (c : char) :
  PyFloat.is_digit c = true ->
  PyFloat.ascii_lower_char c = c /\ PyStr.is_space c = false /\ is_unit_letter c = false
  /\ Char.eqb c "e" = false /\ Char.eqb c "." = false
  /\ Char.eqb c "+" = false /\ Char.eqb c "-" = false
  /\ Char.eqb c "i" = false /\ Char.eqb c "n" = false
  /\ readable c = true /\ PyFloat.to_ascii c = c /\ PyFloat.is_blank c = false.
Proof.
  intros Hd.
  assert (Hc : (c < 128)%N)
    by (unfold PyFloat.is_digit in Hd; apply between_spec in Hd; lia).
  pose proof (ascii_cases
                (fun c => implb (PyFloat.is_digit c)
                            (Char.eqb (PyFloat.ascii_lower_char c) c
                             && negb (PyStr.is_space c) && negb (is_unit_letter c)
                             && negb (Char.eqb c "e") && negb (Char.eqb c ".")
                             && negb (Char.eqb c "+") && negb (Char.eqb c "-")
                             && negb (Char.eqb c "i") && negb (Char.eqb c "n")
                             && readable c && negb (PyFloat.is_blank c)))
                ltac:(vm_compute; reflexivity) c Hc) as Hall.
  cbv beta in Hall. rewrite Hd in Hall. cbn [implb] in Hall.
  repeat (apply andb_true_iff in Hall; destruct Hall as [Hall ?H]).
  apply char_eqb_eq in Hall.
  repeat match goal with H : negb _ = true |- _ => apply negb_true_iff in H end.
  pose proof (to_ascii_low c Hc).
  repeat split; assumption.
Qed.

Lemma readable_digits (s : str) : all_digits s = true -> all_chars readable s = true.
Proof.
  induction s as [|c s IH]; [reflexivity|]. cbn [all_digits all_chars].
  intros H. apply andb_true_iff in H. destruct H as [Hc Hs].
  destruct (digit_facts c Hc) as (_ & _ & _ & _ & _ & _ & _ & _ & _ & -> & _).
  rewrite (IH Hs). reflexivity.
Qed.

Lemma ascii_lower_digits (s : str) : all_digits s = true -> PyFloat.ascii_lower s = s.
Proof.
  induction s as [|c s IH]; [reflexivity|]. cbn [all_digits PyFloat.ascii_lower].
  intros H. apply andb_true_iff in H. destruct H as [Hc Hs].
  rewrite (proj1 (digit_facts c Hc)), (IH Hs). reflexivity.
Qed.

Lemma lower_digits (s : str) : all_digits s = true -> PyStr.lower s = s.
Proof.
  intros H.
  rewrite (lowered_readable s _ (readable_digits s H) (lower_lowered s)).
  apply ascii_lower_digits. exact H.
Qed.

(** [float] reads a text of digits as it stands. *)
Lemma ascii_text_digits (s : str) : all_digits s = true -> PyFloat.ascii_text s = s.
Proof.
  intros H. unfold PyFloat.ascii_text.
  assert (Ht : PyFloat.float_text s = s).
  { induction s as [|c s IH]; [reflexivity|]. cbn [all_digits] in H.
    apply andb_true_iff in H. destruct H as [Hc Hs]. cbn [PyFloat.float_text].
    destruct (digit_facts c Hc) as (_ & _ & _ & _ & _ & _ & _ & _ & _ & _ & -> & _).
    rewrite (IH Hs). reflexivity. }
  assert (Hk : PyFloat.skip_blanks s = s).
  { destruct s as [|c s]; [reflexivity|]. cbn [all_digits] in H.
    apply andb_true_iff in H. destruct H as [Hc _]. cbn [PyFloat.skip_blanks].
    destruct (digit_facts c Hc) as (_ & _ & _ & _ & _ & _ & _ & _ & _ & _ & _ & ->).
    reflexivity. }
  assert (Hd : PyFloat.drop_blanks s = s).
  { clear Ht Hk. induction s as [|c s IH]; [reflexivity|]. cbn [all_digits] in H.
    apply andb_true_iff in H. destruct H as [Hc Hs]. cbn [PyFloat.drop_blanks].
    destruct (digit_facts c Hc) as (_ & _ & _ & _ & _ & _ & _ & _ & _ & _ & _ & ->).
    rewrite (IH Hs). reflexivity. }
  rewrite Ht, Hk, Hd. apply ascii_lower_digits. exact H.
Qed.

Lemma unitless_digits (s : str) : all_digits s = true -> unitless s = true.
Proof.
  induction s as [|c s IH]; [reflexivity|]. cbn [all_digits unitless].
  intros H. apply andb_true_iff in H. destruct H as [Hc Hs].
  destruct (digit_facts c Hc) as (_ & _ & -> & _). rewrite (IH Hs). reflexivity.
Qed.

Lemma rstrip_digits (s : str) : all_digits s = true -> PyStr.rstrip s = s.
Proof.
  induction s as [|c s IH]; [reflexivity|]. cbn [all_digits PyStr.rstrip].
  intros H. apply andb_true_iff in H. destruct H as [Hc Hs].
  destruct (digit_facts c Hc) as (_ & -> & _). rewrite (IH Hs). reflexivity.
Qed.

Lemma strip_digits (s : str) : all_digits s = true -> PyStr.strip s = s.
Proof.
  intros H. unfold PyStr.strip.
  assert (Hl : PyStr.lstrip s = s).
  { destruct s as [|c s]; [reflexivity|]. cbn [all_digits] in H.
    apply andb_true_iff in H. destruct H as [Hc _]. cbn [PyStr.lstrip].
    destruct (digit_facts c Hc) as (_ & -> & _). reflexivity. }
  rewrite Hl. exact (rstrip_digits s H).
Qed.

Lemma split_digits (sep : char) (s : str) :
  (forall c, PyFloat.is_digit c = true -> Char.eqb c sep = false) ->
  all_digits s = true -> PyStr.split sep s = [s].
Proof.
  intros Hsep. induction s as [|c s IH]; [reflexivity|]. cbn [all_digits PyStr.split].
  intros H. apply andb_true_iff in H. destruct H as [Hc Hs].
  rewrite (Hsep c Hc), (IH Hs). reflexivity.
Qed.

Lemma digitpart_rest_digits (d : Decimal.uint) :
  forall (acc : Z) (cnt : nat),
    PyFloat.digitpart_rest (Str.of_ascii (NilEmpty.string_of_uint d)) acc cnt false
    = Some (uint_value d acc, (cnt + Decimal.nb_digits d)%nat).
Proof.
  induction d; intros acc cnt; cbn [NilEmpty.string_of_uint Str.of_ascii
                                      PyFloat.digitpart_rest uint_value Decimal.nb_digits];
    [rewrite Nat.add_0_r; reflexivity | ..];
    change (PyFloat.is_digit _) with true; cbv iota;
    rewrite IHd, Nat.add_succ_r; reflexivity.
Qed.

Lemma digits_of_uint (d : Decimal.uint) :
  all_digits (Str.of_ascii (NilEmpty.string_of_uint d)) = true.
Proof.
  induction d; cbn [NilEmpty.string_of_uint Str.of_ascii all_digits]; [reflexivity | ..];
    rewrite IHd; reflexivity.
Qed.

Lemma digitpart_digits (d : Decimal.uint) :
  d <> Decimal.Nil ->
  exists k, PyFloat.digitpart (Str.of_ascii (NilEmpty.string_of_uint d))
            = Some (uint_value d 0, k).
Proof.
  intros Hd. destruct d; [congruence | ..];
    cbn [NilEmpty.string_of_uint Str.of_ascii PyFloat.digitpart uint_value];
    change (PyFloat.is_digit _) with true; cbv iota;
    rewrite digitpart_rest_digits; eexists; reflexivity.
Qed.

Lemma uint_value_acc (d : Decimal.uint) :
  forall acc : positive, Z.pos (Pos.of_uint_acc d acc) = uint_value d (Z.pos acc).
Proof.
  induction d; intros acc; cbn [Pos.of_uint_acc uint_value]; [reflexivity | ..];
    rewrite IHd; f_equal; lia.
Qed.

Lemma uint_value_of_uint (d : Decimal.uint) : Z.of_N (Pos.of_uint d) = uint_value d 0.
Proof.
  induction d; cbn [Pos.of_uint uint_value]; [reflexivity | exact IHd | ..];
    cbn [Z.of_N]; rewrite uint_value_acc; reflexivity.
Qed.

(** [float] of the decimal text of a positive integer below [2 ^ 53] is
    that integer. *)
Lemma of_string_positive (p : positive) :
  Z.pos p < 2 ^ 53 ->
  PyStr.of_Z (Z.pos p) = Str.of_ascii (NilEmpty.string_of_uint (Pos.to_uint p))
  /\ PyFloat.of_string (PyStr.of_Z (Z.pos p))
     = Some (PyFloat.Finite (PyFloat.dyadic (Z.pos p) 1074)).
Proof.
  intros Hp.
  assert (Hnil : Pos.to_uint p <> Decimal.Nil).
  { intros E. pose proof (DecimalPos.Unsigned.of_to p) as H. rewrite E in H.
    discriminate H. }
  assert (Hstr : PyStr.of_Z (Z.pos p)
                 = Str.of_ascii (NilEmpty.string_of_uint (Pos.to_uint p))).
  { unfold PyStr.of_Z. cbn [Z.to_int NilZero.string_of_int]. unfold NilZero.string_of_uint.
    destruct (Pos.to_uint p); [congruence | reflexivity ..]. }
  split; [exact Hstr|]. rewrite Hstr.
  set (s := Str.of_ascii (NilEmpty.string_of_uint (Pos.to_uint p))).
  pose proof (digits_of_uint (Pos.to_uint p)) as Hdigits. fold s in Hdigits.
  destruct (digitpart_digits (Pos.to_uint p) Hnil) as [k Hk]. fold s in Hk.
  rewrite <- uint_value_of_uint, DecimalPos.Unsigned.of_to in Hk. cbn [Z.of_N] in Hk.
  unfold PyFloat.of_string. rewrite (ascii_text_digits s Hdigits).
  unfold PyFloat.of_ascii_text.
  assert (Hsigned : PyFloat.signed s = (false, s)
                    /\ Str.eqb s "inf" = false /\ Str.eqb s "infinity" = false
                    /\ Str.eqb s "nan" = false).
  { destruct s as [|c r]; [repeat split|]. cbn [all_digits] in Hdigits.
    apply andb_true_iff in Hdigits. destruct Hdigits as [Hc _].
    destruct (digit_facts c Hc) as (_ & _ & _ & _ & _ & Hplus & Hminus & Hi & Hn & _).
    cbn [Str.eqb]. rewrite Hi, Hn. repeat split.
    unfold PyFloat.signed. rewrite Hplus, Hminus. reflexivity. }
  destruct Hsigned as (-> & -> & -> & ->). cbn [orb].
  unfold PyFloat.floatnumber.
  rewrite (split_digits "e" s (fun c Hc => proj1 (proj2 (proj2 (proj2 (digit_facts c Hc))))) Hdigits).
  unfold PyFloat.number.
  rewrite (split_digits "." s
             (fun c Hc => proj1 (proj2 (proj2 (proj2 (proj2 (digit_facts c Hc)))))) Hdigits).
  rewrite Hk. f_equal. unfold PyFloat.of_decimal. cbn [Z.of_nat Z.opp Z.leb Z.compare].
  rewrite Z.pow_0_r, Z.mul_1_r.
  rewrite (of_Q_exact (inject_Z (Z.pos p)) (Z.pos p) 1074).
  - assert (H : (2 ^ 2098 <=? Z.abs (Z.pos p) * 2 ^ 1074) = false).
    { apply Z.leb_gt. change (2 ^ 2098) with (2 ^ 1024 * 2 ^ 1074).
      apply Z.mul_lt_mono_pos_r; [exact pow2_1074_pos|].
      cbn [Z.abs]. eapply Z.lt_trans; [exact Hp|]. reflexivity. }
    rewrite H. reflexivity.
  - cbn [Z.abs]. split; [reflexivity | exact Hp].
  - discriminate.
  - cbn [inject_Z Qnum Qden]. rewrite Z.mul_1_r. reflexivity.
Qed.

(** X18.  A plain byte count survives the round trip through its decimal
    text: for an integer from 0 up to [2 ^ 53], not included,
    [_parse_transfer (str n)] is [n]. *)
Theorem parse_transfer_of_str (n : Z) :
  0 <= n < 2 ^ 53 ->
  _parse_transfer (PyStr.of_Z n) = n.
Proof.
  intros [Hlo Hhi]. destruct n as [|p|p]; [vm_compute; reflexivity | | lia].
  destruct (of_string_positive p Hhi) as [Hstr Hfloat].
  rewrite parse_transfer_plain.
  - rewrite Hfloat. unfold int_or_zero. rewrite to_int_dyadic.
    rewrite Z.quot_mul; [reflexivity|]. pose proof pow2_1074_pos. lia.
  - apply no_unit_marker_unitless. rewrite Hstr.
    rewrite (lower_digits _ (digits_of_uint _)).
    apply unitless_digits, digits_of_uint.
Qed.

(** ** Activation of an invalid profile *)

Section InvalidExtras.

Context {World : Type} {platform : Platform World}.

(** X19.  When a name passes the existence check and fails validation,
    [activate_profile] refuses with the reason of the validation, spawns
    nothing, not even the status query, and leaves manager and world as
    they were. *)
Theorem activate_invalid (target : str) (s : Sys World) (reason : str) :
  result_of (check_profile_exists target s) = true ->
  result_of (validate_profile target s) = (false, reason) ->
  result_of (activate_profile target s) = (false, Msg.invalid target reason)
  /\ runs (trace_of (activate_profile target s)) = []
  /\ state_of (activate_profile target s) = s.
Proof.
  intros Hex Hvalid. unfold activate_profile.
  pose proof (check_profile_exists_frame target s) as [Hs1 Hl1].
  destruct (check_profile_exists target s) as [[ex s1] l1] eqn:E1.
  unfold state_of, trace_of, result_of in Hs1, Hl1, Hex. cbn [fst snd] in Hs1, Hl1, Hex.
  subst s1 ex. rewrite (bind_run _ _ _ _ _ _ E1). cbn [negb].
  pose proof (validate_profile_frame target s) as [Hs2 Hl2].
  destruct (validate_profile target s) as [[[valid msg] s2] l2] eqn:E2.
  unfold state_of, trace_of, result_of in Hs2, Hl2, Hvalid.
  cbn [fst snd] in Hs2, Hl2, Hvalid. subst s2. inversion Hvalid; subst valid msg.
  rewrite (bind_run _ _ _ _ _ _ E2). cbn [negb].
  unfold ret, result_of, trace_of, state_of. cbn [fst snd].
  rewrite !runs_app, Hl1, Hl2. repeat split.
Qed.

End InvalidExtras.

(** ** One active profile at most *)

Section SteadyExtras.

Context {World : Type} {platform : Platform World}.

Lemma steady_ret {A : Type} (c : Manager) (w : World) (a : A) (R : A -> Prop) :
  R a -> steady c w (ret a) R.
Proof. intros Ha s Hc Hw. split; [exact Hc|]. split; [exact Hw | exact Ha]. Qed.

Lemma steady_bind {A B : Type} (c : Manager) (w : World)
      (m : M World A) (f : A -> M World B) (R : A -> Prop) (R' : B -> Prop) :
  steady c w m R -> (forall a, R a -> steady c w (f a) R') -> steady c w (bind m f) R'.
Proof.
  intros Hm Hf s Hc Hw. specialize (Hm s Hc Hw). unfold bind.
  destruct (m s) as [[a s1] l1]. unfold state_of, result_of in Hm. cbn [fst snd] in Hm.
  destruct Hm as (Hc1 & Hw1 & Ha). specialize (Hf a Ha s1 Hc1 Hw1).
  destruct (f a s1) as [[b s2] l2]. exact Hf.
Qed.

Lemma steady_self (c : Manager) (w : World) :
  steady c w (self (World := World)) (same_config c).
Proof. intros s Hc Hw. split; [exact Hc|]. split; [exact Hw | exact Hc]. Qed.

Lemma steady_set_active (c : Manager) (w : World) (a : option str) :
  steady c w (set_active_profile a) (fun _ => True).
Proof. intros s Hc Hw. split; [exact Hc|]. split; [exact Hw | exact I]. Qed.

Lemma steady_set_cache (c : Manager) (w : World) (k : list (str * ProfileInfo)) :
  steady c w (set_profiles_cache k) (fun _ => True).
Proof. intros s Hc Hw. split; [exact Hc|]. split; [exact Hw | exact I]. Qed.

Lemma steady_check_exists (c : Manager) (w : World) (p : str) :
  steady c w (check_profile_exists p) (fun _ => True).
Proof.
  intros s Hc Hw. destruct (check_profile_exists_frame p s) as [Hst _].
  rewrite Hst. split; [exact Hc|]. split; [exact Hw | exact I].
Qed.

(** On a quiet world one status query or several come to the same: the
    answer of the world. *)
Lemma steady_retry_loop (c : Manager) (w : World) (r : ProcResult) (k : nat) :
  quiet c r w ->
  forall last_error,
    (last_error = snd (run_outcome (timeout_wg_show c) r)
     /\ fst (run_outcome (timeout_wg_show c) r) = false) \/ k <> O ->
    steady c w (retry_loop ["wg"; "show"] (timeout_wg_show c) k last_error)
           (eq (run_outcome (timeout_wg_show c) r)).
Proof.
  intros Hq. induction k as [|k IH]; intros last_error Hk s Hc Hw.
  - destruct Hk as [[-> Hfail] | Hk]; [|congruence].
    cbn [retry_loop]. split; [exact Hc|]. split; [exact Hw|].
    unfold ret, result_of. cbn [fst snd].
    destruct (run_outcome (timeout_wg_show c) r) as [ok out]. cbn [fst snd] in *.
    subst ok. reflexivity.
  - assert (Hrun : _run_command ["wg"; "show"] (timeout_wg_show c) s
                   = (run_outcome (timeout_wg_show c) r, s,
                      [EvRun wg_show_cmd (timeout_wg_show c)
                         (run_outcome (timeout_wg_show c) r)])).
    { unfold _run_command. unfold quiet, wg_show_cmd in Hq. rewrite Hw, Hq.
      destruct s as [m w0]. cbn [world] in Hw. subst w0. reflexivity. }
    rewrite (retry_loop_step _ _ _ _ _ _ _ _ Hrun).
    destruct (run_outcome (timeout_wg_show c) r) as [ok out] eqn:Eo. cbn [fst snd].
    destruct ok; [split; [exact Hc|]; split; [exact Hw | reflexivity]|].
    destruct (stops_retrying out); [split; [exact Hc|]; split; [exact Hw | reflexivity]|].
    specialize (IH out (or_introl (conj eq_refl eq_refl)) s Hc Hw).
    destruct (retry_loop ["wg"; "show"] (timeout_wg_show c) k out s) as [[b s2] l2].
    exact IH.
Qed.

Lemma steady_query (c : Manager) (w : World) (r : ProcResult) :
  quiet c r w -> 1 <= max_retries c ->
  steady c w (_run_command_with_retry ["wg"; "show"] (timeout_wg_show c) None)
         (eq (run_outcome (timeout_wg_show c) r)).
Proof.
  intros Hq Hmax s Hc Hw. rewrite run_with_retry_none.
  apply (steady_retry_loop c w r _ Hq); [|exact Hc | exact Hw].
  right. destruct Hc as (_ & _ & _ & _ & <-). lia.
Qed.

Lemma seen_active_outcome (c : Manager) (r : ProcResult) :
  seen_active c r
  = if fst (run_outcome (timeout_wg_show c) r)
    then parse_active (profiles c) (snd (run_outcome (timeout_wg_show c) r))
    else None.
Proof.
  destruct r as [rc out err| |msg]; cbn [seen_active run_outcome]; [|reflexivity ..].
  destruct (rc =? 0); reflexivity.
Qed.

Lemma steady_get_active (c : Manager) (w : World) (r : ProcResult) :
  quiet c r w -> 1 <= max_retries c ->
  steady c w get_active_profile (eq (seen_active c r)).
Proof.
  intros Hq Hmax. unfold get_active_profile.
  eapply steady_bind; [apply steady_self|]. intros m Hm. cbv beta.
  destruct Hm as (<- & _ & _ & <- & _).
  eapply steady_bind; [apply (steady_query c w r Hq Hmax)|].
  intros [ok out] Ho. rewrite seen_active_outcome, Ho. cbn [fst snd].
  destruct ok; cbn [negb]; [|apply steady_ret; reflexivity].
  eapply steady_bind; [apply steady_set_active|]. intros _ _.
  apply steady_ret. reflexivity.
Qed.

Lemma steady_get_status (c : Manager) (w : World) (r : ProcResult) (p : str) :
  quiet c r w -> 1 <= max_retries c ->
  steady c w (get_profile_status p)
         (fun st => st = ACTIVE <-> seen_active c r = Some p).
Proof.
  intros Hq Hmax. unfold get_profile_status.
  eapply steady_bind; [apply (steady_get_active c w r Hq Hmax)|].
  intros active <-. cbv beta.
  destruct (option_string_eqb (seen_active c r) p) eqn:E.
  - apply steady_ret. split; [intros _ | reflexivity].
    destruct (seen_active c r) as [q|]; [|discriminate E].
    cbn in E. apply str_eqb_eq in E. subst q. reflexivity.
  - eapply steady_bind; [apply steady_check_exists|]. intros ex _.
    assert (Hne : seen_active c r <> Some p).
    { intros Heq. rewrite Heq in E. cbn in E. rewrite str_eqb_refl in E.
      discriminate E. }
    destruct ex; cbn [negb]; apply steady_ret; (split; [discriminate | contradiction]).
Qed.

Lemma steady_profile_info (c : Manager) (w : World) (r : ProcResult) (p : str) :
  quiet c r w -> 1 <= max_retries c ->
  steady c w (profile_info p)
         (fun info => status info = ACTIVE <-> seen_active c r = Some p).
Proof.
  intros Hq Hmax. unfold profile_info.
  eapply steady_bind; [apply steady_self|]. intros m Hm. cbv beta.
  eapply steady_bind; [apply (steady_get_status c w r p Hq Hmax)|].
  intros st Hst. cbv beta zeta.
  destruct (ProfileStatus_eqb st ACTIVE); [|apply steady_ret; exact Hst].
  destruct Hm as (_ & _ & _ & <- & _).
  eapply steady_bind; [apply (steady_query c w r Hq Hmax)|].
  intros [ok out] _. destruct ok; apply steady_ret; [|exact Hst].
  destruct (apply_transfer_lines_keeps out
              (new_ProfileInfo p st (path_join (config_dir m) (p ++ ".conf"))))
    as (_ & -> & _).
  exact Hst.
Qed.

Lemma steady_collect_infos (c : Manager) (w : World) (r : ProcResult)
      (profs : list str) :
  quiet c r w -> 1 <= max_retries c ->
  forall acc : list (str * ProfileInfo),
    (forall k info, dict_get k acc = Some info ->
                    (status info = ACTIVE <-> seen_active c r = Some k)) ->
    steady c w (collect_infos profs acc)
           (fun res => forall k info, dict_get k res = Some info ->
                         (status info = ACTIVE <-> seen_active c r = Some k)).
Proof.
  intros Hq Hmax. induction profs as [|p rest IH]; intros acc Hacc; cbn [collect_infos].
  - apply steady_ret. exact Hacc.
  - eapply steady_bind; [apply (steady_profile_info c w r p Hq Hmax)|].
    intros info Hinfo. cbv beta. apply IH.
    intros k i Hk. destruct (str_dec k p) as [->|Hne].
    + rewrite dict_get_set_same in Hk. inversion Hk; subst. exact Hinfo.
    + rewrite (dict_get_set_other _ _ _ _ Hne) in Hk. exact (Hacc _ _ Hk).
Qed.

(** X20.  On a world on which the status query has no effect and always
    gives the same answer, [get_all_profiles_info] reports as ACTIVE the
    one profile that the answer makes active and no other: however many
    tunnels the answer lists, at most one entry is ACTIVE. *)
Theorem one_active_at_most (s : Sys World) (r : ProcResult) :
  quiet (mgr s) r (world s) ->
  1 <= max_retries (mgr s) ->
  let infos := result_of (get_all_profiles_info s) in
  (forall p info, dict_get p infos = Some info ->
                  (status info = ACTIVE <-> seen_active (mgr s) r = Some p))
  /\ (forall p q info info',
         dict_get p infos = Some info -> dict_get q infos = Some info' ->
         status info = ACTIVE -> status info' = ACTIVE -> p = q).
Proof.
  intros Hq Hmax. cbv zeta.
  assert (Hall : forall p info,
             dict_get p (result_of (get_all_profiles_info s)) = Some info ->
             (status info = ACTIVE <-> seen_active (mgr s) r = Some p)).
  { assert (Hsteady : steady (mgr s) (world s) get_all_profiles_info
                        (fun res => forall k info, dict_get k res = Some info ->
                           (status info = ACTIVE <-> seen_active (mgr s) r = Some k))).
    { unfold get_all_profiles_info.
      eapply steady_bind; [apply steady_self|]. intros m Hm. cbv beta.
      eapply steady_bind.
      - apply (steady_collect_infos (mgr s) (world s) r (profiles m) Hq Hmax []).
        intros k info Hk. discriminate Hk.
      - intros res Hres. cbv beta.
        eapply steady_bind; [apply steady_set_cache|]. intros _ _.
        apply steady_ret. exact Hres. }
    exact (proj2 (proj2 (Hsteady s (same_config_refl _) eq_refl))). }
  split; [exact Hall|].
  intros p q info info' Hp Hq' Ha Ha'.
  apply (Hall p info Hp) in Ha. apply (Hall q info' Hq') in Ha'.
  congruence.
Qed.

End SteadyExtras.

(** ** The further properties at concrete worlds *)

(** X1, at a concrete world: no attempt allowed. *)
Lemma retry_no_attempt_witness :
  _run_command_with_retry ["wg"; "show"] 30 (Some 0) flaky = ((false, ""), flaky, []).
Proof.
  apply (retry_no_attempt ["wg"; "show"] 30 0 flaky). lia.
Defined.

(** X3, at a concrete world: three attempts, each refused. *)
Lemma retry_exhaustion_witness :
  exists s' l,
    _run_command_with_retry ["wg-quick"; "up"; "App"] 60 (Some 3) refusing
    = ((false, "RTNETLINK answers: Operation not permitted"), s', l)
    /\ Z.of_nat (List.length (runs l)) = 3.
Proof.
  eexists. eexists. split; [reflexivity|].
  eapply (retry_exhaustion ["wg-quick"; "up"; "App"] 60 3 refusing);
    [lia | reflexivity | reflexivity].
Defined.

(** X4, at a concrete world: two failures, then the success. *)
Lemma retry_success_is_last_witness :
  exists s' l l0,
    _run_command_with_retry ["wg"; "show"] 30 (Some 3) flaky = ((true, "out"), s', l)
    /\ l = (l0 ++ [EvRun ["pkexec"; "wg"; "show"] 30 (true, "out")])%list
    /\ List.length (runs l0) = 2%nat.
Proof.
  assert (E : exists s' l,
             _run_command_with_retry ["wg"; "show"] 30 (Some 3) flaky
             = ((true, "out"), s', l) /\ List.length (runs l) = 3%nat)
    by (eexists; eexists; split; reflexivity).
  destruct E as (s' & l & E & Hlen).
  destruct (retry_success_is_last ["wg"; "show"] 30 (Some 3) flaky s' "out" l E)
    as (l0 & Hl & _).
  exists s', l, l0. split; [exact E|]. split; [exact Hl|].
  rewrite Hl, runs_app, length_app in Hlen. cbn in Hlen. lia.
Defined.

(** X5, at a concrete world: the command hangs, three attempts allowed. *)
Lemma timeout_not_retried_witness :
  _run_command_with_retry ["wg-quick"; "up"; "App"] 60 (Some 3) hanging
  = ((false, Msg.timeout 60), hanging,
     [EvRun ["pkexec"; "wg-quick"; "up"; "App"] 60 (false, Msg.timeout 60)]).
Proof.
  apply (timeout_not_retried ["wg-quick"; "up"; "App"] 60 3 hanging (world hanging));
    [lia | reflexivity].
Defined.

(** X7, at a concrete world: the entry of a configured profile, and no
    entry for another name. *)
Lemma profiles_info_entries_witness :
  (exists info,
      dict_get "usa" (result_of (get_all_profiles_info bombox_up)) = Some info
      /\ entry_of (mgr bombox_up) "usa" info)
  /\ dict_get "ghost" (result_of (get_all_profiles_info bombox_up)) = None.
Proof.
  destruct (profiles_info_entries bombox_up) as (Hkeys & Hgood & _).
  split.
  - destruct (dict_get "usa" (result_of (get_all_profiles_info bombox_up)))
      as [info|] eqn:E.
    + exists info. split; [reflexivity | exact (Hgood "usa" info E)].
    + exfalso. apply (proj2 (Hkeys "usa")); [cbn; tauto | exact E].
  - reflexivity.
Defined.

(** X10, at a concrete world: one tool and the directory are missing. *)
Lemma system_ready_verdict_witness :
  result_of (check_system_ready half_installed)
  = Some (false,
          PyStr.join "; " [Msg.cmd_not_found "wg-quick"; Msg.no_config_dir "/etc/wireguard"]).
Proof.
  rewrite (system_ready_verdict half_installed false);
    [reflexivity | discriminate | reflexivity].
Defined.

(** X11, at a concrete world: bomBox is up, App is brought up. *)
Lemma activation_verdict_witness :
  last_run (trace_of (activate_profile "App" bombox_up))
  = Some (EvRun ["pkexec"; "wg-quick"; "up"; "App"] 60
            (result_of (activate_profile "App" bombox_up)))
  /\ _active_profile (mgr (state_of (activate_profile "App" bombox_up))) = Some "App".
Proof.
  assert (H1 : result_of (check_profile_exists "App" bombox_up) = true) by reflexivity.
  assert (H2 : fst (result_of (validate_profile "App" bombox_up)) = true) by reflexivity.
  assert (H3 : result_of (get_profile_status "App" bombox_up) <> ACTIVE)
    by (intros H; vm_compute in H; discriminate H).
  assert (H4 : 1 <= max_retries (mgr bombox_up)) by (cbn; lia).
  destruct (activation_verdict "App" bombox_up H1 H2 H3 H4) as [Hlast Hhint].
  split; [exact Hlast | apply Hhint; reflexivity].
Defined.

(** X12, at a concrete world: every command succeeds at once. *)
Lemma turn_off_all_commands_witness :
  (exists a b c,
      runs (trace_of (turn_off_all office_only))
      = (repeat (down_cmd "App") a ++ repeat (down_cmd "bomBox") b
         ++ repeat (down_cmd "usa") c)%list)
  /\ mgr (state_of (turn_off_all office_only)) = with_active None (mgr office_only).
Proof.
  assert (H : 1 <= max_retries (mgr office_only)) by (cbn; lia).
  destruct (turn_off_all_commands office_only H) as [(a & b & c & Hruns & _) Hmgr].
  split; [exists a, b, c; exact Hruns | exact Hmgr].
Defined.

(** X13, at a concrete world: the stale hint that usa is up does not make
    it active. *)
Lemma hint_and_cache_never_read_witness :
  result_of (get_profile_status "usa" stale) = INACTIVE
  /\ result_of (activate_profile "App" stale) = result_of (activate_profile "App" bombox_up).
Proof.
  assert (Hc : same_config (mgr stale) (mgr bombox_up)) by (repeat split).
  assert (Hw : world stale = world bombox_up) by reflexivity.
  split.
  - destruct (hint_and_cache_never_read "usa" stale bombox_up Hc Hw)
      as (_ & _ & _ & (Hres & _) & _).
    rewrite Hres. reflexivity.
  - destruct (hint_and_cache_never_read "App" stale bombox_up Hc Hw)
      as (_ & _ & _ & _ & _ & _ & (Hres & _) & _).
    exact Hres.
Defined.

(** X14, at a concrete dump: the key line between two other lines. *)
Lemma preshared_key_hidden_witness :
  Ui.format_lines
    ["peer: abc"; "  preshared key: c2VjcmV0IGtleQ=="; "  allowed ips: 10.0.0.2/32"]
  = ["👤 peer: abc"; Ui.hidden_key; "  📡   allowed ips: 10.0.0.2/32"].
Proof.
  exact (preshared_key_hidden ["peer: abc"] ["  allowed ips: 10.0.0.2/32"]
           "c2VjcmV0IGtleQ==" eq_refl).
Defined.

(** X15, at a concrete world: the status tool is missing. *)
Lemma failed_status_shown_verbatim_witness :
  Ui._format_wg_show_output (result_of (get_wg_show_output wg_missing))
  = Msg.status_error "pkexec: wg: command not found".
Proof.
  eapply (failed_status_shown_verbatim wg_missing). reflexivity.
Defined.

(** X18, at a concrete count. *)
Lemma parse_transfer_of_str_witness :
  _parse_transfer (PyStr.of_Z 1289748) = 1289748.
Proof.
  apply parse_transfer_of_str. split; [lia | reflexivity].
Defined.

(** The bound of the round trip is sharp: [2 ^ 53 + 1] comes back as
    [2 ^ 53]. *)
Example parse_transfer_beyond_53_bits :
  _parse_transfer (PyStr.of_Z (2 ^ 53 + 1)) = 2 ^ 53.
Proof. vm_compute. reflexivity. Qed.

(** X19, at a concrete world: the configuration file of [App] lacks its
    [[Interface]] section. *)
Lemma activate_invalid_witness :
  result_of (activate_profile "App" (app_up "PrivateKey = xxx"))
  = (false, Msg.invalid "App" Msg.no_interface_section)
  /\ runs (trace_of (activate_profile "App" (app_up "PrivateKey = xxx"))) = [].
Proof.
  assert (Hex : result_of (check_profile_exists "App" (app_up "PrivateKey = xxx")) = true)
    by reflexivity.
  assert (Hvalid : result_of (validate_profile "App" (app_up "PrivateKey = xxx"))
                   = (false, Msg.no_interface_section)) by reflexivity.
  destruct (activate_invalid "App" (app_up "PrivateKey = xxx") Msg.no_interface_section
              Hex Hvalid) as (Hres & Hruns & _).
  split; [exact Hres | exact Hruns].
Defined.

(** X20, at a concrete world: usa and App are both up, and usa alone is
    reported. *)
Lemma one_active_at_most_witness :
  exists usa app,
    dict_get "usa" (result_of (get_all_profiles_info two_up)) = Some usa
    /\ dict_get "App" (result_of (get_all_profiles_info two_up)) = Some app
    /\ status usa = ACTIVE /\ status app <> ACTIVE.
Proof.
  assert (Hq : quiet (mgr two_up)
                 (succeeds ("interface: usa" ++ newline ++ newline ++ "interface: App"))
                 (world two_up)) by reflexivity.
  assert (Hmax : 1 <= max_retries (mgr two_up)) by (cbn; lia).
  destruct (one_active_at_most two_up _ Hq Hmax) as [Hall _].
  assert (Eusa : exists usa,
             dict_get "usa" (result_of (get_all_profiles_info two_up)) = Some usa)
    by (eexists; reflexivity).
  assert (Eapp : exists app,
             dict_get "App" (result_of (get_all_profiles_info two_up)) = Some app)
    by (eexists; reflexivity).
  destruct Eusa as [usa Eusa]. destruct Eapp as [app Eapp].
  exists usa, app. split; [exact Eusa|]. split; [exact Eapp|]. split.
  - apply (Hall "usa" usa Eusa). reflexivity.
  - intros Hact. apply (Hall "App" app Eapp) in Hact.
    vm_compute in Hact. discriminate Hact.
Defined.
